(** * PhoneMediaFileRenamer: a shallow embedding of [photo_renamer.py]

    The development follows the layout of the script:
    - [Exc]       exceptions: a statement completes with a value or
                  raises;
    - [Py]        the Python primitives the script relies on (string
                  methods, [pathlib] suffixes, the stable [list.sort]);
    - [Datetime]  [datetime] values, naive and offset-aware, their
                  ordering and [strftime("%Y-%m-%d")];
    - [Extract]   the metadata extractors and the date resolver;
    - [Fs]        one directory of the file system;
    - [Renamer]   [find_media_files] and [rename_media_in_directory];
    - [Reference], [Scenario]  a concrete platform and the directories of
                  the repository's test scenarios;
    - [ExifSpec], [Plan], [Renaming], [ExtractSpec], [Tree], [Names]
                  the notions the properties are stated with;
    - [Driver]    [rename_media], the loop over the directories.
    The properties follow the definitions.

    Strings are ASCII strings; file names are compared byte-wise, as on a
    POSIX file system.  Exceptions that the script does not catch end the
    call: [datetime.fromtimestamp] refuses a time stamp whose year is out
    of range, and [list.sort] cannot compare a naive timestamp with an
    offset-aware one.  What a rename does to the [st_ctime] of the file
    and to the order in which the directory is listed afterwards is not
    followed: a renamed entry keeps its place and its node. *)

From Stdlib Require Import List String Ascii Bool Arith ZArith Lia.
From Stdlib Require Import Permutation Sorted DecimalString.
From Stdlib Require DecimalNat.
Import ListNotations.
Open Scope string_scope.

Set Implicit Arguments.
Set Warnings "-register-all".

(* ===================================================================== *)
(** ** Exceptions *)
(* ===================================================================== *)

Module Exc.

(** Exceptions the script meets. *)
Inductive exn :=
| ValueError | TypeError | AttributeError | KeyError | ImportError
| TimeoutExpired | CalledProcessError | JSONDecodeError | OSError
| OverflowError.

(** A statement either completes with a value or raises. *)
Inductive result (A : Type) :=
| Ok (a : A)
| Raise (e : exn).
Arguments Ok {A} a.
Arguments Raise {A} e.

Definition bind {A B} (r : result A) (k : A -> result B) : result B :=
  match r with
  | Ok a => k a
  | Raise e => Raise e
  end.

Notation "x <- r ;; k" := (bind r (fun x => k))
  (at level 61, r at next level, right associativity).

End Exc.

(* ===================================================================== *)
(** ** Python primitives *)
(* ===================================================================== *)

Module Py.

Import Exc.

(** [str.lower()] on ASCII text: the letters [A] to [Z] are lowered and
    every other byte is kept, as Python does for a name whose characters
    are ASCII. *)
Definition lower_ascii (c : ascii) : ascii :=
  let n := nat_of_ascii c in
  if ((65 <=? n) && (n <=? 90))%nat then ascii_of_nat (n + 32) else c.

Fixpoint lower (s : string) : string :=
  match s with
  | EmptyString => EmptyString
  | String c r => String (lower_ascii c) (lower r)
  end.

(** [s.rfind(c)] for a one-character needle: index of the last occurrence. *)
Fixpoint rfind (c : ascii) (s : string) : option nat :=
  match s with
  | EmptyString => None
  | String a r =>
      match rfind c r with
      | Some i => Some (S i)
      | None => if Ascii.eqb a c then Some 0 else None
      end
  end.

(** [s[i:]] *)
Fixpoint drop (i : nat) (s : string) : string :=
  match i, s with
  | O, _ => s
  | S j, EmptyString => EmptyString
  | S j, String _ r => drop j r
  end.

(** [PurePath.suffix] of a final path component:
    [i = name.rfind('.')], and [name[i:]] when [0 < i < len(name) - 1],
    the empty string otherwise. *)
Definition suffix (name : string) : string :=
  match rfind "."%char name with
  | Some i =>
      if ((0 <? i) && (i <? length name - 1))%nat then drop i name else ""
  | None => ""
  end.

(** [c in s] for a one-character needle. *)
Fixpoint contains (c : ascii) (s : string) : bool :=
  match s with
  | EmptyString => false
  | String a r => Ascii.eqb a c || contains c r
  end.

(** [s.split(c)[0]]: the text before the first occurrence of [c]. *)
Fixpoint split_head (c : ascii) (s : string) : string :=
  match s with
  | EmptyString => EmptyString
  | String a r => if Ascii.eqb a c then EmptyString else String a (split_head c r)
  end.

(** [s.replace(c, t)] for a one-character pattern. *)
Fixpoint replace_char (c : ascii) (t : string) (s : string) : string :=
  match s with
  | EmptyString => EmptyString
  | String a r =>
      if Ascii.eqb a c then t ++ replace_char c t r
      else String a (replace_char c t r)
  end.

(** [s.replace(p, "")] for a non-empty pattern [p]: the occurrences of [p]
    are removed from left to right, without overlap.  The recursion is on
    the text; after a match the scan restarts behind it, which [fuel]
    (the length of the text is enough) accounts for. *)
Fixpoint remove_all_fuel (fuel : nat) (p s : string) : string :=
  match fuel with
  | O => s
  | S k =>
      match s with
      | EmptyString => EmptyString
      | String a r =>
          if prefix p s then remove_all_fuel k p (drop (length p) s)
          else String a (remove_all_fuel k p r)
      end
  end.

Definition remove_all (p s : string) : string :=
  remove_all_fuel (length s) p s.

(** Substring test, [p in s]. *)
Fixpoint is_substring (p s : string) : bool :=
  prefix p s ||
  match s with
  | EmptyString => false
  | String _ r => is_substring p r
  end.

(** [str(i)] for a non-negative integer. *)
Definition str_of_nat (n : nat) : string :=
  NilZero.string_of_uint (Nat.to_uint n).

(** [enumerate(l, start)] *)
Fixpoint enumerate {A} (start : nat) (l : list A) : list (nat * A) :=
  match l with
  | [] => []
  | x :: r => (start, x) :: enumerate (S start) r
  end.

(** [list.sort(key=...)] and [sorted]: a stable sort that compares keys
    with [<] only.  [lt a b] is [key a < key b]. *)
Section Sort.
Variable A : Type.
Variable lt : A -> A -> bool.

(** [x] stood before every element of [l] in the input, so it is put
    in front of the first element that is not smaller than it. *)
Fixpoint insert (x : A) (l : list A) : list A :=
  match l with
  | [] => [x]
  | y :: r => if lt y x then y :: insert x r else x :: y :: r
  end.

Fixpoint sort (l : list A) : list A :=
  match l with
  | [] => []
  | x :: r => insert x (sort r)
  end.

(** [a] may stand before [b]: [b] is not smaller. *)
Definition not_after (a b : A) : Prop := lt b a = false.
End Sort.

(** The same sort with a [<] that may raise, as that of [datetime] does:
    the exception of a comparison ends the sort.  Whatever method sorts,
    a list with two keys that cannot be compared makes it raise, and so
    does the insertion below; without such keys it is [sort]. *)
Section SortRaising.
Variable A : Type.
Variable lt : A -> A -> result bool.

Fixpoint insert_r (x : A) (l : list A) : result (list A) :=
  match l with
  | [] => Ok [x]
  | y :: r =>
      smaller <- lt y x ;;
      if smaller : bool then (r' <- insert_r x r ;; Ok (y :: r'))
      else Ok (x :: y :: r)
  end.

Fixpoint sort_r (l : list A) : result (list A) :=
  match l with
  | [] => Ok []
  | x :: r => sorted <- sort_r r ;; insert_r x sorted
  end.
End SortRaising.

(** An extension: a dot followed by at least one character, none of
    them a dot. *)
Definition is_extension (ext : string) : Prop :=
  rfind "."%char ext = Some 0 /\ 2 <= length ext.

End Py.

(* ===================================================================== *)
(** ** [datetime] values *)
(* ===================================================================== *)

Module Datetime.

Import Exc.

(** The seven fields of a [datetime]. *)
Record naive := mk_naive {
  year : nat; month : nat; day : nat;
  hour : nat; minute : nat; second : nat; microsecond : nat }.

(** A [datetime]: its fields and, when it is offset-aware, its
    [utcoffset()] in microseconds. *)
Record datetime := mk {
  civil : naive;
  utcoffset : option Z }.

Definition of_naive (n : naive) : datetime := mk n None.

(** [datetime(y, mo, d, h, mi, s, us)], a naive value. *)
Definition mk_datetime (y mo d h mi s us : nat) : datetime :=
  of_naive (mk_naive y mo d h mi s us).

Definition fields (n : naive) : list Z :=
  map Z.of_nat
    [year n; month n; day n; hour n; minute n; second n; microsecond n].

(** [toordinal()]: the days of the proleptic Gregorian calendar up to
    the date, day 1 being 0001-01-01. *)
Definition is_leap (y : Z) : bool :=
  ((y mod 4 =? 0) && (negb (y mod 100 =? 0) || (y mod 400 =? 0)))%Z.

Definition days_before_year (y : Z) : Z :=
  let p := (y - 1)%Z in (p * 365 + p / 4 - p / 100 + p / 400)%Z.

Definition days_before_month (y : Z) (m : nat) : Z :=
  (nth (m - 1) [0; 31; 59; 90; 120; 151; 181; 212; 243; 273; 304; 334] 0 +
   (if ((2 <? m)%nat && is_leap y)%bool then 1 else 0))%Z.

Definition toordinal (n : naive) : Z :=
  (days_before_year (Z.of_nat (year n)) +
   days_before_month (Z.of_nat (year n)) (month n) +
   Z.of_nat (day n))%Z.

(** The microseconds from day 0 to the fields read as a UTC time. *)
Definition instant (n : naive) : Z :=
  ((((toordinal n * 24 + Z.of_nat (hour n)) * 60 + Z.of_nat (minute n)) * 60
    + Z.of_nat (second n)) * 1000000 + Z.of_nat (microsecond n))%Z.

(** What a comparison looks at: the fields of a naive value, the instant
    of an aware one (its fields less its offset).  The leading number
    keeps the two kinds apart. *)
Definition key (d : datetime) : list Z :=
  match utcoffset d with
  | None => 0%Z :: fields (civil d)
  | Some offset => [1%Z; (instant (civil d) - offset)%Z]
  end.

(** Tuple comparison: the first differing component decides. *)
Fixpoint lex_compare (a b : list Z) : comparison :=
  match a, b with
  | [], [] => Eq
  | [], _ :: _ => Lt
  | _ :: _, [] => Gt
  | x :: a', y :: b' =>
      match Z.compare x y with
      | Eq => lex_compare a' b'
      | c => c
      end
  end.

Definition compare (a b : datetime) : comparison :=
  lex_compare (key a) (key b).

(** Python compares two naive values and two aware values, and refuses
    a naive with an aware one. *)
Definition comparable (a b : datetime) : bool :=
  match utcoffset a, utcoffset b with
  | None, None | Some _, Some _ => true
  | _, _ => false
  end.

(** [a < b], [a > b], [a == b] on values that Python compares *)
Definition ltb (a b : datetime) : bool :=
  match compare a b with Lt => true | _ => false end.

Definition gtb (a b : datetime) : bool := ltb b a.

Definition eqb (a b : datetime) : bool :=
  match compare a b with Eq => true | _ => false end.

(** [a < b] on any two values: [TypeError] for a naive and an aware one. *)
Definition lt (a b : datetime) : result bool :=
  if comparable a b then Ok (ltb a b) else Raise TypeError.

(** The built-in [min(a, b, c)]: the first argument is the candidate and a
    later one replaces it only when it is strictly smaller. *)
Definition min3 (a b c : datetime) : datetime :=
  let m := if ltb b a then b else a in
  if ltb c m then c else m.

(** Zero padding of [%m], [%d] (two digits) and [%Y] (four digits; for a
    year below 1000 the C library decides whether [%Y] is padded, and the
    padded form is taken here). *)
Definition pad2 (n : nat) : string :=
  if (n <? 10)%nat then "0" ++ Py.str_of_nat n else Py.str_of_nat n.

Definition pad4 (n : nat) : string :=
  if (n <? 10)%nat then "000" ++ Py.str_of_nat n
  else if (n <? 100)%nat then "00" ++ Py.str_of_nat n
  else if (n <? 1000)%nat then "0" ++ Py.str_of_nat n
  else Py.str_of_nat n.

(** [d.strftime("%Y-%m-%d")]: the fields as they are, aware or not. *)
Definition strftime_day (d : datetime) : string :=
  pad4 (year (civil d)) ++ "-" ++ pad2 (month (civil d)) ++ "-" ++
  pad2 (day (civil d)).

End Datetime.

Abbreviation datetime := Datetime.datetime.

(* ===================================================================== *)
(** ** Metadata extractors and date resolver *)
(* ===================================================================== *)

Module Extract.

Export Exc.

(** The library and platform services the script calls.  They are not part
    of the repository; the extractors are stated for any such platform. *)
Record platform := mk_platform {
  (** [datetime.fromisoformat(s)]; [None] stands for [ValueError]. *)
  fromisoformat : string -> option datetime;
  (** [datetime.strptime(s, fmt)]; [None] stands for [ValueError]. *)
  strptime : string -> string -> option datetime;
  (** [PIL.ExifTags.TAGS]: tag number to tag name. *)
  TAGS : Z -> option string;
  (** whether [pillow_heif] and [exifread] can be imported *)
  has_pillow_heif : bool;
  has_exifread : bool;
  (** [datetime.fromtimestamp(t)] on a [stat] time stamp: the local
      time as a naive value, or the exception raised for a stamp outside
      the range the platform supports *)
  fromtimestamp : Z -> result Datetime.naive;
  (** whether the operating system lets [src] be renamed to [dst]
      (permissions, name length, ...) *)
  rename_permitted : string -> string -> bool }.

(** [try: body except (ValueError, TypeError): continue] inside a loop whose
    body may [return]: [Ok None] is "go on with the next iteration". *)
Definition is_value_or_type_error (e : exn) : bool :=
  match e with ValueError | TypeError => true | _ => false end.

Definition is_value_error (e : exn) : bool :=
  match e with ValueError => true | _ => false end.

Definition try_continue {A} (catches : exn -> bool)
    (body : result (option A)) : result (option A) :=
  match body with
  | Raise e => if catches e then Ok None else Raise e
  | r => r
  end.

(** [try: body except Exception: pass], followed by [return None]. *)
Definition except_Exception {A} (body : result (option A)) : option A :=
  match body with
  | Ok r => r
  | Raise _ => None
  end.

(** A [for] loop whose body may [return]: [Ok (Some v)] is [return v],
    [Ok None] is the normal end of an iteration. *)
Fixpoint for_each {A B} (body : A -> result (option B)) (l : list A)
    : result (option B) :=
  match l with
  | [] => Ok None
  | x :: r =>
      match body x with
      | Ok None => for_each body r
      | other => other
      end
  end.

(** *** Values of [json.loads] and the dynamic operations used on them *)

Inductive json :=
| JNull
| JBool (b : bool)
| JNum (n : Z)
| JStr (s : string)
| JArr (items : list json)
| JObj (members : list (string * json)).

Fixpoint assoc {V} (k : string) (l : list (string * V)) : option V :=
  match l with
  | [] => None
  | (k', v) :: r => if String.eqb k' k then Some v else assoc k r
  end.

Definition is_str (k : string) (v : json) : bool :=
  match v with JStr s => String.eqb s k | _ => false end.

(** [k in v] *)
Definition py_in (k : string) (v : json) : result bool :=
  match v with
  | JObj kvs => Ok (existsb (fun e => String.eqb (fst e) k) kvs)
  | JArr l => Ok (existsb (is_str k) l)
  | JStr s => Ok (Py.is_substring k s)
  | _ => Raise TypeError
  end.

(** [v[k]] for a string [k] *)
Definition py_getitem (v : json) (k : string) : result json :=
  match v with
  | JObj kvs =>
      match assoc k kvs with
      | Some x => Ok x
      | None => Raise KeyError
      end
  | _ => Raise TypeError
  end.

Fixpoint chars (s : string) : list json :=
  match s with
  | EmptyString => []
  | String c r => JStr (String c EmptyString) :: chars r
  end.

(** [for x in v] *)
Definition py_iter (v : json) : result (list json) :=
  match v with
  | JArr l => Ok l
  | JObj kvs => Ok (map (fun e => JStr (fst e)) kvs)
  | JStr s => Ok (chars s)
  | _ => Raise TypeError
  end.

(** [v.replace('Z', '+00:00')]: only [str] has the method. *)
Definition py_replace_Z (v : json) : result string :=
  match v with
  | JStr s => Ok (Py.replace_char "Z"%char "+00:00" s)
  | _ => Raise AttributeError
  end.

Section Extractors.
Variable P : platform.

Definition py_fromisoformat (s : string) : result (option datetime) :=
  match fromisoformat P s with
  | Some d => Ok (Some d)
  | None => Raise ValueError
  end.

(** [datetime.strptime(v, fmt)]: [TypeError] when [v] is not a [str]. *)
Definition py_strptime (v : json) (fmt : string) : result (option datetime) :=
  match v with
  | JStr s =>
      match strptime P s fmt with
      | Some d => Ok (Some d)
      | None => Raise ValueError
      end
  | _ => Raise TypeError
  end.

(** *** [get_video_date_taken] *)

(** What [subprocess.run] and [json.loads] give for a file. *)
Inductive probe :=
| ProbeTimeout                       (* [TimeoutExpired] after 30 s *)
| ProbeNotStarted                    (* [ffprobe] cannot be executed *)
| ProbeExit (returncode : Z) (stdout : option json).
                                     (* [None]: [JSONDecodeError] *)

(** The ISO branch shared by both scans (lines 70-74 and 95-99). *)
Definition parse_iso (date_str : json) : result (option datetime) :=
  s <- py_replace_Z date_str ;;
  if Py.is_substring "." s
  then py_fromisoformat (Py.split_head "."%char s)
  else py_fromisoformat (Py.remove_all "+00:00" s).

Definition other_formats : list string :=
  ["%Y-%m-%d %H:%M:%S"; "%Y:%m:%d %H:%M:%S"].

(** Body of the [try] of the container scan (lines 68-81). *)
Definition parse_format_value (date_str : json) : result (option datetime) :=
  has_T <- py_in "T" date_str ;;
  if has_T : bool then parse_iso date_str
  else for_each
         (fun fmt => try_continue is_value_error (py_strptime date_str fmt))
         other_formats.

(** One iteration of [for field in date_fields] (lines 63-83). *)
Definition format_field (tags : json) (field : string)
    : result (option datetime) :=
  present <- py_in field tags ;;
  if present : bool then
    date_str <- py_getitem tags field ;;
    try_continue is_value_or_type_error (parse_format_value date_str)
  else Ok None.

Definition date_fields : list string :=
  ["creation_time"; "date"; "creation_date";
   "com.apple.quicktime.creationdate"].

(** Lines 56-83. *)
Definition scan_format (metadata : json) : result (option datetime) :=
  has_format <- py_in "format" metadata ;;
  if has_format : bool then
    fmt <- py_getitem metadata "format" ;;
    has_tags <- py_in "tags" fmt ;;
    if has_tags : bool then
      tags <- py_getitem fmt "tags" ;;
      for_each (format_field tags) date_fields
    else Ok None
  else Ok None.

(** Body of the [try] of the stream scan (lines 94-99): there is no
    [else] branch. *)
Definition parse_stream_value (date_str : json) : result (option datetime) :=
  has_T <- py_in "T" date_str ;;
  if has_T : bool then parse_iso date_str else Ok None.

Definition stream_field (tags : json) (field : string)
    : result (option datetime) :=
  present <- py_in field tags ;;
  if present : bool then
    date_str <- py_getitem tags field ;;
    try_continue is_value_or_type_error (parse_stream_value date_str)
  else Ok None.

Definition stream_fields : list string := ["creation_time"; "date"].

Definition scan_stream (stream : json) : result (option datetime) :=
  has_tags <- py_in "tags" stream ;;
  if has_tags : bool then
    tags <- py_getitem stream "tags" ;;
    for_each (stream_field tags) stream_fields
  else Ok None.

(** Lines 86-101. *)
Definition scan_streams (metadata : json) : result (option datetime) :=
  has_streams <- py_in "streams" metadata ;;
  if has_streams : bool then
    streams <- py_getitem metadata "streams" ;;
    l <- py_iter streams ;;
    for_each scan_stream l
  else Ok None.

(** The [try] block of [get_video_date_taken] (lines 38-101). *)
Definition video_body (p : probe) : result (option datetime) :=
  match p with
  | ProbeTimeout => Raise TimeoutExpired
  | ProbeNotStarted => Raise OSError
  | ProbeExit returncode stdout =>
      if negb (Z.eqb returncode 0) then Ok None
      else
        match stdout with
        | None => Raise JSONDecodeError
        | Some metadata =>
            r <- scan_format metadata ;;
            match r with
            | Some d => Ok (Some d)
            | None => scan_streams metadata
            end
        end
  end.

(** The four [except] clauses end with [except Exception]; each handler
    falls through to [return None]. *)
Definition get_video_date_taken (p : probe) : option datetime :=
  except_Exception (video_body p).

(** *** [get_image_date_taken] *)

(** A tag value is a [str] or something else (bytes, numbers, tuples). *)
Inductive exif_value :=
| EStr (s : string)
| EOther.

(** A tag directory: the tag numbers in iteration order with their values. *)
Definition ifd := list (Z * exif_value).

Fixpoint ifd_get (d : ifd) (tag_id : Z) : option exif_value :=
  match d with
  | [] => None
  | (k, v) :: r => if Z.eqb k tag_id then Some v else ifd_get r tag_id
  end.

(** What [exifdata.get_ifd(0x8769)] gives. *)
Inductive sub_ifd :=
| NoGetIfd                     (* [hasattr(exifdata, 'get_ifd')] is false *)
| GetIfdRaises                 (* reading the sub-directory fails *)
| SubIfd (d : ifd).

(** What [Image.open] and [getexif] give for a file. *)
Inductive image :=
| CannotOpen                   (* [Image.open] or [getexif] raises *)
| NoExif                       (* [getexif()] is [None] *)
| Exif (primary : ifd) (exif_ifd : sub_ifd).

Definition exif_date_tags : list string :=
  ["DateTime"; "DateTimeOriginal"; "DateTimeDigitized"].

(** [TAGS.get(tag_id, tag_id) in ['DateTime', ...]]: an unnamed tag is its
    own number, which is none of the three names. *)
Definition is_date_tag (tag_id : Z) : bool :=
  match TAGS P tag_id with
  | Some tag => existsb (String.eqb tag) exif_date_tags
  | None => false
  end.

(** [datetime.strptime(value, "%Y:%m:%d %H:%M:%S")] on a tag value;
    [exifdata.get] gives [None] for an absent tag. *)
Definition strptime_exif (value : option exif_value)
    : result (option datetime) :=
  match value with
  | Some (EStr s) =>
      match strptime P s "%Y:%m:%d %H:%M:%S" with
      | Some d => Ok (Some d)
      | None => Raise ValueError
      end
  | _ => Raise TypeError
  end.

(** One iteration of [for tag_id in exifdata] (lines 131-141). *)
Definition scan_tag (d : ifd) (tag_id : Z) : result (option datetime) :=
  let value := ifd_get d tag_id in
  if is_date_tag tag_id
  then try_continue is_value_or_type_error (strptime_exif value)
  else Ok None.

Definition scan_ifd (d : ifd) : result (option datetime) :=
  for_each (scan_tag d) (map fst d).

(** Lines 144-160: the inner [try ... except Exception: pass]. *)
Definition scan_sub_ifd (s : sub_ifd) : result (option datetime) :=
  Ok (except_Exception
        match s with
        | NoGetIfd => Ok None
        | GetIfdRaises => Raise OSError
        | SubIfd d => scan_ifd d
        end).

(** Lines 126-160, shared with the HEIC extractor. *)
Definition exif_body (img : image) : result (option datetime) :=
  match img with
  | CannotOpen => Raise OSError
  | NoExif => Ok None
  | Exif primary exif_ifd =>
      r <- scan_ifd primary ;;
      match r with
      | Some d => Ok (Some d)
      | None => scan_sub_ifd exif_ifd
      end
  end.

Definition get_image_date_taken (img : image) : option datetime :=
  except_Exception (exif_body img).

(** *** [get_heic_date_taken] *)

Definition get_heic_date_taken (img : image) : option datetime :=
  except_Exception
    (if has_pillow_heif P then exif_body img else Raise ImportError).

(** *** [get_dng_date_taken] *)

(** What [exifread.process_file] gives: tag names with [str(value)]. *)
Inductive dng :=
| DngUnreadable
| DngTags (tags : list (string * string)).

Definition dng_date_tags : list string :=
  ["EXIF DateTimeOriginal"; "EXIF DateTimeDigitized"; "Image DateTime"].

Definition dng_tag (tags : list (string * string)) (tag_name : string)
    : result (option datetime) :=
  match assoc tag_name tags with
  | Some date_str =>
      try_continue is_value_or_type_error
        (strptime_exif (Some (EStr date_str)))
  | None => Ok None
  end.

Definition get_dng_date_taken (v : dng) : option datetime :=
  except_Exception
    (if has_exifread P then
       match v with
       | DngUnreadable => Raise OSError
       | DngTags tags => for_each (dng_tag tags) dng_date_tags
       end
     else Raise ImportError).

(** *** Files and [get_date_taken] *)

(** A regular file: its bytes, what the decoders report for it, and its
    [os.stat] time stamps. *)
Record fdata := mk_fdata {
  content : string;
  as_image : image;
  as_dng : dng;
  as_video : probe;
  st_ctime : Z;
  st_mtime : Z;
  st_atime : Z }.

(** What a file holds: its bytes and what the decoders report for them.
    The [os.stat] time stamps are left out: a rename may change them. *)
Definition payload (f : fdata) : string * image * dng * probe :=
  (content f, as_image f, as_dng f, as_video f).

Definition image_suffixes : list string :=
  [".jpg"; ".jpeg"; ".png"; ".tiff"; ".tif"; ".bmp"].

Definition heic_suffixes : list string := [".heic"; ".heif"].

Definition video_suffixes : list string :=
  [".mov"; ".mp4"; ".avi"; ".mkv"; ".m4v"; ".3gp"; ".wmv"].

Definition mem (s : string) (l : list string) : bool :=
  existsb (String.eqb s) l.

(** [name] is the final component of [file_path]. *)
Definition get_date_taken (name : string) (f : fdata) : option datetime :=
  let file_ext := Py.lower (Py.suffix name) in
  if mem file_ext image_suffixes then get_image_date_taken (as_image f)
  else if String.eqb file_ext ".dng" then get_dng_date_taken (as_dng f)
  else if mem file_ext heic_suffixes then get_heic_date_taken (as_image f)
  else if mem file_ext video_suffixes then get_video_date_taken (as_video f)
  else None.

(** *** [get_best_fallback_date] *)

(** [datetime.fromtimestamp(t)]; nothing catches what it raises. *)
Definition py_fromtimestamp (t : Z) : result datetime :=
  n <- fromtimestamp P t ;; Ok (Datetime.of_naive n).

(** The three values are naive, so [>] and [min] compare them. *)
Definition get_best_fallback_date (f : fdata) : result datetime :=
  creation_time <- py_fromtimestamp (st_ctime f) ;;
  modified_time <- py_fromtimestamp (st_mtime f) ;;
  access_time <- py_fromtimestamp (st_atime f) ;;
  if Datetime.gtb creation_time modified_time then Ok modified_time
  else Ok (Datetime.min3 creation_time modified_time access_time).

(** Lines 399-405 of [rename_media_in_directory]. *)
Definition resolve_date (name : string) (f : fdata) : result datetime :=
  match get_date_taken name f with
  | None => get_best_fallback_date f
  | Some date_taken => Ok date_taken
  end.

End Extractors.

#[global] Arguments mem : simpl never.

End Extract.

(* ===================================================================== *)
(** ** The file system under the directory being processed *)
(* ===================================================================== *)

Module Fs.

Import Extract.

(** A directory lists its entries in [iterdir] order; names are distinct. *)
Inductive node :=
| File (f : fdata)
| Dir (entries : list (string * node)).

Definition dir := list (string * node).

(** A path relative to the directory being processed. *)
Definition path := list string.

(** [p.name], [p.parent] and [p / n] *)
Definition name (p : path) : string := last p "".
Definition parent (p : path) : path := removelast p.
Definition child (p : path) (n : string) : path := (p ++ [n])%list.

Fixpoint lookup (n : string) (d : dir) : option node :=
  match d with
  | [] => None
  | (k, x) :: r => if String.eqb k n then Some x else lookup n r
  end.

Fixpoint lookup_path (p : path) (d : dir) : option node :=
  match p with
  | [] => Some (Dir d)
  | n :: r =>
      match lookup n d with
      | Some (Dir sub) => lookup_path r sub
      | Some (File f) => match r with [] => Some (File f) | _ => None end
      | None => None
      end
  end.

(** The names of a listing are distinct. *)
Fixpoint distinct (l : list string) : bool :=
  match l with
  | [] => true
  | x :: r => negb (existsb (String.eqb x) r) && distinct r
  end.

(** [p.exists()] *)
Definition path_exists (p : path) (d : dir) : bool :=
  match lookup_path p d with
  | Some _ => true
  | None => false
  end.

(** [os.rename(src, dst)] inside one directory, POSIX semantics: an
    existing regular file [dst] is silently replaced.  [None] stands for
    [OSError].  The renamed entry keeps its place in the listing and its
    node: the change of [st_ctime] that a rename brings about, and the
    order in which the directory is listed afterwards, are not followed. *)
Definition rename_entry (P : platform) (src dst : string) (d : dir)
    : option dir :=
  if negb (rename_permitted P src dst) then None
  else
    match lookup src d with
    | None => None
    | Some x =>
        if String.eqb src dst then Some d
        else
          match x, lookup dst d with
          | _, Some (Dir _) => None
          | Dir _, Some (File _) => None
          | _, _ =>
              Some (map (fun e => if String.eqb (fst e) src
                                  then (dst, snd e) else e)
                      (filter (fun e => negb (String.eqb (fst e) dst)) d))
          end
    end.

(** Apply [g] to the sub-directory [n] of [d]. *)
Fixpoint update_child (n : string) (g : dir -> option dir) (d : dir)
    : option dir :=
  match d with
  | [] => None
  | (k, x) :: r =>
      if String.eqb k n then
        match x with
        | Dir sub => option_map (fun sub' => (k, Dir sub') :: r) (g sub)
        | File _ => None
        end
      else option_map (cons (k, x)) (update_child n g r)
  end.

Fixpoint update_at (p : path) (g : dir -> option dir) (d : dir)
    : option dir :=
  match p with
  | [] => g d
  | n :: r => update_child n (update_at r g) d
  end.

(** [file_path.rename(file_path.parent / new_name)] *)
Definition rename_path (P : platform) (file_path : path) (new_name : string)
    (d : dir) : option dir :=
  update_at (parent file_path)
    (rename_entry P (name file_path) new_name) d.

(** [directory.iterdir()] *)
Definition iterdir (d : dir) : list (path * node) :=
  map (fun e => ([fst e], snd e)) d.

(** [directory.rglob('*')]: the entries of the directory, then those of
    each sub-directory, depth first. *)
Fixpoint rglob_node (x : node) : list (path * node) :=
  match x with
  | File _ => []
  | Dir es =>
      (map (fun e => ([fst e], snd e)) es ++
       (fix below (l : list (string * node)) : list (path * node) :=
          match l with
          | [] => []
          | (k, y) :: r =>
              map (fun pe => (k :: fst pe, snd pe)) (rglob_node y) ++ below r
          end) es)%list
  end.

Definition rglob (d : dir) : list (path * node) := rglob_node (Dir d).

End Fs.

(* ===================================================================== *)
(** ** [find_media_files] and [rename_media_in_directory] *)
(* ===================================================================== *)

Module Renamer.

Import Extract Fs.

Definition media_extensions : list string :=
  [".jpg"; ".jpeg"; ".png"; ".tiff"; ".tif"; ".bmp"; ".heic"; ".heif";
   ".dng";
   ".mov"; ".mp4"; ".avi"; ".mkv"; ".m4v"; ".3gp"; ".wmv"].

(** [file_path.is_file() and file_path.suffix.lower() in media_extensions];
    a media file is kept with the file it denotes. *)
Definition media_file (e : path * node) : list (path * fdata) :=
  match snd e with
  | File f =>
      if mem (Py.lower (Py.suffix (name (fst e)))) media_extensions
      then [(fst e, f)] else []
  | Dir _ => []
  end.

Definition find_media_files (directory : dir) (recursive : bool)
    : list (path * fdata) :=
  if recursive then flat_map media_file (rglob directory)
  else flat_map media_file (iterdir directory).

(** The lines the script prints for a file. *)
Inductive outcome :=
| AlreadyNamed          (* "(already correctly named)" *)
| SkippedTargetExists   (* "(SKIPPED - target exists)" *)
| DryRun                (* "(DRY RUN)" *)
| Renamed               (* "(RENAMED)" *)
| RenameError.          (* "(ERROR: ...)" *)

Record event := mk_event {
  ev_path : path;
  ev_new_name : string;
  ev_outcome : outcome }.

(** The state the renaming loops thread: the directory on disk,
    [total_renamed] and the lines printed so far. *)
Record state := mk_state {
  disk : dir;
  total_renamed : nat;
  printed : list event }.

Definition say (st : state) (p : path) (n : string) (o : outcome) : state :=
  mk_state (disk st) (total_renamed st)
    (printed st ++ [mk_event p n o])%list.

(** [files_by_date[key].append(v)] on a [defaultdict(list)]; a [dict]
    keeps its keys in insertion order. *)
Fixpoint dict_append {V} (key : string) (v : V)
    (m : list (string * list V)) : list (string * list V) :=
  match m with
  | [] => [(key, [v])]
  | (k, l) :: r =>
      if String.eqb k key then (k, (l ++ [v])%list) :: r
      else (k, l) :: dict_append key v r
  end.

(** [sorted(files_by_date.items())]: the keys are distinct, so the
    comparison of two items is that of their keys. *)
Definition sorted_items {V} (m : list (string * list V))
    : list (string * list V) :=
  Py.sort (fun a b => String.ltb (fst a) (fst b)) m.

(** [file_list.sort(key=lambda x: x[1])]: [TypeError] when the list
    holds a naive and an aware timestamp. *)
Definition sort_by_time {X} (file_list : list (X * datetime))
    : result (list (X * datetime)) :=
  Py.sort_r (fun a b => Datetime.lt (snd a) (snd b)) file_list.

(** Lines 421-425. *)
Definition new_name_of (date_str : string) (i : nat) (file_path : path)
    : string :=
  let file_ext := Py.lower (Py.suffix (name file_path)) in
  if mem file_ext video_suffixes
  then date_str ++ " - Phone Videos (" ++ Py.str_of_nat i ++ ")" ++ file_ext
  else date_str ++ " - Phone Photos (" ++ Py.str_of_nat i ++ ")" ++ file_ext.

Section Run.
Variable P : platform.

(** Lines 395-408: an exception raised for a file ends the loop, and
    the call. *)
Definition group_files (media_files : list (path * fdata))
    : result (list (string * list (path * datetime))) :=
  fold_left
    (fun so_far pf =>
       files_by_date <- so_far ;;
       date_taken <- resolve_date P (name (fst pf)) (snd pf) ;;
       let date_str := Datetime.strftime_day date_taken in
       Ok (dict_append date_str (fst pf, date_taken) files_by_date))
    media_files (Ok []).

(** One iteration of the inner loop (lines 419-444). *)
Definition rename_step (dry_run : bool) (date_str : string) (st : state)
    (e : nat * (path * datetime)) : state :=
  let i := fst e in
  let file_path := fst (snd e) in
  let new_name := new_name_of date_str i file_path in
  let new_path := child (parent file_path) new_name in
  if String.eqb (name file_path) new_name then
    say st file_path new_name AlreadyNamed
  else if path_exists new_path (disk st) then
    say st file_path new_name SkippedTargetExists
  else if dry_run then
    say st file_path new_name DryRun
  else
    match rename_path P file_path new_name (disk st) with
    | Some d' =>
        mk_state d' (total_renamed st + 1)
          (printed st ++ [mk_event file_path new_name Renamed])%list
    | None => say st file_path new_name RenameError
    end.

(** One iteration of the outer loop (lines 413-444): the sort comes
    first, so a group whose sort raises leaves the state as it was. *)
Definition rename_group (dry_run : bool) (st : state)
    (g : string * list (path * datetime)) : result state :=
  let date_str := fst g in
  file_list <- sort_by_time (snd g) ;;
  Ok (fold_left (rename_step dry_run date_str) (Py.enumerate 1 file_list) st).

(** The outer loop: an exception ends it; what the iterations before it
    did remains. *)
Fixpoint rename_groups (dry_run : bool)
    (groups : list (string * list (path * datetime))) (st : state)
    : state * option exn :=
  match groups with
  | [] => (st, None)
  | g :: rest =>
      match rename_group dry_run st g with
      | Ok st' => rename_groups dry_run rest st'
      | Raise e => (st, Some e)
      end
  end.

(** What a call leaves behind: the directory ([None] when the path does
    not exist), the returned pair, the lines printed per file and the
    exception that ended the call, if any.  A call that raises returns
    nothing: [total_files] is then 0, and [renamed] is what
    [total_renamed] was when the exception occurred. *)
Record run := mk_run {
  after : option dir;
  total_files : nat;
  renamed : nat;
  report : list event;
  raised : option exn }.

(** [directory] is what [directory_path] denotes, [None] when nothing
    exists there. *)
Definition rename_media_in_directory (directory : option dir)
    (dry_run recursive : bool) : run :=
  match directory with
  | None => mk_run None 0 0 [] None
  | Some d =>
      let media_files := find_media_files d false in
      match media_files with
      | [] => mk_run (Some d) 0 0 [] None
      | _ :: _ =>
          match group_files media_files with
          | Raise e => mk_run (Some d) 0 0 [] (Some e)
          | Ok files_by_date =>
              match rename_groups dry_run (sorted_items files_by_date)
                      (mk_state d 0 []) with
              | (st, Some e) =>
                  mk_run (Some (disk st)) 0 (total_renamed st) (printed st)
                    (Some e)
              | (st, None) =>
                  let total_files :=
                    fold_left (fun n g => n + List.length (snd g))
                      files_by_date 0 in
                  mk_run (Some (disk st)) total_files (total_renamed st)
                    (printed st) None
              end
          end
      end
  end.

End Run.

End Renamer.

(* ===================================================================== *)
(** ** A reference platform *)
(* ===================================================================== *)

(** The statements below hold for every [platform].  To run the model on
    the scenarios of the repository's tests, [Reference.posix] is a
    platform whose parsers read fixed-width fields, whose clock is UTC and
    whose [rename] is always permitted. *)
Module Reference.

Import Extract.

Definition digit (c : ascii) : option nat :=
  let n := nat_of_ascii c in
  if ((48 <=? n) && (n <=? 57))%nat then Some (n - 48) else None.

(** Exactly [k] digits. *)
Fixpoint number (k acc : nat) (s : string) : option (nat * string) :=
  match k with
  | O => Some (acc, s)
  | S k' =>
      match s with
      | String c r =>
          match digit c with
          | Some d => number k' (10 * acc + d) r
          | None => None
          end
      | EmptyString => None
      end
  end.

Definition expect (c : ascii) (s : string) : option string :=
  match s with
  | String a r => if Ascii.eqb a c then Some r else None
  | EmptyString => None
  end.

Definition and_then {A B} (o : option A) (k : A -> option B) : option B :=
  match o with
  | Some a => k a
  | None => None
  end.

(** [YYYY<d>MM<d>DD<t>HH:MM:SS] at the head of a text, and what follows *)
Definition parse_fields (d t : ascii) (s : string)
    : option (Datetime.naive * string) :=
  and_then (number 4 0 s) (fun '(y, s) =>
  and_then (expect d s) (fun s =>
  and_then (number 2 0 s) (fun '(mo, s) =>
  and_then (expect d s) (fun s =>
  and_then (number 2 0 s) (fun '(da, s) =>
  and_then (expect t s) (fun s =>
  and_then (number 2 0 s) (fun '(h, s) =>
  and_then (expect ":" s) (fun s =>
  and_then (number 2 0 s) (fun '(mi, s) =>
  and_then (expect ":" s) (fun s =>
  and_then (number 2 0 s) (fun '(se, s) =>
  if ((1 <=? y) && (1 <=? mo) && (mo <=? 12) && (1 <=? da) &&
      (da <=? 31) && (h <? 24) && (mi <? 60) && (se <? 60))%nat
  then Some (Datetime.mk_naive y mo da h mi se 0, s)
  else None))))))))))).

(** The whole text is a stamp. *)
Definition parse_stamp (d t : ascii) (s : string) : option datetime :=
  match parse_fields d t s with
  | Some (n, EmptyString) => Some (Datetime.of_naive n)
  | _ => None
  end.

Definition ref_strptime (s fmt : string) : option datetime :=
  if String.eqb fmt "%Y:%m:%d %H:%M:%S" then parse_stamp ":" " " s
  else if String.eqb fmt "%Y-%m-%d %H:%M:%S" then parse_stamp "-" " " s
  else None.

(** [+HH:MM] or [-HH:MM], in microseconds *)
Definition parse_offset (s : string) : option Z :=
  match s with
  | String sign s =>
      and_then (number 2 0 s) (fun '(h, s) =>
      and_then (expect ":" s) (fun s =>
      and_then (number 2 0 s) (fun '(mi, s) =>
      match s with
      | EmptyString =>
          let size := (Z.of_nat (h * 3600 + mi * 60) * 1000000)%Z in
          if negb ((h <? 24) && (mi <? 60))%nat then None
          else if Ascii.eqb sign "+" then Some size
          else if Ascii.eqb sign "-" then Some (- size)%Z
          else None
      | _ => None
      end)))
  | EmptyString => None
  end.

(** A stamp, naive, or followed by a UTC offset, aware. *)
Definition ref_fromisoformat (s : string) : option datetime :=
  match parse_fields "-" "T" s with
  | Some (n, EmptyString) => Some (Datetime.of_naive n)
  | Some (n, rest) =>
      match parse_offset rest with
      | Some offset => Some (Datetime.mk n (Some offset))
      | None => None
      end
  | None => None
  end.

Definition ref_TAGS (tag_id : Z) : option string :=
  if Z.eqb tag_id 306 then Some "DateTime"
  else if Z.eqb tag_id 36867 then Some "DateTimeOriginal"
  else if Z.eqb tag_id 36868 then Some "DateTimeDigitized"
  else if Z.eqb tag_id 271 then Some "Make"
  else if Z.eqb tag_id 272 then Some "Model"
  else if Z.eqb tag_id 34665 then Some "ExifOffset"
  else None.

(** Seconds since the epoch to a UTC calendar date (proleptic Gregorian
    calendar, days counted in 400-year eras starting on 1 March). *)
Definition civil_of_seconds (t : Z) : Datetime.naive :=
  let days := (t / 86400)%Z in
  let secs := (t mod 86400)%Z in
  let z := (days + 719468)%Z in
  let era := (z / 146097)%Z in
  let doe := (z mod 146097)%Z in
  let yoe := ((doe - doe / 1460 + doe / 36524 - doe / 146096) / 365)%Z in
  let doy := (doe - (365 * yoe + yoe / 4 - yoe / 100))%Z in
  let mp := ((5 * doy + 2) / 153)%Z in
  let d := (doy - (153 * mp + 2) / 5 + 1)%Z in
  let m := (if (mp <? 10)%Z then mp + 3 else mp - 9)%Z in
  let y := (yoe + era * 400 + (if (m <=? 2)%Z then 1 else 0))%Z in
  Datetime.mk_naive (Z.to_nat y) (Z.to_nat m) (Z.to_nat d)
    (Z.to_nat (secs / 3600)) (Z.to_nat ((secs mod 3600) / 60))
    (Z.to_nat (secs mod 60)) 0.

(** The first and the last second of the years 1 to 9999. *)
Definition min_stamp : Z := (-62135596800)%Z.
Definition max_stamp : Z := 253402300799%Z.

(** [ValueError] for a stamp whose year is out of range (for stamps
    that the C library cannot convert at all, CPython raises
    [OverflowError] or [OSError] instead; nothing catches either). *)
Definition ref_fromtimestamp (t : Z) : result Datetime.naive :=
  if ((min_stamp <=? t) && (t <=? max_stamp))%Z
  then Ok (civil_of_seconds t)
  else Raise ValueError.

Definition posix : platform :=
  mk_platform ref_fromisoformat ref_strptime ref_TAGS true true
    ref_fromtimestamp (fun _ _ => true).

End Reference.

(* ===================================================================== *)
(** ** What the EXIF scan is expected to find *)
(* ===================================================================== *)

Module ExifSpec.

Import Extract.

Section Spec.
Variable P : platform.

(** Tag [tag_id] of directory [d] is one of the three date tags and its
    value reads as [dt] under the pattern [YYYY:MM:DD HH:MM:SS]. *)
Definition tag_yields (d : ifd) (tag_id : Z) (dt : datetime) : Prop :=
  is_date_tag P tag_id = true /\
  exists s, ifd_get d tag_id = Some (EStr s) /\
            strptime P s "%Y:%m:%d %H:%M:%S" = Some dt.

Definition tag_skipped (d : ifd) (tag_id : Z) : Prop :=
  forall dt, ~ tag_yields d tag_id dt.

(** [dt] comes from the first tag, in iteration order, that yields. *)
Definition first_hit (d : ifd) (dt : datetime) : Prop :=
  exists pre tag_id post,
    map fst d = (pre ++ tag_id :: post)%list /\
    Forall (tag_skipped d) pre /\
    tag_yields d tag_id dt.

Definition no_hit (d : ifd) : Prop := Forall (tag_skipped d) (map fst d).

End Spec.

End ExifSpec.

(* ===================================================================== *)
(** ** Scenarios *)
(* ===================================================================== *)

Module Scenario.

Import Extract Fs Renamer Reference.

(** 2023-01-15 10:30:00 and 2023-06-01 10:30:00, seconds since the epoch *)
Definition jan15 : Z := 1673778600.
Definition jun01 : Z := 1685615400.

(** A file without any metadata and with the given [stat] times. *)
Definition bare (bytes : string) (ctime mtime atime : Z) : fdata :=
  mk_fdata bytes NoExif (DngTags []) ProbeNotStarted ctime mtime atime.

(** An image whose primary directory holds [DateTimeOriginal]. *)
Definition photo (bytes taken : string) : fdata :=
  mk_fdata bytes
    (Exif [(271%Z, EStr "Apple"); (36867%Z, EStr taken)] NoGetIfd)
    (DngTags []) ProbeNotStarted jun01 jun01 jun01.

(** A probe response with one container-level tag. *)
Definition format_probe (field value : string) : probe :=
  ProbeExit 0
    (Some (JObj [("format", JObj [("tags", JObj [(field, JStr value)])])])).

(** A probe response with one tag on its only stream. *)
Definition stream_probe (field value : string) : probe :=
  ProbeExit 0
    (Some (JObj [("streams",
                  JArr [JObj [("tags", JObj [(field, JStr value)])]])])).

Definition video (bytes : string) (p : probe) : fdata :=
  mk_fdata bytes CannotOpen (DngTags []) p jun01 jun01 jun01.

(** A copied file: created after it was last modified. *)
Definition copied_png : fdata := bare "png" jun01 jan15 jun01.

(** [DateTime] is listed before [DateTimeOriginal]. *)
Definition two_dates : image :=
  Exif [(306%Z, EStr "2020:05:05 05:05:05");
        (36867%Z, EStr "2019:01:01 01:01:01")] NoGetIfd.

(** A malformed [DateTimeOriginal], a good [DateTime] in the sub-directory. *)
Definition date_in_sub_ifd : image :=
  Exif [(36867%Z, EStr "0000:00:00 00:00:00"); (271%Z, EStr "Nokia")]
    (SubIfd [(306%Z, EStr "2012:03:04 05:06:07")]).

(** A directory without media files. *)
Definition notes_only : dir := [("notes.txt", File (bare "hello" jan15 jan15 jan15))].

(** One photo with an upper-case extension. *)
Definition upper_case_dir : dir :=
  [("IMG_0353.JPG", File (photo "jpeg" "2017:01:19 12:00:00"))].

(** Two photos and a video of one day, listed out of order, next to a
    sub-directory and a text file. *)
Definition mixed_dir : dir :=
  [("img1.jpg", File (photo "a" "2023:01:15 08:00:00"));
   ("img2.jpg", File (photo "c" "2023:01:15 10:00:00"));
   ("vid1.mov",
    File (video "b" (format_probe "creation_time"
                       "2023-01-15T09:00:00.000000Z")));
   ("2024", Dir [("IMG_003.jpg", File (bare "x" jan15 jan15 jan15))]);
   ("notes.txt", File (bare "hello" jan15 jan15 jan15))].

(** A new photo of 2023-01-15, alone in its date group, and a file that
    already bears the name the photo is due; that file has no metadata
    and dates from 2023-06-01. *)
Definition collide_dir : dir :=
  [("IMG_001.jpg", File (photo "new" "2023:01:15 10:00:00"));
   ("2023-01-15 - Phone Photos (1).jpg",
    File (bare "existing content" jun01 jun01 jun01))].

(** The later of two photos of one day already bears the first name. *)
Definition late_first_dir : dir :=
  [("IMG.jpg", File (photo "early" "2023:01:15 08:00:00"));
   ("2023-01-15 - Phone Photos (1).jpg",
    File (photo "late" "2023:01:15 09:00:00"))].

(** The arrangement of the repository's test of the collision: the file
    that bears the first name is of the same day and is listed first. *)
Definition same_day_dir : dir :=
  [("2023-01-15 - Phone Photos (1).jpg",
    File (photo "existing content" "2023:01:15 10:00:00"));
   ("IMG_001.jpg", File (photo "new" "2023:01:15 10:00:00"))].

(** The first second after the year 9999, and a picture without metadata
    whose file times are that late. *)
Definition beyond : Z := 253402300800.

Definition beyond_dir : dir :=
  [("scan.png", File (bare "png" beyond beyond beyond))].


(** Two videos of one day in different zones: the later local time is
    the earlier instant. *)
Definition two_zones_dir : dir :=
  [("VID_1.mov",
    File (video "a" (format_probe "creation_time"
                       "2023-01-15T10:00:00+02:00")));
   ("VID_2.mov",
    File (video "b" (format_probe "creation_time"
                       "2023-01-15T12:00:00+09:00")))].

End Scenario.

(* ===================================================================== *)
(** ** The renaming loops as one sequence of steps *)
(* ===================================================================== *)

Module Plan.

Import Extract Fs Renamer.

(** One pass of the inner loop: the day key, the sequence number, the
    path and its timestamp. *)
Definition entry : Type := string * (nat * (path * datetime)).

Definition entry_day (s : entry) : string := fst s.
Definition entry_seq (s : entry) : nat := fst (snd s).
Definition entry_path (s : entry) : path := fst (snd (snd s)).
Definition entry_target (s : entry) : string :=
  new_name_of (entry_day s) (entry_seq s) (entry_path s).

(** The order of the timestamps that Python compares. *)
Definition earlier (a b : path * datetime) : bool :=
  Datetime.ltb (snd a) (snd b).

(** The entries of one date group, numbered from 1 in sorted order. *)
Definition numbered (g : string * list (path * datetime)) : list entry :=
  map (fun e => (fst g, e)) (Py.enumerate 1 (Py.sort earlier (snd g))).

(** The sort of the group's file list does not raise. *)
Definition sortable (g : string * list (path * datetime)) : bool :=
  match sort_by_time (snd g) with
  | Ok _ => true
  | Raise _ => false
  end.

(** The groups up to the first one whose sort raises, and what it raises. *)
Fixpoint processed (gs : list (string * list (path * datetime)))
    : list (string * list (path * datetime)) :=
  match gs with
  | [] => []
  | g :: rest => if sortable g then g :: processed rest else []
  end.

Fixpoint sort_failure (gs : list (string * list (path * datetime)))
    : option exn :=
  match gs with
  | [] => None
  | g :: rest =>
      match sort_by_time (snd g) with
      | Ok _ => sort_failure rest
      | Raise e => Some e
      end
  end.

(** The date groups a list of timed files falls into. *)
Definition grouped (xs : list (path * datetime))
    : list (string * list (path * datetime)) :=
  fold_left (fun m x => dict_append (Datetime.strftime_day (snd x)) x m)
    xs [].

Section Plan.
Variable P : platform.

(** The first loop: the media files of a directory with their resolved
    timestamps, in discovery order, unless a resolution raises. *)
Fixpoint dated_files (media_files : list (path * fdata))
    : result (list (path * datetime)) :=
  match media_files with
  | [] => Ok []
  | pf :: rest =>
      date_taken <- resolve_date P (name (fst pf)) (snd pf) ;;
      xs <- dated_files rest ;;
      Ok ((fst pf, date_taken) :: xs)
  end.

Definition dated (d : dir) : result (list (path * datetime)) :=
  dated_files (find_media_files d false).

(** The timed files the second loop works with: none when the first
    loop raised. *)
Definition resolved (d : dir) : list (path * datetime) :=
  match dated d with
  | Ok xs => xs
  | Raise _ => []
  end.

(** The date groups of the directory in the order of the outer loop. *)
Definition day_groups (d : dir) : list (string * list (path * datetime)) :=
  sorted_items (grouped (resolved d)).

(** The date groups the outer loop processes: all of them, unless a
    sort raises. *)
Definition groups (d : dir) : list (string * list (path * datetime)) :=
  processed (day_groups d).

(** All passes of the inner loop, in execution order. *)
Definition plan (d : dir) : list entry := flat_map numbered (groups d).

Definition step (dry_run : bool) (st : state) (s : entry) : state :=
  rename_step P dry_run (fst s) st (snd s).

(** The exception that ends a call on the directory, if any. *)
Definition failure (d : dir) : option exn :=
  match dated d with
  | Raise e => Some e
  | Ok _ => sort_failure (day_groups d)
  end.

End Plan.


(** What a printed line says, and what a step sets out to do: the path
    and the new name. *)
Definition line (e : event) : path * string := (ev_path e, ev_new_name e).
Definition intent (s : entry) : path * string :=
  (entry_path s, entry_target s).

(** Membership tests used to state how a group is formed and ordered. *)
Definition on_day (date_str : string) (x : path * datetime) : bool :=
  String.eqb (Datetime.strftime_day (snd x)) date_str.



Definition label (p : path) : string :=
  if mem (Py.lower (Py.suffix (name p))) video_suffixes
  then "Videos" else "Photos".

(** The entries of a directory that are nodes of the given kind. *)
Definition is_dir (e : string * node) : bool :=
  match snd e with Dir _ => true | File _ => false end.

(** Renaming the entry called [src] to [dst], in place. *)
Definition rename_in_place (src dst : string) (d : dir) : dir :=
  map (fun e => if String.eqb (fst e) src then (dst, snd e) else e) d.

End Plan.

(* ===================================================================== *)
(** ** Renamings of a directory *)
(* ===================================================================== *)

Module Renaming.

Import Extract Fs Renamer Plan.

(** A renaming lists old names with their new names; other names stay. *)
Definition renaming := list (string * string).

Definition apply_ren (ren : renaming) (n : string) : string :=
  match assoc n ren with
  | Some m => m
  | None => n
  end.

(** All entries renamed at once, each in its place. *)
Definition rename_all (ren : renaming) (d : dir) : dir :=
  map (fun e => (apply_ren ren (fst e), snd e)) d.

(** The renaming that gives every file of the steps [l] its target. *)
Definition ren_of (l : list entry) : renaming :=
  map (fun s => (name (entry_path s), entry_target s)) l.

(** The same renaming on discovered files, timed files and steps. *)
Definition move_file (ren : renaming) (pf : path * fdata) : path * fdata :=
  (map (apply_ren ren) (fst pf), snd pf).

Definition move_item (ren : renaming) (x : path * datetime)
    : path * datetime :=
  (map (apply_ren ren) (fst x), snd x).

Definition move_group (ren : renaming) (g : string * list (path * datetime))
    : string * list (path * datetime) :=
  (fst g, map (move_item ren) (snd g)).

Definition move_entry (ren : renaming) (s : entry) : entry :=
  (fst s, (fst (snd s), move_item ren (snd (snd s)))).

(** A run went through: nothing was skipped on a collision and no rename
    failed. *)
Definition went_through (e : event) : Prop :=
  ev_outcome e <> SkippedTargetExists /\ ev_outcome e <> RenameError.

Definition went_throughb (e : event) : bool :=
  match ev_outcome e with
  | SkippedTargetExists | RenameError => false
  | _ => true
  end.

End Renaming.

(* ===================================================================== *)
(** ** Notions for the extractors *)
(* ===================================================================== *)

Module ExtractSpec.

Import Extract.

(** A JSON document whose top level is an object. *)
Definition is_object (v : json) : bool :=
  match v with JObj _ => true | _ => false end.

(** Every character of a text passes a test. *)
Fixpoint string_forall (ok : ascii -> bool) (s : string) : bool :=
  match s with
  | EmptyString => true
  | String c r => ok c && string_forall ok r
  end.

(** Neither a dot, nor a [Z], nor a plus sign. *)
Definition plain_char (c : ascii) : bool :=
  negb (Ascii.eqb c ".") && negb (Ascii.eqb c "Z") && negb (Ascii.eqb c "+").

(** The probe ran, exited with 0 and printed a JSON object. *)
Definition well_formed_response (p : probe) : bool :=
  match p with
  | ProbeExit returncode (Some metadata) =>
      Z.eqb returncode 0 && is_object metadata
  | _ => false
  end.

(** What is left of an ISO text when it is handed to [fromisoformat]. *)
Definition iso_text (v : string) : string :=
  let s := Py.replace_char "Z"%char "+00:00" v in
  if Py.is_substring "." s then Py.split_head "."%char s
  else Py.remove_all "+00:00" s.

Section Spec.
Variable P : platform.

(** The DNG tag [tag_name] is present and its text reads as [dt]. *)
Definition dng_yields (tags : list (string * string)) (tag_name : string)
    (dt : datetime) : Prop :=
  exists s, assoc tag_name tags = Some s /\
            strptime P s "%Y:%m:%d %H:%M:%S" = Some dt.

Definition dng_skipped (tags : list (string * string)) (tag_name : string)
    : Prop :=
  forall dt, ~ dng_yields tags tag_name dt.

(** A tag directory without the tags that are not date tags. *)
Definition date_tags_only (d : ifd) : ifd :=
  filter (fun e => is_date_tag P (fst e)) d.

Definition sub_date_tags_only (s : sub_ifd) : sub_ifd :=
  match s with
  | SubIfd d => SubIfd (date_tags_only d)
  | other => other
  end.

End Spec.

End ExtractSpec.

(* ===================================================================== *)
(** ** Further scenarios *)
(* ===================================================================== *)

Module Cases.

Import Extract Fs Renamer Reference Scenario.

(** The reference platform without the optional decoders. *)
Definition posix_without_decoders : platform :=
  mk_platform ref_fromisoformat ref_strptime ref_TAGS false false
    ref_fromtimestamp (fun _ _ => true).

(** A HEIC picture with EXIF data and file times of 2023-06-01. *)
Definition heic_shot : fdata := photo "heic" "2023:01:15 08:00:00".

(** A raw picture whose original date is malformed. *)
Definition raw_tags : list (string * string) :=
  [("Image DateTime", "2021:02:03 04:05:06");
   ("EXIF DateTimeOriginal", "0000:00:00 00:00:00");
   ("Image Make", "Canon")].

(** Read some time after it was written: only the access time is late. *)
Definition read_later : fdata := bare "x" jan15 jan15 jun01.

End Cases.

(* ===================================================================== *)
(** ** Notions for whole trees and for the report *)
(* ===================================================================== *)

Module Tree.

Import Extract Fs Renamer.

(** The names are distinct in every directory of the tree. *)
Fixpoint well_formed (x : node) : bool :=
  match x with
  | File _ => true
  | Dir es =>
      distinct (map fst es) &&
      (fix all (l : list (string * node)) : bool :=
         match l with
         | [] => true
         | (_, y) :: r => well_formed y && all r
         end) es
  end.

(** The entries below the sub-directories of a directory, as [rglob]
    lists them after the direct children. *)
Definition nested (d : dir) : list (path * node) :=
  flat_map (fun e => map (fun pe => (fst e :: fst pe, snd pe))
                       (rglob_node (snd e))) d.

(** The number of lines that report a rename. *)
Definition count_renamed (l : list event) : nat :=
  List.length (filter (fun e => match ev_outcome e with
                                | Renamed => true
                                | _ => false
                                end) l).

(** An entry of a directory that the discovery passes over. *)
Definition not_media (e : string * node) : bool :=
  match media_file ([fst e], snd e) with
  | [] => true
  | _ => false
  end.

End Tree.

(* ===================================================================== *)
(** ** Notions for names *)
(* ===================================================================== *)

Module Names.

Import Extract Fs Renamer Plan.

Definition is_digit (c : ascii) : bool :=
  let n := nat_of_ascii c in ((48 <=? n) && (n <=? 57))%nat.

(** The characters of a day key: digits and the hyphen. *)
Definition day_char (c : ascii) : bool := is_digit c || Ascii.eqb c "-".

Definition other_than (c : ascii) (a : ascii) : bool := negb (Ascii.eqb a c).

(** Reading back the decimal text of a number. *)
Definition nat_of_str (s : string) : option nat :=
  option_map Nat.of_uint (NilZero.uint_of_string s).

(** The day and the number of a step. *)
Definition slot (s : entry) : string * nat := (entry_day s, entry_seq s).

(** Nothing stands in the way of a step in directory [d]: the operating
    system permits the rename, and the target is the name the file has or
    a name that no entry of [d] bears. *)
Definition unobstructed (P : platform) (d : dir) (s : entry) : bool :=
  rename_permitted P (name (entry_path s)) (entry_target s) &&
  (String.eqb (name (entry_path s)) (entry_target s) ||
   negb (existsb (String.eqb (entry_target s)) (map fst d))).

(** A line that reports a rename or a file already in place. *)
Definition settled (e : event) : Prop :=
  ev_outcome e = Renamed \/ ev_outcome e = AlreadyNamed.

(** The line of a dry run read as the line of a real run: what was
    announced is carried out. *)
Definition confirm (e : event) : event :=
  match ev_outcome e with
  | DryRun => mk_event (ev_path e) (ev_new_name e) Renamed
  | _ => e
  end.

(** The line to expect for a step that nothing obstructs. *)
Definition foreseen (dry_run : bool) (s : entry) : event :=
  mk_event (entry_path s) (entry_target s)
    (if String.eqb (name (entry_path s)) (entry_target s) then AlreadyNamed
     else if dry_run then DryRun else Renamed).

End Names.

(* ===================================================================== *)
(** ** [rename_media] *)
(* ===================================================================== *)

Module Driver.

Import Extract Fs Renamer.

(** [Path.__lt__]: the parts of two paths are compared like tuples. *)
Fixpoint path_ltb (a b : path) : bool :=
  match a, b with
  | [], [] => false
  | [], _ :: _ => true
  | _ :: _, [] => false
  | x :: a', y :: b' =>
      if String.eqb x y then path_ltb a' b' else String.ltb x y
  end.

(** [Path.__eq__] *)
Definition path_eqb (a b : path) : bool :=
  if list_eq_dec String.string_dec a b then true else false.

(** [set.add]: an element is added unless it is there. *)
Definition set_add (p : path) (s : list path) : list path :=
  if existsb (fun q => path_eqb q p) s then s else (s ++ [p])%list.

(** What a path below the root denotes when it is a directory.  The paths
    used are parents of discovered files; a directory is never renamed. *)
Definition directory_at (p : path) (tree : dir) : option dir :=
  match lookup_path p tree with
  | Some (Dir sub) => Some sub
  | _ => None
  end.

(** The directory at [p] replaced by [sub]. *)
Definition put_directory (p : path) (sub : dir) (tree : dir) : dir :=
  match update_at p (fun _ => Some sub) tree with
  | Some tree' => tree'
  | None => tree
  end.

(** What the loop over the directories threads: the tree on disk, the two
    totals, the lines printed per directory, and the exception that a
    call has raised. *)
Record progress := mk_progress {
  tree : dir;
  total_files_all : nat;
  total_renamed_all : nat;
  reports : list (path * list event);
  failed : option exn }.

Section Driver.
Variable P : platform.

(** One iteration of [for directory in sorted(directories_with_media)]
    (lines 490-493).  When the call raises, the totals are not updated. *)
Definition process_directory (dry_run : bool) (pr : progress)
    (directory : path) : progress :=
  let r := rename_media_in_directory P (directory_at directory (tree pr))
             dry_run false in
  mk_progress
    (match after r with
     | Some sub => put_directory directory sub (tree pr)
     | None => tree pr
     end)
    (match raised r with
     | None => total_files_all pr + total_files r
     | Some _ => total_files_all pr
     end)
    (match raised r with
     | None => total_renamed_all pr + renamed r
     | Some _ => total_renamed_all pr
     end)
    (reports pr ++ [(directory, report r)])%list
    (raised r).

(** The loop: an exception ends it. *)
Fixpoint process_directories (dry_run : bool) (directories : list path)
    (pr : progress) : progress :=
  match directories with
  | [] => pr
  | directory :: rest =>
      let pr' := process_directory dry_run pr directory in
      match failed pr' with
      | Some _ => pr'
      | None => process_directories dry_run rest pr'
      end
  end.

(** Lines 474-478. *)
Definition directories_with_media (root : dir) : list path :=
  fold_left (fun s pf => set_add (parent (fst pf)) s)
    (find_media_files root true) [].

(** What a call leaves behind: the tree ([None] when the path does not
    exist), the totals it prints when it completes, the lines printed per
    directory, and the exception that ended the call, if any. *)
Record result := mk_result {
  tree_after : option dir;
  files_all : nat;
  renamed_all : nat;
  all_reports : list (path * list event);
  raised_all : option exn }.

Definition rename_media (root : option dir) (dry_run recursive : bool)
    : result :=
  match root with
  | None => mk_result None 0 0 [] None
  | Some root_directory =>
      if recursive then
        match directories_with_media root_directory with
        | [] => mk_result (Some root_directory) 0 0 [] None
        | dirs =>
            let pr :=
              process_directories dry_run (Py.sort path_ltb dirs)
                (mk_progress root_directory 0 0 [] None) in
            mk_result (Some (tree pr)) (total_files_all pr)
              (total_renamed_all pr) (reports pr) (failed pr)
        end
      else
        let r := rename_media_in_directory P (Some root_directory)
                   dry_run false in
        mk_result (after r) (total_files r) (renamed r) [([], report r)]
          (raised r)
  end.

End Driver.

(** What the files of a tree hold, whatever their names. *)
Fixpoint files_of (x : node) : list (string * image * dng * probe) :=
  match x with
  | File f => [payload f]
  | Dir es =>
      (fix all (l : list (string * node))
         : list (string * image * dng * probe) :=
         match l with
         | [] => []
         | (_, y) :: r => (files_of y ++ all r)%list
         end) es
  end.

(** A tree without the names of its entries. *)
Fixpoint erase (x : node) : node :=
  match x with
  | File f => File f
  | Dir es =>
      Dir ((fix all (l : list (string * node)) : list (string * node) :=
              match l with
              | [] => []
              | (_, y) :: r => (EmptyString, erase y) :: all r
              end) es)
  end.

End Driver.

Module DriverCases.

Import Extract Fs Renamer Reference Scenario Driver.

(** Two directories below a root that holds no file itself; a photo of
    the same day in each. *)
Definition nested_tree : dir :=
  [("2023",
    Dir [("January",
          Dir [("IMG_001.jpg", File (photo "a" "2023:01:15 10:30:00"));
               ("VID_001.mov",
                File (video "b" (format_probe "creation_time"
                                   "2023-01-15T09:00:00.000000Z")))]);
         ("IMG_002.jpg", File (photo "c" "2023:01:15 10:30:00"))]);
   ("readme.txt", File (bare "r" jan15 jan15 jan15))].

End DriverCases.

(* ===================================================================== *)
(** * Properties *)
(* ===================================================================== *)

(** ** Strings and suffixes *)

Section StringFacts.

Lemma string_length_app (a b : string) :
  String.length (a ++ b) = String.length a + String.length b.
Proof. induction a as [|c a IH]; simpl; [reflexivity | now rewrite IH]. Qed.

Lemma drop_app_length (a b : string) :
  Py.drop (String.length a) (a ++ b) = b.
Proof. induction a as [|c a IH]; simpl; auto. Qed.

Lemma rfind_app (c : ascii) (a b : string) :
  Py.rfind c (a ++ b) =
  match Py.rfind c b with
  | Some j => Some (String.length a + j)
  | None => Py.rfind c a
  end.
Proof.
  induction a as [|x a IH]; simpl.
  - now destruct (Py.rfind c b).
  - rewrite IH. now destruct (Py.rfind c b).
Qed.

Lemma suffix_app_extension (pre ext : string) :
  pre <> "" -> Py.is_extension ext -> Py.suffix (pre ++ ext) = ext.
Proof.
  intros Hpre [Hdot Hlen]. unfold Py.suffix.
  rewrite rfind_app, Hdot, Nat.add_0_r, string_length_app.
  assert (Hp : 0 < String.length pre) by (destruct pre; simpl; [easy | lia]).
  assert (H1 : (0 <? String.length pre)%nat = true) by now apply Nat.ltb_lt.
  assert (H2 : (String.length pre <? String.length pre + String.length ext - 1)%nat
               = true) by (apply Nat.ltb_lt; lia).
  rewrite H1, H2. simpl. apply drop_app_length.
Qed.

Lemma media_extension_is_extension (ext : string) :
  Extract.mem ext Renamer.media_extensions = true -> Py.is_extension ext.
Proof.
  unfold Extract.mem, Renamer.media_extensions. simpl.
  repeat match goal with
         | |- context [String.eqb ext ?s] =>
             destruct (String.eqb_spec ext s) as [->|_];
             [intros _; split; [reflexivity | simpl; lia] |]
         end.
  discriminate.
Qed.

Lemma lower_ascii_idem (c : ascii) :
  Py.lower_ascii (Py.lower_ascii c) = Py.lower_ascii c.
Proof.
  destruct c as [[] [] [] [] [] [] [] []]; reflexivity.
Qed.

Lemma lower_idem (s : string) : Py.lower (Py.lower s) = Py.lower s.
Proof.
  induction s as [|c s IH]; simpl; [reflexivity|].
  now rewrite lower_ascii_idem, IH.
Qed.

Lemma append_non_empty_l (a b : string) : a <> "" -> (a ++ b) <> "".
Proof. destruct a; simpl; [easy | discriminate]. Qed.

End StringFacts.

(** ** The order on [datetime] *)

Section DatetimeFacts.

Import Exc Datetime.

Lemma lex_compare_refl (a : list Z) : lex_compare a a = Eq.
Proof.
  induction a as [|x a IH]; simpl; [reflexivity|].
  now rewrite Z.compare_refl.
Qed.

Lemma lex_compare_eq (a b : list Z) : lex_compare a b = Eq -> a = b.
Proof.
  revert b. induction a as [|x a IH]; intros [|y b]; simpl; try easy.
  destruct (Z.compare_spec x y) as [->| |]; try easy.
  intros H. now rewrite (IH _ H).
Qed.

Lemma lex_compare_antisym (a b : list Z) :
  lex_compare b a = CompOpp (lex_compare a b).
Proof.
  revert b. induction a as [|x a IH]; intros [|y b]; simpl; try easy.
  rewrite (Z.compare_antisym x y).
  destruct (Z.compare x y); simpl; auto.
Qed.

Lemma lex_compare_lt_trans (a b c : list Z) :
  lex_compare a b = Lt -> lex_compare b c = Lt -> lex_compare a c = Lt.
Proof.
  revert b c. induction a as [|x a IH]; intros [|y b] [|z c]; simpl; try easy.
  destruct (Z.compare_spec x y) as [->|Hxy|Hxy]; try easy.
  - destruct (Z.compare_spec y z) as [->|Hyz|Hyz]; try easy. apply IH.
  - intros _. destruct (Z.compare_spec y z) as [->|Hyz|Hyz]; try easy.
    + intros _. destruct (Z.compare_spec x z); try easy; lia.
    + intros _. destruct (Z.compare_spec x z); try easy; lia.
Qed.

(** Two values compare equal when they have the same key: the same
    fields for naive values, the same instant for aware ones. *)
Lemma compare_eq (a b : datetime) : compare a b = Eq -> key a = key b.
Proof. unfold compare. apply lex_compare_eq. Qed.

Lemma ltb_irrefl (a : datetime) : ltb a a = false.
Proof. unfold ltb, compare. now rewrite lex_compare_refl. Qed.

Lemma ltb_asym (a b : datetime) : ltb a b = true -> ltb b a = false.
Proof.
  unfold ltb, compare. rewrite (lex_compare_antisym (key a) (key b)).
  now destruct (lex_compare (key a) (key b)).
Qed.

Lemma ltb_trans (a b c : datetime) :
  ltb a b = true -> ltb b c = true -> ltb a c = true.
Proof.
  unfold ltb, compare. intros H1 H2.
  destruct (lex_compare (key a) (key b)) eqn:Hab; try discriminate.
  destruct (lex_compare (key b) (key c)) eqn:Hbc; try discriminate.
  now rewrite (lex_compare_lt_trans _ _ _ Hab Hbc).
Qed.

(** Trichotomy: when neither is before the other they have one key. *)
Lemma ltb_total (a b : datetime) :
  ltb a b = false -> ltb b a = false -> key a = key b.
Proof.
  unfold ltb. intros H1 H2. apply compare_eq.
  unfold compare in *. rewrite (lex_compare_antisym (key a) (key b)) in H2.
  now destruct (lex_compare (key a) (key b)).
Qed.

(** [a <= b], that is [not (b < a)], is transitive. *)
Lemma leb_trans (a b c : datetime) :
  ltb b a = false -> ltb c b = false -> ltb c a = false.
Proof.
  intros H1 H2. destruct (ltb c a) eqn:Hca; [|reflexivity].
  destruct (ltb a b) eqn:Hab.
  - rewrite (ltb_trans _ _ _ Hca Hab) in H2. discriminate.
  - pose proof (ltb_total _ _ Hab H1) as Hk.
    unfold ltb, compare in *. rewrite Hk in Hca. congruence.
Qed.

Lemma eqb_eq (a b : datetime) : eqb a b = true <-> key a = key b.
Proof.
  unfold eqb. split.
  - intros H. apply compare_eq. now destruct (compare a b).
  - intros H. unfold compare. now rewrite H, lex_compare_refl.
Qed.

Lemma fields_injective (m n : naive) : fields m = fields n -> m = n.
Proof.
  destruct m, n. unfold fields. simpl. intros H.
  injection H as H1 H2 H3 H4 H5 H6 H7.
  apply Nat2Z.inj in H1, H2, H3, H4, H5, H6, H7. now subst.
Qed.

(** Naive values with one key are the same. *)
Lemma key_of_naive (m n : naive) :
  key (of_naive m) = key (of_naive n) -> m = n.
Proof.
  unfold key, of_naive. cbn [utcoffset civil]. intros H.
  apply fields_injective. congruence.
Qed.

(** [<] raises exactly on a naive and an aware value. *)
Lemma lt_comparable (a b : datetime) :
  comparable a b = true -> lt a b = Ok (ltb a b).
Proof. unfold lt. now intros ->. Qed.

Lemma lt_incomparable (a b : datetime) :
  comparable a b = false -> lt a b = Raise TypeError.
Proof. unfold lt. now intros ->. Qed.

Lemma lt_Ok (a b : datetime) (r : bool) :
  lt a b = Ok r -> comparable a b = true /\ ltb a b = r.
Proof.
  unfold lt. destruct (comparable a b); [|discriminate].
  now intros [= <-].
Qed.




Lemma min3_cases (a b c : datetime) :
  min3 a b c = a \/ min3 a b c = b \/ min3 a b c = c.
Proof.
  unfold min3. destruct (ltb b a);
    match goal with |- context [if ?x then _ else _] => destruct x end; auto.
Qed.

Lemma min3_lower_bound (a b c : datetime) :
  ltb a (min3 a b c) = false /\
  ltb b (min3 a b c) = false /\
  ltb c (min3 a b c) = false.
Proof.
  unfold min3. destruct (ltb b a) eqn:Hba.
  - destruct (ltb c b) eqn:Hcb.
    + repeat split.
      * apply ltb_asym. now apply ltb_trans with b.
      * now apply ltb_asym.
      * apply ltb_irrefl.
    + repeat split; auto using ltb_asym, ltb_irrefl.
  - destruct (ltb c a) eqn:Hca.
    + repeat split; auto using ltb_asym, ltb_irrefl.
      apply leb_trans with a; auto using ltb_asym.
    + repeat split; auto using ltb_irrefl.
Qed.

End DatetimeFacts.

(** ** The stable sort and [enumerate] *)

Section SortFacts.

Variable A : Type.
Variable lt : A -> A -> bool.

Lemma insert_perm (x : A) (l : list A) :
  Permutation (Py.insert lt x l) (x :: l).
Proof.
  induction l as [|y r IH]; simpl; [reflexivity|].
  destruct (lt y x); [|reflexivity].
  rewrite IH. apply perm_swap.
Qed.

Lemma sort_perm (l : list A) : Permutation (Py.sort lt l) l.
Proof.
  induction l as [|x r IH]; simpl; [reflexivity|].
  rewrite insert_perm. now constructor.
Qed.

Lemma sort_In (l : list A) (x : A) : In x (Py.sort lt l) <-> In x l.
Proof.
  split; apply Permutation_in; [|symmetry]; apply sort_perm.
Qed.

Lemma sort_length (l : list A) : List.length (Py.sort lt l) = List.length l.
Proof. apply Permutation_length, sort_perm. Qed.

Hypothesis lt_asym : forall a b, lt a b = true -> lt b a = false.
Hypothesis le_trans :
  forall a b c, lt b a = false -> lt c b = false -> lt c a = false.

Lemma insert_sorted (x : A) (l : list A) :
  StronglySorted (Py.not_after lt) l -> StronglySorted (Py.not_after lt) (Py.insert lt x l).
Proof.
  induction 1 as [|y r Hr IH Hy]; simpl.
  - repeat constructor.
  - destruct (lt y x) eqn:Hyx.
    + constructor; [exact IH|].
      rewrite Forall_forall in *. intros z Hz.
      apply (Permutation_in _ (insert_perm x r)) in Hz.
      destruct Hz as [<-|Hz]; [now apply lt_asym | now apply Hy].
    + constructor; [now constructor|].
      constructor; [exact Hyx|].
      rewrite Forall_forall in *. intros z Hz.
      unfold Py.not_after. apply le_trans with y; [exact Hyx | now apply Hy].
Qed.

Lemma sort_sorted (l : list A) : StronglySorted (Py.not_after lt) (Py.sort lt l).
Proof.
  induction l as [|x r IH]; simpl; [constructor | now apply insert_sorted].
Qed.

End SortFacts.

Section SortStable.

Variable A : Type.
Variable lt : A -> A -> bool.



Variable B : Type.
Variable lt' : B -> B -> bool.

Lemma insert_map (f : A -> B) (x : A) (l : list A) :
  (forall a b, lt' (f a) (f b) = lt a b) ->
  Py.insert lt' (f x) (map f l) = map f (Py.insert lt x l).
Proof.
  intros Hf. induction l as [|y r IH]; [reflexivity|].
  simpl. rewrite Hf. destruct (lt y x); simpl; [now rewrite IH | reflexivity].
Qed.

Lemma sort_map (f : A -> B) (l : list A) :
  (forall a b, lt' (f a) (f b) = lt a b) ->
  Py.sort lt' (map f l) = map f (Py.sort lt l).
Proof.
  intros Hf. induction l as [|x r IH]; [reflexivity|].
  simpl. rewrite IH. now apply insert_map.
Qed.

End SortStable.

(** ** The sort with a comparison that may raise *)

Section SortRaisingFacts.

Import Exc.

Variable A : Type.
Variable lt_r : A -> A -> result bool.
Variable lt : A -> A -> bool.

(** Where the comparison answers, it answers [lt]. *)
Hypothesis lt_r_Ok : forall a b r, lt_r a b = Ok r -> lt a b = r.

Lemma insert_r_Ok (x : A) (l l' : list A) :
  Py.insert_r lt_r x l = Ok l' -> l' = Py.insert lt x l.
Proof.
  revert l'. induction l as [|y r IH]; simpl; intros l'.
  - now intros [= <-].
  - destruct (lt_r y x) as [b|e] eqn:Hyx; [|discriminate]. simpl.
    rewrite (lt_r_Ok Hyx). destruct b.
    + destruct (Py.insert_r lt_r x r) as [r'|e]; [|discriminate].
      simpl. intros [= <-]. now rewrite (IH r' eq_refl).
    + now intros [= <-].
Qed.

Lemma sort_r_Ok (l l' : list A) :
  Py.sort_r lt_r l = Ok l' -> l' = Py.sort lt l.
Proof.
  revert l'. induction l as [|x r IH]; simpl; intros l'.
  - now intros [= <-].
  - destruct (Py.sort_r lt_r r) as [s|e]; [|discriminate]. simpl.
    intros H. apply insert_r_Ok in H. now rewrite (IH s eq_refl) in H.
Qed.

(** The relation "the two can be compared". *)
Variable ok : A -> A -> bool.
Hypothesis ok_lt : forall a b, ok a b = true -> lt_r a b = Ok (lt a b).
Hypothesis lt_ok : forall a b r, lt_r a b = Ok r -> ok a b = true.
Hypothesis ok_sym : forall a b, ok a b = true -> ok b a = true.
Hypothesis ok_trans :
  forall a b c, ok a b = true -> ok b c = true -> ok a c = true.

Lemma insert_r_compares (x : A) (l : list A) :
  (forall y, In y l -> ok y x = true) ->
  Py.insert_r lt_r x l = Ok (Py.insert lt x l).
Proof.
  induction l as [|y r IH]; simpl; intros H; [reflexivity|].
  rewrite (ok_lt (H y (or_introl eq_refl))). simpl.
  destruct (lt y x); [|reflexivity].
  rewrite IH; [reflexivity|]. intros z Hz. apply H. now right.
Qed.

(** A list whose elements can be compared with each other is sorted. *)
Lemma sort_r_compares (l : list A) :
  (forall a b, In a l -> In b l -> ok a b = true) ->
  Py.sort_r lt_r l = Ok (Py.sort lt l).
Proof.
  induction l as [|x r IH]; simpl; intros H; [reflexivity|].
  rewrite IH by (intros a b Ha Hb; apply H; now right). simpl.
  apply insert_r_compares. intros y Hy. apply sort_In in Hy.
  apply H; [now right | now left].
Qed.

Hypothesis ok_refl : forall a, ok a a = true.


End SortRaisingFacts.

Section SortRaisingMap.

Import Exc.

Variables A B : Type.
Variable lt_a : A -> A -> result bool.
Variable lt_b : B -> B -> result bool.
Variable f : A -> B.
Hypothesis lt_f : forall x y, lt_b (f x) (f y) = lt_a x y.

Lemma insert_r_map (x : A) (l : list A) :
  Py.insert_r lt_b (f x) (map f l) =
  (r <- Py.insert_r lt_a x l ;; Ok (map f r)).
Proof.
  induction l as [|y r IH]; simpl; [reflexivity|].
  rewrite lt_f. destruct (lt_a y x) as [[|]|e]; simpl; try reflexivity.
  rewrite IH. now destruct (Py.insert_r lt_a x r).
Qed.

Lemma sort_r_map (l : list A) :
  Py.sort_r lt_b (map f l) = (r <- Py.sort_r lt_a l ;; Ok (map f r)).
Proof.
  induction l as [|x r IH]; simpl; [reflexivity|].
  rewrite IH. destruct (Py.sort_r lt_a r) as [s|e]; simpl; [|reflexivity].
  apply insert_r_map.
Qed.

End SortRaisingMap.

Section EnumerateFacts.

Variables A B : Type.

Lemma enumerate_fst (s : nat) (l : list A) :
  map fst (Py.enumerate s l) = seq s (List.length l).
Proof.
  revert s. induction l as [|x r IH]; intros s; simpl; [reflexivity|].
  now rewrite IH.
Qed.

Lemma enumerate_snd (s : nat) (l : list A) :
  map snd (Py.enumerate s l) = l.
Proof.
  revert s. induction l as [|x r IH]; intros s; simpl; [reflexivity|].
  now rewrite IH.
Qed.

Lemma enumerate_map (f : A -> B) (s : nat) (l : list A) :
  Py.enumerate s (map f l) =
  map (fun e => (fst e, f (snd e))) (Py.enumerate s l).
Proof.
  revert s. induction l as [|x r IH]; intros s; simpl; [reflexivity|].
  now rewrite IH.
Qed.

Lemma enumerate_nth (s k : nat) (l : list A) (x : A) :
  nth_error l k = Some x ->
  nth_error (Py.enumerate s l) k = Some (s + k, x).
Proof.
  revert s k. induction l as [|y r IH]; intros s [|k]; simpl; try easy.
  - intros [= ->]. now rewrite Nat.add_0_r.
  - intros H. rewrite (IH (S s) k H). f_equal. f_equal. lia.
Qed.

End EnumerateFacts.

(** ** The date resolver *)

Section ResolverFacts.

Import Extract Reference Scenario.

Lemma py_fromtimestamp_naive (P : platform) (t : Z) (dt : datetime) :
  py_fromtimestamp P t = Ok dt -> Datetime.utcoffset dt = None.
Proof.
  unfold py_fromtimestamp. destruct (fromtimestamp P t); [|discriminate].
  now intros [= <-].
Qed.




End ResolverFacts.

(** ** The video extractor *)

Section VideoFacts.

Import Extract Reference Scenario.

Lemma video_timeout (P : platform) : get_video_date_taken P ProbeTimeout = None.
Proof. reflexivity. Qed.

Lemma video_not_started (P : platform) :
  get_video_date_taken P ProbeNotStarted = None.
Proof. reflexivity. Qed.

Lemma video_nonzero_exit (P : platform) (rc : Z) (out : option json) :
  rc <> 0%Z -> get_video_date_taken P (ProbeExit rc out) = None.
Proof.
  intros H. unfold get_video_date_taken, video_body.
  destruct (Z.eqb_spec rc 0); [contradiction | reflexivity].
Qed.

Lemma video_unparseable (P : platform) :
  get_video_date_taken P (ProbeExit 0 None) = None.
Proof. reflexivity. Qed.

(** X22: a date tag of a stream whose value holds no [T] is never read:
    the extractor returns no date for it, whatever the tag is called and
    whatever the parsers of the platform accept. *)
Theorem stream_value_without_T (P : platform) (field value : string) :
  Py.is_substring "T" value = false ->
  get_video_date_taken P (stream_probe field value) = None.
Proof.
  intros HT. unfold get_video_date_taken, stream_probe.
  destruct (String.eqb_spec field "creation_time") as [->|N1].
  - cbn. rewrite HT. reflexivity.
  - destruct (String.eqb_spec field "date") as [->|N2].
    + cbn. rewrite HT. reflexivity.
    + apply String.eqb_neq in N1, N2.
      cbn. unfold stream_field. cbn. rewrite N1, N2. reflexivity.
Qed.

(** A loop returns what its first returning iteration returns. *)
Lemma for_each_first {X Y} (body : X -> result (option Y))
    (pre post : list X) (x : X) (y : Y) :
  Forall (fun a => body a = Ok None) pre -> body x = Ok (Some y) ->
  for_each body (pre ++ x :: post)%list = Ok (Some y).
Proof.
  intros Hpre Hx. induction Hpre as [|a r Ha Hr IH]; simpl.
  - now rewrite Hx.
  - now rewrite Ha.
Qed.

(** X23: the container-level tags are tried in the order of
    [date_fields]: when the tags before [field] are absent or hold values
    that do not parse, and the value of [field] parses, the extractor
    returns that date, whatever the later tags and the streams hold. *)
Theorem video_container_priority (P : platform) (tags : json)
    (pre post : list string) (field : string) (dt : datetime) :
  date_fields = (pre ++ field :: post)%list ->
  Forall (fun f => format_field P tags f = Ok None) pre ->
  format_field P tags field = Ok (Some dt) ->
  get_video_date_taken P
    (ProbeExit 0 (Some (JObj [("format", JObj [("tags", tags)])]))) = Some dt.
Proof.
  intros Hf Hpre Hfield.
  assert (Hscan : scan_format P (JObj [("format", JObj [("tags", tags)])])
                  = Ok (Some dt)).
  { unfold scan_format. cbn -[date_fields for_each].
    rewrite Hf. now apply for_each_first. }
  unfold get_video_date_taken, video_body.
  cbn -[scan_format scan_streams]. now rewrite Hscan.
Qed.

Lemma stream_value_without_T_witness :
  get_video_date_taken posix (stream_probe "date" "2023:01:15 14:30:45")
  = None.
Proof.
  apply (@stream_value_without_T posix "date" "2023:01:15 14:30:45").
  reflexivity.
Defined.

Lemma video_container_priority_witness :
  get_video_date_taken posix
    (ProbeExit 0
       (Some (JObj [("format",
                     JObj [("tags",
                            JObj [("date", JStr "2023-01-15 14:30:45");
                                  ("creation_time", JStr "yesterday");
                                  ("creation_date",
                                   JStr "2001-01-01 00:00:00")])])])))
  = Some (Datetime.mk_datetime 2023 1 15 14 30 45 0).
Proof.
  apply (@video_container_priority posix _ ["creation_time"]
           ["creation_date"; "com.apple.quicktime.creationdate"] "date").
  - reflexivity.
  - constructor; [reflexivity | constructor].
  - reflexivity.
Defined.

(** The streams are looked at only when the container-level scan ends
    without a date. *)
Lemma video_falls_back_to_streams (P : platform) (metadata : json) :
  scan_format P metadata = Ok None ->
  get_video_date_taken P (ProbeExit 0 (Some metadata)) =
  except_Exception (scan_streams P metadata).
Proof.
  intros H. unfold get_video_date_taken, video_body. simpl. now rewrite H.
Qed.

(** C7 (the code departs from it): the value [2023-01-15 14:30:45] is
    accepted as a container-level [creation_time] but the same tag on a
    stream yields nothing, on every platform. *)
Theorem video_stream_literal_pattern_ignored (P : platform) :
  get_video_date_taken P (stream_probe "creation_time" "2023-01-15 14:30:45")
  = None /\
  get_video_date_taken posix
    (format_probe "creation_time" "2023-01-15 14:30:45")
  = Some (Datetime.mk_datetime 2023 1 15 14 30 45 0) /\
  get_video_date_taken posix
    (stream_probe "creation_time" "2023-01-15T14:30:45.000000Z")
  = Some (Datetime.mk_datetime 2023 1 15 14 30 45 0).
Proof.
  split; [|split]; reflexivity.
Qed.

End VideoFacts.

(** ** The image extractor *)

Section ImageFacts.

Import Extract ExifSpec Reference Scenario.

Variable P : platform.

(** One iteration either returns the date the tag yields or goes on;
    it never raises. *)
Lemma scan_tag_spec (d : ifd) (tag_id : Z) :
  (exists dt, scan_tag P d tag_id = Ok (Some dt) /\ tag_yields P d tag_id dt) \/
  (scan_tag P d tag_id = Ok None /\ tag_skipped P d tag_id).
Proof.
  unfold scan_tag, tag_skipped, tag_yields.
  destruct (is_date_tag P tag_id) eqn:Hc.
  - destruct (ifd_get d tag_id) as [[s|]|] eqn:Hg; simpl.
    + destruct (strptime P s "%Y:%m:%d %H:%M:%S") as [dt|] eqn:Hs; simpl.
      * left. exists dt. split; [reflexivity|]. split; [reflexivity|].
        exists s. now split.
      * right. split; [reflexivity|]. intros dt [_ [s' [[= <-] Hs']]].
        congruence.
    + right. split; [reflexivity|]. intros dt [_ [s' [Hs' _]]]. discriminate.
    + right. split; [reflexivity|]. intros dt [_ [s' [Hs' _]]]. discriminate.
  - right. split; [reflexivity|]. intros dt [Hd _]. discriminate.
Qed.

Lemma scan_keys_spec (d : ifd) (keys : list Z) :
  (exists dt pre tag_id post,
      for_each (scan_tag P d) keys = Ok (Some dt) /\
      keys = (pre ++ tag_id :: post)%list /\
      Forall (tag_skipped P d) pre /\ tag_yields P d tag_id dt) \/
  (for_each (scan_tag P d) keys = Ok None /\ Forall (tag_skipped P d) keys).
Proof.
  induction keys as [|k r IH]; simpl.
  - right. split; [reflexivity | constructor].
  - destruct (scan_tag_spec d k) as [[dt [Hk Hy]]|[Hk Hs]]; rewrite Hk.
    + left. exists dt, [], k, r.
      split; [reflexivity|]. split; [reflexivity|]. now split.
    + destruct IH as [[dt [pre [t [post [Hr [-> [Hpre Hy]]]]]]]|[Hr Hall]].
      * left. exists dt, (k :: pre), t, post.
        split; [exact Hr|]. split; [reflexivity|]. split; [now constructor|].
        exact Hy.
      * right. split; [exact Hr | now constructor].
Qed.

Lemma scan_ifd_spec (d : ifd) :
  (exists dt, scan_ifd P d = Ok (Some dt) /\ first_hit P d dt) \/
  (scan_ifd P d = Ok None /\ no_hit P d).
Proof.
  unfold scan_ifd, first_hit, no_hit.
  destruct (scan_keys_spec d (map fst d))
    as [[dt [pre [t [post [Hr [Hk [Hpre Hy]]]]]]]|[Hr Hall]].
  - left. exists dt. split; [exact Hr|]. now exists pre, t, post.
  - now right.
Qed.

(** C8: the extractor returns the date of the first tag, in the iteration
    order of the primary directory, that is one of [DateTimeOriginal],
    [DateTimeDigitized], [DateTime] and whose value matches the pattern;
    tags that do not match are passed over; when the primary directory has
    no such tag the EXIF IFD sub-directory is scanned in the same way;
    otherwise, and when the image cannot be read, the result is [None]. *)
Theorem image_date_first_matching_tag (img : image) :
  match img with
  | CannotOpen | NoExif => get_image_date_taken P img = None
  | Exif primary sub =>
      match get_image_date_taken P img with
      | Some dt =>
          first_hit P primary dt \/
          (no_hit P primary /\
           exists d2, sub = SubIfd d2 /\ first_hit P d2 dt)
      | None =>
          no_hit P primary /\
          match sub with
          | SubIfd d2 => no_hit P d2
          | NoGetIfd | GetIfdRaises => True
          end
      end
  end.
Proof.
  destruct img as [| |primary sub]; try reflexivity.
  unfold get_image_date_taken, exif_body.
  destruct (scan_ifd_spec primary) as [[dt [Hr Hh]]|[Hr Hn]]; rewrite Hr; simpl.
  - now left.
  - destruct sub as [| |d2]; simpl; auto.
    destruct (scan_ifd_spec d2) as [[dt [Hr2 Hh2]]|[Hr2 Hn2]]; rewrite Hr2; simpl.
    + right. split; [exact Hn|]. now exists d2.
    + now split.
Qed.

End ImageFacts.

Section ImageExamples.

Import Extract Reference Scenario.

(** A single scan: [DateTime], listed first, wins over [DateTimeOriginal]. *)
Example image_scan_is_not_by_priority :
  get_image_date_taken posix two_dates =
  Some (Datetime.mk_datetime 2020 5 5 5 5 5 0).
Proof. reflexivity. Qed.

Example image_date_from_sub_ifd :
  get_image_date_taken posix date_in_sub_ifd =
  Some (Datetime.mk_datetime 2012 3 4 5 6 7 0).
Proof. reflexivity. Qed.

End ImageExamples.

(** ** Discovery *)

Section DiscoveryFacts.

Import Extract Fs Renamer Plan.

Lemma find_media_files_flat (d : dir) :
  find_media_files d false =
  flat_map (fun e => media_file ([fst e], snd e)) d.
Proof.
  unfold find_media_files, iterdir.
  induction d as [|e r IH]; simpl; [reflexivity|]. now rewrite IH.
Qed.

(** Only direct children that are regular files with a media extension
    are discovered. *)
Lemma find_media_files_In (d : dir) (p : path) (f : fdata) :
  In (p, f) (find_media_files d false) ->
  exists k, p = [k] /\ In (k, File f) d /\
            mem (Py.lower (Py.suffix k)) media_extensions = true.
Proof.
  rewrite find_media_files_flat, in_flat_map.
  intros [[k x] [Hin Hm]]. unfold media_file in Hm. simpl in Hm.
  destruct x as [g|]; [|contradiction].
  change (name [k]) with k in Hm.
  destruct (mem _ media_extensions) eqn:Hext; [|contradiction].
  destruct Hm as [[= <- <-]|[]]. exists k. auto.
Qed.

Lemma In_lookup (d : dir) (k : string) (x : node) :
  NoDup (map fst d) -> In (k, x) d -> lookup k d = Some x.
Proof.
  induction d as [|[k' x'] r IH]; simpl; [easy|].
  intros Hnd [[= -> ->]|Hin].
  - now rewrite String.eqb_refl.
  - inversion Hnd as [|? ? Hnotin Hnd']; subst.
    destruct (String.eqb_spec k' k) as [->|_].
    + exfalso. apply Hnotin. now apply (in_map fst) in Hin.
    + now apply IH.
Qed.

Lemma lookup_In (d : dir) (k : string) (x : node) :
  lookup k d = Some x -> In (k, x) d.
Proof.
  induction d as [|[k' x'] r IH]; simpl; [easy|].
  destruct (String.eqb_spec k' k) as [->|_].
  - intros [= ->]. now left.
  - intros H. right. now apply IH.
Qed.

Lemma lookup_None (d : dir) (k : string) :
  lookup k d = None <-> ~ In k (map fst d).
Proof.
  induction d as [|[k' x'] r IH]; simpl; [easy|].
  destruct (String.eqb_spec k' k) as [->|Hne].
  - split; [discriminate | intros H; exfalso; apply H; now left].
  - rewrite IH. split; [intros H [?|?]; [easy | now apply H] | tauto].
Qed.

End DiscoveryFacts.

(** ** Grouping by day *)

Section GroupFacts.

Import Extract Fs Renamer Plan.

Variable V : Type.
Variable key : V -> string.

Let add (m : list (string * list V)) (x : V) := dict_append (key x) x m.
Let has_key (k : string) (x : V) : bool := String.eqb (key x) k.

Lemma assoc_dict_append (k k0 : string) (v : V) (m : list (string * list V)) :
  assoc k (dict_append k0 v m) =
  if String.eqb k0 k
  then Some (match assoc k m with Some l => l ++ [v] | None => [v] end)%list
  else assoc k m.
Proof.
  induction m as [|[k' l] r IH]; simpl.
  - destruct (String.eqb_spec k0 k); reflexivity.
  - destruct (String.eqb_spec k' k0) as [->|Hne]; simpl.
    + destruct (String.eqb_spec k0 k); reflexivity.
    + destruct (String.eqb_spec k' k) as [->|Hne'].
      * destruct (String.eqb_spec k0 k); [congruence | reflexivity].
      * exact IH.
Qed.

Lemma keys_dict_append (k0 : string) (v : V) (m : list (string * list V)) :
  NoDup (map fst m) -> NoDup (map fst (dict_append k0 v m)).
Proof.
  intros Hnd.
  assert (Hkeys : map fst (dict_append k0 v m) = map fst m \/
                  (~ In k0 (map fst m) /\
                   map fst (dict_append k0 v m) = (map fst m ++ [k0])%list)).
  { clear Hnd. induction m as [|[k' l] r IH]; simpl.
    - right. split; [tauto | reflexivity].
    - destruct (String.eqb_spec k' k0) as [->|Hne]; simpl; [now left|].
      destruct IH as [->|[Hn ->]]; [now left|].
      right. split; [|reflexivity]. intros [?|?]; tauto. }
  destruct Hkeys as [->|[Hn ->]]; [exact Hnd|].
  apply NoDup_app.
  - exact Hnd.
  - constructor; [easy | constructor].
  - intros x Hx [<-|[]]. now apply Hn.
Qed.

Lemma fold_add_nodup (xs : list V) (acc : list (string * list V)) :
  NoDup (map fst acc) -> NoDup (map fst (fold_left add xs acc)).
Proof.
  revert acc. induction xs as [|x xs IH]; intros acc Hnd; simpl; [exact Hnd|].
  apply IH. unfold add. now apply keys_dict_append.
Qed.

Lemma fold_add_assoc (xs : list V) (acc : list (string * list V)) (k : string) :
  assoc k (fold_left add xs acc) =
  match assoc k acc, filter (has_key k) xs with
  | None, [] => None
  | None, l => Some l
  | Some a, l => Some (a ++ l)%list
  end.
Proof.
  revert acc. induction xs as [|x xs IH]; intros acc; simpl.
  - destruct (assoc k acc); [now rewrite app_nil_r | reflexivity].
  - rewrite IH. unfold add at 1. rewrite assoc_dict_append.
    change (has_key k x) with (String.eqb (key x) k).
    destruct (String.eqb (key x) k).
    + destruct (assoc k acc) as [a|].
      * now rewrite <- app_assoc.
      * reflexivity.
    + reflexivity.
Qed.

Lemma assoc_In_nodup (m : list (string * list V)) (k : string) (l : list V) :
  NoDup (map fst m) -> In (k, l) m -> assoc k m = Some l.
Proof.
  induction m as [|[k' l'] r IH]; simpl; [easy|].
  intros Hnd [[= -> ->]|Hin].
  - now rewrite String.eqb_refl.
  - inversion Hnd as [|? ? Hnotin Hnd']; subst.
    destruct (String.eqb_spec k' k) as [->|_].
    + exfalso. apply Hnotin. now apply (in_map fst) in Hin.
    + now apply IH.
Qed.

(** A group holds the elements with its key, in their original order. *)
Lemma fold_add_group (xs : list V) (k : string) (l : list V) :
  In (k, l) (fold_left add xs []) -> l = filter (has_key k) xs /\ l <> [].
Proof.
  intros Hin. apply assoc_In_nodup in Hin.
  - rewrite fold_add_assoc in Hin. simpl in Hin.
    destruct (filter (has_key k) xs) as [|y ys]; [discriminate|].
    injection Hin as <-. split; [reflexivity | discriminate].
  - apply fold_add_nodup. constructor.
Qed.



Lemma count_dict_append (k0 : string) (v : V) (m : list (string * list V)) :
  list_sum (map (fun g => List.length (snd g)) (dict_append k0 v m)) =
  S (list_sum (map (fun g => List.length (snd g)) m)).
Proof.
  induction m as [|[k' l] r IH]; simpl; [reflexivity|].
  destruct (String.eqb k' k0); simpl.
  - rewrite List.length_app. simpl. lia.
  - rewrite IH. lia.
Qed.

Lemma count_fold_add (xs : list V) (acc : list (string * list V)) :
  list_sum (map (fun g => List.length (snd g)) (fold_left add xs acc)) =
  list_sum (map (fun g => List.length (snd g)) acc) + List.length xs.
Proof.
  revert acc. induction xs as [|x xs IH]; intros acc; simpl; [lia|].
  rewrite IH. unfold add. rewrite count_dict_append. lia.
Qed.

End GroupFacts.

(** ** The run as a fold over the plan *)

Section RunFacts.

Import Extract Fs Renamer Plan.

Variable P : platform.

Lemma fold_left_sum {X} (f : X -> nat) (l : list X) (a : nat) :
  fold_left (fun n g => n + f g) l a = a + list_sum (map f l).
Proof.
  revert a. induction l as [|x r IH]; intros a; simpl; [lia|].
  rewrite IH. lia.
Qed.

Lemma fold_left_flat_map {X Y S} (f : S -> Y -> S) (g : X -> list Y)
    (l : list X) (a : S) :
  fold_left f (flat_map g l) a = fold_left (fun a x => fold_left f (g x) a) l a.
Proof.
  revert a. induction l as [|x r IH]; intros a; simpl; [reflexivity|].
  now rewrite fold_left_app, IH.
Qed.

Lemma fold_left_map' {X Y S} (f : S -> Y -> S) (h : X -> Y) (l : list X) (a : S) :
  fold_left f (map h l) a = fold_left (fun a x => f a (h x)) l a.
Proof.
  revert a. induction l as [|x r IH]; intros a; simpl; [reflexivity|].
  now rewrite IH.
Qed.

Lemma fold_left_pointwise {X S} (f g : S -> X -> S) (l : list X) (a : S) :
  (forall a x, f a x = g a x) -> fold_left f l a = fold_left g l a.
Proof.
  intros H. revert a. induction l as [|x r IH]; intros a; simpl; [reflexivity|].
  now rewrite H, IH.
Qed.

(** The sort of a file list: where it does not raise it is the stable
    sort by [earlier], and it raises exactly when two timestamps cannot be
    compared. *)
Lemma sort_by_time_Ok {X} (l l' : list (X * datetime)) :
  sort_by_time l = Ok l' ->
  l' = Py.sort (fun a b => Datetime.ltb (snd a) (snd b)) l.
Proof.
  apply sort_r_Ok. intros a b r H. now apply lt_Ok in H.
Qed.


Lemma sort_by_time_compares {X} (l : list (X * datetime)) :
  (forall a b, In a l -> In b l ->
               Datetime.comparable (snd a) (snd b) = true) ->
  sort_by_time l = Ok (Py.sort (fun a b => Datetime.ltb (snd a) (snd b)) l).
Proof.
  apply (@sort_r_compares _ (fun a b => Datetime.lt (snd a) (snd b))
           (fun a b => Datetime.ltb (snd a) (snd b))
           (fun a b => Datetime.comparable (snd a) (snd b))).
  intros a b H. now apply lt_comparable.
Qed.

(** The first loop either raises or dates every file. *)
Lemma dated_files_Ok (media : list (path * fdata)) (xs : list (path * datetime)) :
  dated_files P media = Ok xs ->
  Forall2 (fun pf x => fst x = fst pf /\
                       resolve_date P (name (fst pf)) (snd pf) = Ok (snd x))
    media xs.
Proof.
  revert xs. induction media as [|pf r IH]; simpl; intros xs.
  - intros [= <-]. constructor.
  - destruct (resolve_date P (name (fst pf)) (snd pf)) as [dt|e] eqn:Hd;
      [|discriminate]. simpl.
    destruct (dated_files P r) as [ys|e]; [|discriminate]. simpl.
    intros [= <-]. constructor; [now split | now apply IH].
Qed.

Lemma dated_files_paths (media : list (path * fdata))
    (xs : list (path * datetime)) :
  dated_files P media = Ok xs -> map fst xs = map fst media.
Proof.
  intros H. apply dated_files_Ok in H.
  induction H as [|pf x r ys [Hx _] _ IH]; simpl; [reflexivity|].
  now rewrite Hx, IH.
Qed.

Lemma group_files_from (media : list (path * fdata))
    (acc : list (string * list (path * datetime))) :
  fold_left
    (fun so_far pf =>
       files_by_date <- so_far ;;
       date_taken <- resolve_date P (name (fst pf)) (snd pf) ;;
       Ok (dict_append (Datetime.strftime_day date_taken)
             (fst pf, date_taken) files_by_date))
    media (Ok acc) =
  (xs <- dated_files P media ;;
   Ok (fold_left (fun m x => dict_append (Datetime.strftime_day (snd x)) x m)
         xs acc)).
Proof.
  revert acc. induction media as [|pf r IH]; intros acc; [reflexivity|].
  cbn [fold_left dated_files bind].
  destruct (resolve_date P (name (fst pf)) (snd pf)) as [dt|e]; cbn [bind].
  - rewrite IH. now destruct (dated_files P r).
  - clear IH. induction r as [|x r IHr]; [reflexivity | exact IHr].
Qed.

Lemma group_files_as_fold (media : list (path * fdata)) :
  group_files P media = (xs <- dated_files P media ;; Ok (grouped xs)).
Proof. apply group_files_from. Qed.

Lemma rename_group_as_steps (dry : bool) (st : state)
    (g : string * list (path * datetime)) :
  rename_group P dry st g =
  match sort_by_time (snd g) with
  | Ok _ => Ok (fold_left (step P dry) (numbered g) st)
  | Raise e => Raise e
  end.
Proof.
  unfold rename_group, numbered, step.
  destruct (sort_by_time (snd g)) as [l|e] eqn:Hs; [|reflexivity].
  cbn [bind]. rewrite fold_left_map'. now rewrite (sort_by_time_Ok _ Hs).
Qed.

Lemma rename_groups_as_steps (dry : bool)
    (gs : list (string * list (path * datetime))) (st : state) :
  rename_groups P dry gs st =
  (fold_left (step P dry) (flat_map numbered (processed gs)) st,
   sort_failure gs).
Proof.
  revert st. induction gs as [|g r IH]; intros st; [reflexivity|].
  cbn [rename_groups processed sort_failure]. rewrite rename_group_as_steps.
  unfold sortable. destruct (sort_by_time (snd g)); [|reflexivity].
  rewrite IH. cbn [flat_map]. now rewrite fold_left_app.
Qed.

Lemma processed_incl (gs : list (string * list (path * datetime)))
    (g : string * list (path * datetime)) :
  In g (processed gs) -> In g gs.
Proof.
  induction gs as [|x r IH]; simpl; [easy|].
  destruct (sortable x); [|easy]. intros [->|H]; auto.
Qed.

(** Without a failure all groups are processed. *)
Lemma processed_all (gs : list (string * list (path * datetime))) :
  sort_failure gs = None -> processed gs = gs.
Proof.
  induction gs as [|x r IH]; simpl; [reflexivity|]. unfold sortable.
  destruct (sort_by_time (snd x)); [|discriminate].
  intros H. now rewrite IH.
Qed.


(** What has been processed is the front of the groups. *)
Lemma processed_front (gs : list (string * list (path * datetime))) :
  exists rest, gs = (processed gs ++ rest)%list.
Proof.
  induction gs as [|x r [rest IH]]; simpl; [now exists []|].
  destruct (sortable x); [|now eexists].
  exists rest. simpl. now rewrite <- IH.
Qed.

(** The call on an existing directory: the steps of the plan are run in
    order from the initial state; when no exception ends the call, every
    discovered file is counted. *)
Lemma run_as_plan (d : dir) (dry rec : bool) :
  rename_media_in_directory P (Some d) dry rec =
  let st := fold_left (step P dry) (plan P d) (mk_state d 0 []) in
  mk_run (Some (disk st))
    (match failure P d with
     | None => List.length (find_media_files d false)
     | Some _ => 0
     end)
    (total_renamed st) (printed st) (failure P d).
Proof.
  unfold rename_media_in_directory, failure, plan, groups, day_groups,
    resolved, dated.
  destruct (find_media_files d false) as [|pf media] eqn:Hm; [reflexivity|].
  cbv zeta. rewrite group_files_as_fold.
  destruct (dated_files P (pf :: media)) as [xs|e] eqn:Hd; cbn [bind];
    [|reflexivity].
  rewrite rename_groups_as_steps.
  destruct (sort_failure (sorted_items (grouped xs))); [reflexivity|].
  f_equal. rewrite fold_left_sum. unfold grouped.
  rewrite count_fold_add. simpl.
  now rewrite <- (length_map fst xs), (dated_files_paths _ Hd), length_map.
Qed.

(** A call returns when the first loop dates every file and every sort
    succeeds. *)
Lemma run_raised (d : dir) (dry rec : bool) :
  raised (rename_media_in_directory P (Some d) dry rec) = failure P d.
Proof. now rewrite run_as_plan. Qed.

Lemma returns_dated (d : dir) :
  failure P d = None -> dated P d = Ok (resolved P d).
Proof.
  unfold failure, resolved. now destruct (dated P d).
Qed.

Lemma returns_groups (d : dir) :
  failure P d = None -> groups P d = day_groups P d.
Proof.
  unfold failure, groups. destruct (dated P d); [|discriminate].
  apply processed_all.
Qed.

(** Every group is the list of the files of its day, in discovery order. *)
Lemma day_groups_member (d : dir) (g : string * list (path * datetime)) :
  In g (day_groups P d) ->
  snd g = filter (on_day (fst g)) (resolved P d) /\ snd g <> [].
Proof.
  unfold day_groups, sorted_items. rewrite sort_In. unfold grouped.
  destruct g as [k l]. intros Hin.
  apply (fold_add_group (fun x : path * datetime =>
                           Datetime.strftime_day (snd x))) in Hin.
  exact Hin.
Qed.

Lemma groups_member (d : dir) (g : string * list (path * datetime)) :
  In g (groups P d) ->
  snd g = filter (on_day (fst g)) (resolved P d) /\ snd g <> [].
Proof.
  intros H. apply day_groups_member. now apply processed_incl.
Qed.

(** The dated files are the discovered files, each with its date. *)
Lemma resolved_dated (d : dir) :
  Forall (fun x => exists f,
            In (fst x, f) (find_media_files d false) /\
            resolve_date P (name (fst x)) f = Ok (snd x))
    (resolved P d).
Proof.
  unfold resolved, dated. destruct (dated_files P _) as [xs|e] eqn:Hd;
    [|constructor].
  apply dated_files_Ok in Hd.
  induction Hd as [|pf x r ys [Hx Hr] _ IH]; [constructor|].
  constructor.
  - exists (snd pf). rewrite Hx. split; [left; now destruct pf | exact Hr].
  - apply Forall_forall. intros y Hy. rewrite Forall_forall in IH.
    destruct (IH y Hy) as [f [Hin Hf]]. exists f. split; [now right|exact Hf].
Qed.

Lemma resolved_In (d : dir) (x : path * datetime) :
  In x (resolved P d) ->
  exists k f, fst x = [k] /\ In (k, File f) d /\
              mem (Py.lower (Py.suffix k)) media_extensions = true.
Proof.
  intros Hx. pose proof (resolved_dated d) as H.
  rewrite Forall_forall in H. destruct (H x Hx) as [f [Hin _]].
  apply find_media_files_In in Hin. destruct Hin as [k [Hk [Hin Hext]]].
  now exists k, f.
Qed.

(** Every step of the plan works on a direct child that is a media file. *)
Lemma plan_In (d : dir) (s : entry) :
  In s (plan P d) ->
  exists k f, entry_path s = [k] /\ In (k, File f) d /\
              mem (Py.lower (Py.suffix k)) media_extensions = true.
Proof.
  unfold plan. rewrite in_flat_map. intros [g [Hg Hs]].
  unfold numbered in Hs. rewrite in_map_iff in Hs.
  destruct Hs as [[i x] [<- Hix]].
  apply (in_map snd) in Hix. rewrite enumerate_snd in Hix. simpl in Hix.
  rewrite sort_In in Hix.
  destruct (groups_member d g Hg) as [Heq _]. rewrite Heq in Hix.
  apply filter_In in Hix. destruct Hix as [Hix _].
  apply resolved_In in Hix. exact Hix.
Qed.

End RunFacts.

(** ** One step of the renaming loop *)

Section StepFacts.

Import Extract Fs Renamer Plan.

Variable P : platform.

Lemma path_exists_single (m : string) (d : dir) :
  path_exists [m] d = match lookup m d with Some _ => true | None => false end.
Proof.
  unfold path_exists, lookup_path. now destruct (lookup m d) as [[|]|].
Qed.

Lemma filter_absent (m : string) (d : dir) :
  lookup m d = None ->
  filter (fun e => negb (String.eqb (fst e) m)) d = d.
Proof.
  induction d as [|[k x] r IH]; simpl; [reflexivity|].
  destruct (String.eqb k m); [discriminate|]. intros H. simpl. now rewrite IH.
Qed.

(** Renaming to a name that is free moves nothing else. *)
Lemma rename_entry_fresh (k m : string) (d d' : dir) :
  k <> m -> lookup m d = None -> rename_entry P k m d = Some d' ->
  d' = rename_in_place k m d /\ lookup k d <> None.
Proof.
  intros Hne Hm. unfold rename_entry.
  destruct (negb (rename_permitted P k m)); [discriminate|].
  destruct (lookup k d) as [x|] eqn:Hk; [|discriminate].
  destruct (String.eqb_spec k m) as [?|_]; [contradiction|].
  rewrite Hm, (filter_absent _ _ Hm).
  destruct x; intros [= <-]; split; reflexivity || discriminate.
Qed.

(** Every step prints one line, for its own path and target. *)
Lemma step_printed (dry : bool) (st : state) (s : entry) :
  exists o, printed (step P dry st s) =
            (printed st ++ [mk_event (entry_path s) (entry_target s) o])%list.
Proof.
  destruct s as [ds [i [p t]]].
  unfold step, rename_step, entry_path, entry_target, entry_day, entry_seq.
  cbn [fst snd].
  destruct (String.eqb (name p) (new_name_of ds i p)); [now eexists|].
  destruct (path_exists _ (disk st)); [now eexists|].
  destruct dry; [now eexists|].
  destruct (rename_path P p _ (disk st)); now eexists.
Qed.

(** A dry step leaves the disk and the counter alone. *)
Lemma step_dry (st : state) (s : entry) :
  disk (step P true st s) = disk st /\
  total_renamed (step P true st s) = total_renamed st.
Proof.
  destruct s as [ds [i [p t]]]. unfold step, rename_step. cbn [fst snd].
  destruct (String.eqb (name p) (new_name_of ds i p)); [now split|].
  destruct (path_exists _ (disk st)); now split.
Qed.

(** The five ways a step on a direct child [k] can go. *)
Lemma step_cases (dry : bool) (st : state) (s : entry) (k : string) :
  entry_path s = [k] ->
  let m := entry_target s in
  (k = m /\ step P dry st s = say st [k] m AlreadyNamed) \/
  (k <> m /\ lookup m (disk st) <> None /\
   step P dry st s = say st [k] m SkippedTargetExists) \/
  (k <> m /\ lookup m (disk st) = None /\ dry = true /\
   step P dry st s = say st [k] m DryRun) \/
  (k <> m /\ lookup m (disk st) = None /\ dry = false /\
   step P dry st s = say st [k] m RenameError) \/
  (k <> m /\ lookup m (disk st) = None /\ dry = false /\
   lookup k (disk st) <> None /\
   step P dry st s =
   mk_state (rename_in_place k m (disk st)) (total_renamed st + 1)
     (printed st ++ [mk_event [k] m Renamed])%list).
Proof.
  destruct s as [ds [i [p t]]]. unfold entry_path. cbn [fst snd]. intros ->.
  unfold entry_target, entry_day, entry_seq, entry_path. cbn [fst snd].
  set (m := new_name_of ds i [k]).
  unfold step, rename_step. cbn [fst snd]. fold m.
  change (name [k]) with k. change (child (parent [k]) m) with [m].
  change (rename_path P [k] m (disk st)) with (rename_entry P k m (disk st)).
  rewrite path_exists_single.
  destruct (String.eqb_spec k m) as [Hkm|Hkm]; [now left|]. right.
  destruct (lookup m (disk st)) as [x|] eqn:Hm.
  { left. repeat split; auto. discriminate. }
  right. destruct dry; [now left|]. right.
  destruct (rename_entry P k m (disk st)) as [d'|] eqn:Hr; [|now left].
  right. destruct (rename_entry_fresh _ Hkm Hm Hr) as [-> Hk].
  repeat split; auto.
Qed.

(** The disk after a step: untouched, or one entry renamed to a free name. *)
Lemma step_disk (dry : bool) (st : state) (s : entry) (k : string) :
  entry_path s = [k] ->
  disk (step P dry st s) = disk st \/
  (lookup (entry_target s) (disk st) = None /\
   disk (step P dry st s) = rename_in_place k (entry_target s) (disk st)).
Proof.
  intros Hk. destruct (step_cases dry st s Hk)
    as [[_ ->]|[[_ [_ ->]]|[[_ [_ [_ ->]]]|[[_ [_ [_ ->]]]|[_ [Hm [_ [_ ->]]]]]]]];
    auto.
Qed.

Lemma rename_in_place_contents (k m : string) (d : dir) :
  map snd (rename_in_place k m d) = map snd d.
Proof.
  unfold rename_in_place. rewrite map_map. apply map_ext.
  intros e. now destruct (String.eqb (fst e) k).
Qed.

Lemma rename_in_place_names (k m : string) (d : dir) :
  map fst (rename_in_place k m d) =
  map (fun n => if String.eqb n k then m else n) (map fst d).
Proof.
  unfold rename_in_place. rewrite !map_map. apply map_ext.
  intros e. now destruct (String.eqb (fst e) k).
Qed.

Lemma rename_names_nodup (k m : string) (l : list string) :
  NoDup l -> ~ In m l ->
  NoDup (map (fun n => if String.eqb n k then m else n) l).
Proof.
  induction 1 as [|a r Ha Hr IH]; simpl; [constructor|].
  intros Hm. constructor.
  - rewrite in_map_iff. intros [b [Hb Hin]].
    destruct (String.eqb b k) eqn:Ebk; destruct (String.eqb a k) eqn:Eak.
    + apply String.eqb_eq in Ebk, Eak. subst. contradiction.
    + subst. apply Hm. now left.
    + subst. apply Hm. now right.
    + subst. contradiction.
  - apply IH. intros H. apply Hm. now right.
Qed.

Lemma rename_in_place_nodup (k m : string) (d : dir) :
  NoDup (map fst d) -> lookup m d = None ->
  NoDup (map fst (rename_in_place k m d)).
Proof.
  intros Hnd Hm. rewrite rename_in_place_names.
  apply rename_names_nodup; [exact Hnd | now apply lookup_None].
Qed.

End StepFacts.

(** ** Invariants of the renaming loops *)

Section FoldFacts.

Import Extract Fs Renamer Plan.

Variable P : platform.

Lemma fold_printed (dry : bool) (l : list entry) (st : state) :
  map line (printed (fold_left (step P dry) l st)) =
  (map line (printed st) ++ map intent l)%list.
Proof.
  revert st. induction l as [|s r IH]; intros st; simpl.
  - now rewrite app_nil_r.
  - rewrite IH. destruct (step_printed P dry st s) as [o ->].
    rewrite map_app. simpl. now rewrite <- app_assoc.
Qed.

Lemma fold_dry (l : list entry) (st : state) :
  disk (fold_left (step P true) l st) = disk st /\
  total_renamed (fold_left (step P true) l st) = total_renamed st.
Proof.
  revert st. induction l as [|s r IH]; intros st; simpl; [now split|].
  destruct (IH (step P true st s)) as [-> ->]. apply step_dry.
Qed.

(** Steps on direct children keep every node in its place and the names
    distinct. *)
Lemma fold_contents (dry : bool) (l : list entry) (st : state) :
  Forall (fun s => exists k, entry_path s = [k]) l ->
  map snd (disk (fold_left (step P dry) l st)) = map snd (disk st) /\
  (NoDup (map fst (disk st)) ->
   NoDup (map fst (disk (fold_left (step P dry) l st)))).
Proof.
  revert st. induction l as [|s r IH]; intros st Hall; simpl; [now split|].
  inversion Hall as [|? ? [k Hk] Hr]; subst.
  destruct (IH (step P dry st s) Hr) as [Hc Hn].
  destruct (step_disk P dry st s Hk) as [Hd|[Hm Hd]].
  - rewrite Hd in Hc, Hn. now split.
  - rewrite Hd in Hc, Hn. rewrite rename_in_place_contents in Hc.
    split; [exact Hc|]. intros Hnd. apply Hn.
    now apply rename_in_place_nodup.
Qed.

Lemma plan_single (d : dir) :
  Forall (fun s => exists k, entry_path s = [k]) (plan P d).
Proof.
  apply Forall_forall. intros s Hs.
  destruct (plan_In P d s Hs) as [k [f [Hk _]]]. now exists k.
Qed.

End FoldFacts.

(** ** The plan visits every discovered file once *)

Section PlanFacts.

Import Extract Fs Renamer Plan.

Variable P : platform.

Lemma flat_map_pointwise_perm {X Y} (f g : X -> list Y) (l : list X) :
  (forall x, Permutation (f x) (g x)) ->
  Permutation (flat_map f l) (flat_map g l).
Proof.
  intros H. induction l as [|x r IH]; simpl; [constructor|].
  now apply Permutation_app.
Qed.

Lemma dict_append_perm {V} (k : string) (v : V) (m : list (string * list V)) :
  Permutation (flat_map snd (dict_append k v m)) (v :: flat_map snd m).
Proof.
  induction m as [|[k' l] r IH]; simpl; [reflexivity|].
  destruct (String.eqb k' k); simpl.
  - rewrite <- app_assoc. simpl.
    rewrite <- Permutation_middle. reflexivity.
  - rewrite IH. rewrite <- Permutation_middle. reflexivity.
Qed.

Lemma fold_dict_append_perm {V} (key : V -> string) (xs : list V)
    (acc : list (string * list V)) :
  Permutation
    (flat_map snd (fold_left (fun m x => dict_append (key x) x m) xs acc))
    (flat_map snd acc ++ xs).
Proof.
  revert acc. induction xs as [|x xs IH]; intros acc; simpl.
  - now rewrite app_nil_r.
  - rewrite IH, dict_append_perm. simpl. apply Permutation_middle.
Qed.

Lemma plan_items (d : dir) :
  map (fun s : entry => snd (snd s)) (plan P d) =
  flat_map (fun g => Py.sort earlier (snd g)) (groups P d).
Proof.
  unfold plan. induction (groups P d) as [|g r IH]; simpl; [reflexivity|].
  rewrite map_app, IH. f_equal.
  unfold numbered. rewrite map_map. simpl. apply enumerate_snd.
Qed.

(** The date groups hold the dated files, reordered. *)
Lemma day_groups_perm (d : dir) :
  Permutation (flat_map snd (day_groups P d)) (resolved P d).
Proof.
  unfold day_groups, sorted_items.
  rewrite (Permutation_flat_map snd (sort_perm _ _)).
  unfold grouped. rewrite fold_dict_append_perm. reflexivity.
Qed.

(** The steps of the plan are dated files, each taken once. *)
Lemma plan_part (d : dir) :
  exists rest,
    Permutation (map (fun s : entry => snd (snd s)) (plan P d) ++ rest)
      (resolved P d).
Proof.
  rewrite plan_items. unfold groups.
  destruct (processed_front (day_groups P d)) as [rest Hrest].
  exists (flat_map snd rest).
  rewrite <- (day_groups_perm d). rewrite Hrest at 2.
  rewrite flat_map_app. apply Permutation_app_tail.
  apply flat_map_pointwise_perm. intros g. apply sort_perm.
Qed.

(** When no exception ends the call, the steps of the plan are the
    discovered files, reordered. *)
Lemma plan_perm (d : dir) :
  failure P d = None ->
  Permutation (map (fun s : entry => snd (snd s)) (plan P d)) (resolved P d).
Proof.
  intros Hok. rewrite plan_items, (returns_groups P d Hok).
  rewrite (flat_map_pointwise_perm _ snd).
  - apply day_groups_perm.
  - intros g. apply sort_perm.
Qed.

Lemma resolved_paths (d : dir) :
  resolved P d = [] \/
  map fst (resolved P d) = map fst (find_media_files d false).
Proof.
  unfold resolved, dated.
  destruct (dated_files P (find_media_files d false)) as [xs|e] eqn:Hd.
  - right. now apply (dated_files_paths P _ Hd).
  - now left.
Qed.

Lemma find_media_files_nodup (d : dir) :
  NoDup (map fst d) -> NoDup (map fst (find_media_files d false)).
Proof.
  rewrite find_media_files_flat.
  induction d as [|[k x] r IH]; simpl; [constructor|].
  intros Hnd. inversion Hnd as [|? ? Hk Hr]; subst.
  rewrite map_app. apply NoDup_app.
  - unfold media_file. simpl. destruct x; [|constructor].
    destruct (mem _ media_extensions); repeat constructor. easy.
  - now apply IH.
  - intros p Hp Hin. rewrite <- find_media_files_flat in Hin.
    rewrite in_map_iff in Hin. destruct Hin as [[p' f] [<- Hin]].
    apply find_media_files_In in Hin. destruct Hin as [k' [Hp' [Hin _]]].
    simpl in Hp'. subst p'.
    unfold media_file in Hp. simpl in Hp. destruct x; [|contradiction].
    destruct (mem _ media_extensions); [|contradiction].
    destruct Hp as [[= ->]|[]]. apply Hk. now apply (in_map fst) in Hin.
Qed.

Lemma plan_nodup (d : dir) :
  NoDup (map fst d) -> NoDup (map entry_path (plan P d)).
Proof.
  intros Hnd. destruct (plan_part d) as [rest Hp].
  apply (Permutation_map fst) in Hp. rewrite map_app, map_map in Hp.
  apply (@NoDup_app_remove_r _ _ (map fst rest)).
  apply (Permutation_NoDup (Permutation_sym Hp)).
  destruct (resolved_paths d) as [->| ->]; [constructor|].
  now apply find_media_files_nodup.
Qed.

End PlanFacts.

(** ** Dry runs *)

Section DryRunFacts.

Import Extract Fs Renamer Plan Reference Scenario.

(** C9 (amended): a dry run leaves the directory exactly as it was and
    counts no file as renamed, whether it completes or an exception ends
    it; when it completes on a directory that holds at least one media
    file (a regular file among its direct children with a recognised
    extension), the total it returns is greater than zero. *)
Theorem dry_run_changes_nothing (P : platform) (d : dir) (rec : bool) :
  after (rename_media_in_directory P (Some d) true rec) = Some d /\
  renamed (rename_media_in_directory P (Some d) true rec) = 0 /\
  (raised (rename_media_in_directory P (Some d) true rec) = None ->
   find_media_files d false <> [] ->
   0 < total_files (rename_media_in_directory P (Some d) true rec)).
Proof.
  rewrite run_as_plan. cbv zeta. cbn [total_files renamed after raised].
  destruct (fold_dry P (plan P d) (mk_state d 0 [])) as [-> ->].
  repeat split. intros -> Hne.
  destruct (find_media_files d false); [contradiction | simpl; lia].
Qed.

Lemma dry_run_changes_nothing_witness :
  after (rename_media_in_directory posix (Some mixed_dir) true false)
  = Some mixed_dir /\
  renamed (rename_media_in_directory posix (Some mixed_dir) true false) = 0 /\
  0 < total_files (rename_media_in_directory posix (Some mixed_dir) true false).
Proof.
  destruct (dry_run_changes_nothing posix mixed_dir false) as [Ha [Hn Ht]].
  split; [exact Ha|]. split; [exact Hn|].
  apply Ht; [reflexivity | discriminate].
Defined.

(** A dry run can be ended by an exception: the only media file of
    [beyond_dir] cannot be dated, and nothing is returned. *)
Example dry_run_raises_beyond_range :
  find_media_files beyond_dir false <> [] /\
  raised (rename_media_in_directory posix (Some beyond_dir) true false)
  = Some ValueError /\
  after (rename_media_in_directory posix (Some beyond_dir) true false)
  = Some beyond_dir.
Proof. split; [discriminate|]. split; reflexivity. Qed.

(** A directory can be non-empty and still hold no media file: the dry
    run then returns a total of zero. *)
Lemma dry_run_on_directory_without_media :
  notes_only <> [] /\
  total_files (rename_media_in_directory posix (Some notes_only) true false) = 0 /\
  ~ 0 < total_files (rename_media_in_directory posix (Some notes_only) true false).
Proof.
  split; [discriminate|]. split; [reflexivity|]. vm_compute. lia.
Qed.

End DryRunFacts.

(** ** Target names *)

Section NameFacts.

Import Extract Fs Renamer Plan Reference Scenario.

Lemma string_app_assoc (a b c : string) : ((a ++ b) ++ c)%string = (a ++ b ++ c)%string.
Proof. induction a as [|x a IH]; simpl; [reflexivity | now rewrite IH]. Qed.

Lemma new_name_label (date_str : string) (i : nat) (p : path) :
  new_name_of date_str i p =
  (date_str ++ " - Phone " ++ label p ++ " (" ++ Py.str_of_nat i ++ ")"
   ++ Py.lower (Py.suffix (name p)))%string.
Proof.
  unfold new_name_of, label.
  destruct (mem (Py.lower (Py.suffix (name p))) video_suffixes); reflexivity.
Qed.

Lemma new_name_split (date_str : string) (i : nat) (p : path) :
  exists pre, pre <> ""%string /\
    new_name_of date_str i p =
    (pre ++ Py.lower (Py.suffix (name p)))%string.
Proof.
  exists (date_str ++ " - Phone " ++ label p ++ " (" ++ Py.str_of_nat i ++ ")")%string.
  split.
  - destruct date_str; simpl; discriminate.
  - rewrite new_name_label. rewrite !string_app_assoc. reflexivity.
Qed.

(** The new name of a media file ends in its lower-cased extension. *)
Lemma new_name_suffix (date_str : string) (i : nat) (p : path) :
  mem (Py.lower (Py.suffix (name p))) media_extensions = true ->
  Py.suffix (new_name_of date_str i p) = Py.lower (Py.suffix (name p)).
Proof.
  intros Hext. destruct (new_name_split date_str i p) as [pre [Hpre ->]].
  apply suffix_app_extension; [exact Hpre|].
  now apply media_extension_is_extension.
Qed.

(** C5 (amended): for every file a run reports on, the extension of the
    computed target name is the extension of the source in lower case,
    leading dot included. *)
Theorem target_extension_is_lowercased (P : platform) (d : dir)
    (dry rec : bool) :
  Forall (fun e => Py.suffix (ev_new_name e) =
                   Py.lower (Py.suffix (name (ev_path e))))
    (report (rename_media_in_directory P (Some d) dry rec)).
Proof.
  rewrite run_as_plan. cbv zeta. cbn [report].
  assert (H : Forall (fun pn : path * string =>
                        Py.suffix (snd pn) = Py.lower (Py.suffix (name (fst pn))))
                (map line (printed (fold_left (step P dry) (plan P d)
                                      (mk_state d 0 []))))).
  { rewrite fold_printed. simpl. apply Forall_map, Forall_forall.
    intros s Hs. destruct (plan_In P d s Hs) as [k [f [Hk [_ Hext]]]].
    unfold intent, entry_target. cbn [fst snd]. rewrite Hk.
    now apply new_name_suffix. }
  rewrite Forall_map in H. exact H.
Qed.

(** The extension [.JPG] does not survive: the photo is renamed to a name
    ending in [.jpg]. *)
Lemma upper_case_extension_is_lowered :
  report (rename_media_in_directory posix (Some upper_case_dir) false false) =
  [mk_event ["IMG_0353.JPG"] "2017-01-19 - Phone Photos (1).jpg" Renamed] /\
  Py.suffix "IMG_0353.JPG" = ".JPG"%string /\
  Py.suffix "2017-01-19 - Phone Photos (1).jpg" = ".jpg"%string /\
  Py.suffix "2017-01-19 - Phone Photos (1).jpg" <> Py.suffix "IMG_0353.JPG".
Proof.
  repeat split; try reflexivity. vm_compute. discriminate.
Qed.

End NameFacts.

(** ** Sequencing within a date group *)

Section SequenceFacts.

Import Extract Fs Renamer Plan Reference Scenario.




End SequenceFacts.

(** ** No overwriting *)

Section OverwriteFacts.

Import Extract Fs Renamer Plan Reference Scenario.

(** C2: in a directory (whose names are distinct) a run leaves every node
    where it was, with the same content, and the names stay distinct, so
    no entry has been replaced by another; no file is tried twice, each
    with the target its group number gives, and a call that completes has
    tried every discovered file; and a step whose target exists and is
    not the source itself only reports the skip: the disk and the counter
    are unchanged. *)
Theorem rename_never_overwrites (P : platform) (d : dir) (dry rec : bool) :
  NoDup (map fst d) ->
  (exists d',
      after (rename_media_in_directory P (Some d) dry rec) = Some d' /\
      map snd d' = map snd d /\ NoDup (map fst d')) /\
  (map line (report (rename_media_in_directory P (Some d) dry rec)) =
   map intent (plan P d) /\ NoDup (map entry_path (plan P d))) /\
  (raised (rename_media_in_directory P (Some d) dry rec) = None ->
   Permutation (map entry_path (plan P d))
     (map fst (find_media_files d false))) /\
  (forall st s k,
      entry_path s = [k] -> k <> entry_target s ->
      lookup (entry_target s) (disk st) <> None ->
      step P dry st s = say st [k] (entry_target s) SkippedTargetExists).
Proof.
  intros Hnd. rewrite run_as_plan. cbv zeta. cbn [after report raised].
  split; [|split; [|split]].
  - destruct (@fold_contents P dry (plan P d) (mk_state d 0 [])
                (plan_single P d)) as [Hc Hn].
    eexists. split; [reflexivity|]. split; [exact Hc | now apply Hn].
  - split; [now rewrite fold_printed | now apply plan_nodup].
  - intros Hnone.
    rewrite <- (dated_files_paths P _ (returns_dated P d Hnone)).
    pose proof (Permutation_map fst (plan_perm P d Hnone)) as Hp.
    rewrite map_map in Hp. exact Hp.
  - intros st s k Hk Hne Hex.
    destruct (step_cases P dry st s Hk)
      as [[E _]|[[_ [_ E]]|[[_ [E _]]|[[_ [E _]]|[_ [E _]]]]]];
      try contradiction; exact E.
Qed.

End OverwriteFacts.

Lemma distinct_NoDup (l : list string) : Fs.distinct l = true -> NoDup l.
Proof.
  induction l as [|x r IH]; simpl; [constructor|].
  intros H. apply andb_true_iff in H. destruct H as [Hx Hr].
  constructor; [|now apply IH].
  intros Hin. apply negb_true_iff in Hx.
  assert (existsb (String.eqb x) r = true); [|congruence].
  apply existsb_exists. exists x. split; [exact Hin | apply String.eqb_refl].
Qed.

Section OverwriteWitness.

Import Extract Fs Renamer Plan Reference Scenario.

Lemma collide_dir_names : NoDup (map fst collide_dir).
Proof. apply distinct_NoDup. reflexivity. Qed.

Lemma rename_never_overwrites_witness :
  exists d',
    after (rename_media_in_directory posix (Some collide_dir) false false)
    = Some d' /\
    map snd d' = map snd collide_dir /\ NoDup (map fst d').
Proof.
  exact (proj1 (@rename_never_overwrites posix collide_dir false false
                  collide_dir_names)).
Defined.

End OverwriteWitness.

(** ** Sub-directories *)

Section DirectoryFacts.

Import Extract Fs Renamer Plan Reference Scenario.

Variable P : platform.

Lemma rename_in_place_dirs (k m : string) (d : dir) :
  (forall e, In e d -> fst e = k -> is_dir e = false) ->
  filter is_dir (rename_in_place k m d) = filter is_dir d.
Proof.
  induction d as [|[n x] r IH]; intros H; simpl; [reflexivity|].
  rewrite IH by (intros e He; apply H; now right).
  destruct (String.eqb_spec n k) as [->|_]; [|reflexivity].
  assert (Hx := H (k, x) (or_introl eq_refl) eq_refl).
  unfold is_dir in *. simpl in *. now rewrite Hx.
Qed.

Lemma rename_in_place_other (k m n : string) (x : node) (d : dir) :
  n <> k -> In (n, x) d -> In (n, x) (rename_in_place k m d).
Proof.
  intros Hne Hin. unfold rename_in_place. apply in_map_iff.
  exists (n, x). split; [|exact Hin]. simpl.
  now destruct (String.eqb_spec n k).
Qed.

(** Files still to be processed keep their names, and sub-directories are
    never renamed. *)
Lemma fold_dirs (dry : bool) (l : list entry) (st : state) :
  NoDup (map fst (disk st)) ->
  NoDup (map entry_path l) ->
  Forall (fun s => exists k f, entry_path s = [k] /\
                               In (k, File f) (disk st)) l ->
  filter is_dir (disk (fold_left (step P dry) l st)) = filter is_dir (disk st).
Proof.
  revert st. induction l as [|s r IH]; intros st Hnd Hp Hall; [reflexivity|].
  simpl. inversion Hall as [|? ? [k [f [Hk Hin]]] Hr]; subst.
  simpl in Hp. inversion Hp as [|? ? Hnotin Hp']; subst.
  destruct (step_disk P dry st s Hk) as [Hd|[Hm Hd]].
  - rewrite IH; rewrite ?Hd; auto.
  - rewrite IH; rewrite ?Hd.
    + apply rename_in_place_dirs. intros [n x] He Hn. simpl in Hn. subst n.
      apply (In_lookup _ _ _ Hnd) in He. apply (In_lookup _ _ _ Hnd) in Hin.
      rewrite He in Hin. injection Hin as ->. reflexivity.
    + now apply rename_in_place_nodup.
    + exact Hp'.
    + rewrite Forall_forall in *. intros s' Hs'.
      destruct (Hr s' Hs') as [k' [f' [Hk' Hin']]].
      exists k', f'. split; [exact Hk'|].
      apply rename_in_place_other; [|exact Hin'].
      intros ->. apply Hnotin. rewrite Hk, <- Hk'. now apply in_map.
Qed.

(** C10: the [recursive] argument has no effect on the call, whatever the
    directory and the mode.  Only direct children of the directory that
    are regular files are reported on and counted, and the
    sub-directories, with everything below them, are after the call what
    they were before, also when [recursive] is true. *)
Theorem recursive_flag_is_ignored (d : dir) (dry rec : bool) :
  NoDup (map fst d) ->
  (forall directory : option dir,
      rename_media_in_directory P directory dry rec =
      rename_media_in_directory P directory dry false) /\
  Forall (fun e => exists k f, ev_path e = [k] /\ In (k, File f) d)
    (report (rename_media_in_directory P (Some d) dry rec)) /\
  total_files (rename_media_in_directory P (Some d) dry rec) =
  match raised (rename_media_in_directory P (Some d) dry rec) with
  | None => List.length (find_media_files d false)
  | Some _ => 0
  end /\
  exists d',
    after (rename_media_in_directory P (Some d) dry rec) = Some d' /\
    filter is_dir d' = filter is_dir d.
Proof.
  intros Hnd. split; [reflexivity|].
  rewrite run_as_plan. cbv zeta. cbn [report total_files after raised].
  split; [|split; [reflexivity|]].
  - assert (H : Forall (fun pn : path * string =>
                          exists k f, fst pn = [k] /\ In (k, File f) d)
                  (map line (printed (fold_left (step P dry) (plan P d)
                                        (mk_state d 0 []))))).
    { rewrite fold_printed. simpl. apply Forall_map, Forall_forall.
      intros s Hs. destruct (plan_In P d s Hs) as [k [f [Hk [Hin _]]]].
      now exists k, f. }
    rewrite Forall_map in H. exact H.
  - eexists. split; [reflexivity|].
    apply (@fold_dirs dry (plan P d) (mk_state d 0 [])).
    + exact Hnd.
    + now apply plan_nodup.
    + apply Forall_forall. intros s Hs.
      destruct (plan_In P d s Hs) as [k [f [Hk [Hin _]]]]. now exists k, f.
Qed.

End DirectoryFacts.

Section DirectoryExamples.

Import Extract Fs Renamer Plan Reference Scenario.

Lemma mixed_dir_names : NoDup (map fst mixed_dir).
Proof. apply distinct_NoDup. reflexivity. Qed.

Lemma recursive_flag_is_ignored_witness :
  exists d',
    after (rename_media_in_directory posix (Some mixed_dir) false true)
    = Some d' /\
    filter is_dir d' = filter is_dir mixed_dir.
Proof.
  exact (proj2 (proj2 (proj2 (@recursive_flag_is_ignored posix mixed_dir
                                false true mixed_dir_names)))).
Defined.

(** A recursive discovery would list the photo of the sub-directory; the
    call with [recursive=True] neither counts nor renames it. *)
Example nested_photo_is_left_alone :
  map fst (find_media_files mixed_dir true) =
  [["img1.jpg"]; ["img2.jpg"]; ["vid1.mov"]; ["2024"; "IMG_003.jpg"]]%string /\
  total_files (rename_media_in_directory posix (Some mixed_dir) false true) = 3 /\
  map ev_path
    (report (rename_media_in_directory posix (Some mixed_dir) false true)) =
  [["img1.jpg"]; ["vid1.mov"]; ["img2.jpg"]]%string.
Proof. repeat split. Qed.

End DirectoryExamples.

(** ** Collisions *)

Section CollisionFacts.

Import Extract Fs Renamer Plan Reference Scenario.

(** C4 (amended): when the date group of a day consists of one file only
    and the name due to it, number 1, exists already and is not the file
    itself, the group is processed without any change: the file keeps its
    name, no other number is tried, nothing is counted as renamed, and the
    directory, the existing file included, is what it was; the skip is
    reported. *)
Theorem sole_entry_is_skipped_on_collision (P : platform) (dry : bool)
    (st : state) (date_str k : string) (t : datetime) :
  k <> new_name_of date_str 1 [k] ->
  lookup (new_name_of date_str 1 [k]) (disk st) <> None ->
  exists st',
    rename_group P dry st (date_str, [([k], t)]) = Ok st' /\
    disk st' = disk st /\
    total_renamed st' = total_renamed st /\
    printed st' =
    (printed st ++
     [mk_event [k] (new_name_of date_str 1 [k]) SkippedTargetExists])%list.
Proof.
  intros Hne Hex.
  exists (step P dry st (date_str, (1, ([k], t)))).
  split; [reflexivity|].
  destruct (@step_cases P dry st (date_str, (1, ([k], t))) k eq_refl)
    as [[E _]|[[_ [_ E]]|[[_ [E _]]|[[_ [E _]]|[_ [E _]]]]]];
    try contradiction.
  rewrite E. repeat split.
Qed.

Lemma sole_entry_is_skipped_on_collision_witness :
  exists st',
    rename_group posix false (mk_state collide_dir 0 [])
      ("2023-01-15", [(["IMG_001.jpg"],
                       Datetime.mk_datetime 2023 1 15 10 0 0 0)])%string
    = Ok st' /\
    disk st' = collide_dir.
Proof.
  destruct (@sole_entry_is_skipped_on_collision posix false
              (mk_state collide_dir 0 []) "2023-01-15" "IMG_001.jpg"
              (Datetime.mk_datetime 2023 1 15 10 0 0 0))
    as [st' [E [Hd _]]].
  - vm_compute. discriminate.
  - vm_compute. discriminate.
  - exists st'. split; [exact E | exact Hd].
Defined.

(** The new photo is alone in the group of 2023-01-15 and the first name of
    that day is taken: after the run it still has its own name and no
    file bears number 2. *)
Lemma sole_entry_does_not_get_number_two :
  map fst (groups posix collide_dir) = ["2023-01-15"; "2023-06-01"]%string /\
  map line (report (rename_media_in_directory posix (Some collide_dir)
                      false false)) =
  [(["IMG_001.jpg"], "2023-01-15 - Phone Photos (1).jpg");
   (["2023-01-15 - Phone Photos (1).jpg"],
    "2023-06-01 - Phone Photos (1).jpg")]%string /\
  map ev_outcome (report (rename_media_in_directory posix (Some collide_dir)
                            false false)) =
  [SkippedTargetExists; Renamed] /\
  option_map (map fst)
    (after (rename_media_in_directory posix (Some collide_dir) false false)) =
  Some ["IMG_001.jpg"; "2023-06-01 - Phone Photos (1).jpg"]%string /\
  option_map (lookup "2023-01-15 - Phone Photos (2).jpg")
    (after (rename_media_in_directory posix (Some collide_dir) false false)) =
  Some None.
Proof. repeat split. Qed.

(** Number 2 is given when the file that bears the first name belongs to
    the same day and comes first: the new photo is then the second entry
    of the group. *)
Example second_entry_gets_number_two :
  map line (report (rename_media_in_directory posix (Some same_day_dir)
                      false false)) =
  [(["2023-01-15 - Phone Photos (1).jpg"], "2023-01-15 - Phone Photos (1).jpg");
   (["IMG_001.jpg"], "2023-01-15 - Phone Photos (2).jpg")]%string /\
  map ev_outcome (report (rename_media_in_directory posix (Some same_day_dir)
                            false false)) =
  [AlreadyNamed; Renamed].
Proof. repeat split. Qed.

End CollisionFacts.

(** ** Running twice *)

Section RenamingFacts.

Import Extract Fs Renamer Plan Renaming.
Local Open Scope list_scope.

Lemma assoc_app {V} (k : string) (a b : list (string * V)) :
  assoc k (a ++ b) =
  match assoc k a with
  | Some v => Some v
  | None => assoc k b
  end.
Proof.
  induction a as [|[k' v] r IH]; simpl; [reflexivity|].
  now destruct (String.eqb k' k).
Qed.

Lemma assoc_absent {V} (k : string) (l : list (string * V)) :
  ~ In k (map fst l) -> assoc k l = None.
Proof.
  induction l as [|[k' v] r IH]; simpl; [reflexivity|].
  intros H. destruct (String.eqb_spec k' k) as [->|_].
  - exfalso. apply H. now left.
  - apply IH. intros Hin. apply H. now right.
Qed.

Lemma assoc_found {V} (k : string) (v : V) (l : list (string * V)) :
  assoc k l = Some v -> In (k, v) l.
Proof.
  induction l as [|[k' v'] r IH]; simpl; [discriminate|].
  destruct (String.eqb_spec k' k) as [->|_].
  - intros [= ->]. now left.
  - intros H. right. now apply IH.
Qed.

Lemma apply_ren_snoc (ren : renaming) (k m n : string) :
  apply_ren (ren ++ [(k, m)]) n =
  match assoc n ren with
  | Some x => x
  | None => if String.eqb k n then m else n
  end.
Proof.
  unfold apply_ren. rewrite assoc_app. simpl.
  destruct (assoc n ren); [reflexivity|]. now destruct (String.eqb k n).
Qed.

Lemma NoDup_map_injective {X Y} (f : X -> Y) (l : list X) (a b : X) :
  NoDup (map f l) -> In a l -> In b l -> f a = f b -> a = b.
Proof.
  induction l as [|x r IH]; simpl; [easy|].
  intros Hnd Ha Hb Hf. inversion Hnd as [|? ? Hx Hr]; subst.
  destruct Ha as [->|Ha], Hb as [->|Hb]; auto.
  - exfalso. apply Hx. rewrite Hf. now apply in_map.
  - exfalso. apply Hx. rewrite <- Hf. now apply in_map.
Qed.

Lemma rename_all_nil (d : dir) : rename_all [] d = d.
Proof.
  unfold rename_all. rewrite <- (map_id d) at 2. apply map_ext.
  now intros [n x].
Qed.

Lemma rename_all_names (ren : renaming) (d : dir) :
  map fst (rename_all ren d) = map (apply_ren ren) (map fst d).
Proof. unfold rename_all. now rewrite !map_map. Qed.

(** One more file renamed, to a name that was free. *)
Lemma rename_all_snoc (ren : renaming) (k m : string) (d : dir) :
  NoDup (map fst (rename_all ren d)) ->
  In k (map fst d) -> assoc k ren = None ->
  rename_in_place k m (rename_all ren d) = rename_all (ren ++ [(k, m)]) d.
Proof.
  intros Hnd Hk Hnone. rewrite rename_all_names in Hnd.
  unfold rename_in_place, rename_all.
  rewrite map_map. apply map_ext_in. intros [n x] He. cbn [fst snd].
  rewrite apply_ren_snoc.
  assert (Hkk : apply_ren ren k = k) by (unfold apply_ren; now rewrite Hnone).
  destruct (String.eqb_spec (apply_ren ren n) k) as [Heq|Hne].
  - assert (n = k).
    { apply (NoDup_map_injective _ _ _ _ Hnd); auto.
      - now apply (in_map fst) in He.
      - congruence. }
    subst n. now rewrite Hnone, String.eqb_refl.
  - unfold apply_ren in *. destruct (assoc n ren); [reflexivity|].
    destruct (String.eqb_spec k n); [congruence | reflexivity].
Qed.

(** The same file renamed to its own name. *)
Lemma rename_all_snoc_same (ren : renaming) (k : string) (d : dir) :
  rename_all (ren ++ [(k, k)]) d = rename_all ren d.
Proof.
  unfold rename_all. apply map_ext. intros [n x]. cbn [fst snd].
  rewrite apply_ren_snoc. unfold apply_ren.
  destruct (assoc n ren); [reflexivity|].
  destruct (String.eqb_spec k n); congruence.
Qed.

End RenamingFacts.

Section FirstRunFacts.

Import Extract Fs Renamer Plan Renaming.
Local Open Scope list_scope.

Variable P : platform.

Lemma fold_printed_prefix (dry : bool) (l : list entry) (st : state) :
  exists tail, printed (fold_left (step P dry) l st) = printed st ++ tail.
Proof.
  revert st. induction l as [|s r IH]; intros st; simpl.
  - exists []. now rewrite app_nil_r.
  - destruct (IH (step P dry st s)) as [tail ->].
    destruct (step_printed P dry st s) as [o ->].
    eexists. now rewrite <- app_assoc.
Qed.

(** A run in which nothing was skipped and no rename failed gives every
    file of the plan its target name, in place. *)
Lemma fold_went_through (d0 : dir) (l done : list entry) (st : state) :
  NoDup (map (fun s => name (entry_path s)) (done ++ l)) ->
  Forall (fun s => exists k, entry_path s = [k] /\ In k (map fst d0)) l ->
  disk st = rename_all (ren_of done) d0 ->
  NoDup (map fst (disk st)) ->
  Forall went_through (printed (fold_left (step P false) l st)) ->
  disk (fold_left (step P false) l st) = rename_all (ren_of (done ++ l)) d0.
Proof.
  revert done st. induction l as [|s r IH]; intros done st Hnd Hall Hd Hn Hok.
  - simpl. now rewrite app_nil_r.
  - simpl in *. inversion Hall as [|? ? [k [Hk Hin]] Hr]; subst.
    assert (Hdone : ren_of (done ++ [s]) =
                    ren_of done ++ [(k, entry_target s)]).
    { unfold ren_of. rewrite map_app. simpl. now rewrite Hk. }
    assert (Hfresh : assoc k (ren_of done) = None).
    { apply assoc_absent. unfold ren_of. rewrite map_map. simpl.
      rewrite map_app in Hnd. simpl in Hnd.
      apply NoDup_remove_2 in Hnd. rewrite Hk in Hnd. simpl in Hnd.
      intros Hc. apply Hnd. apply in_or_app. now left. }
    assert (Hs : Forall went_through (printed (step P false st s))).
    { destruct (fold_printed_prefix false r (step P false st s)) as [tail Ht].
      rewrite Ht in Hok. now apply Forall_app in Hok. }
    replace (done ++ s :: r) with ((done ++ [s]) ++ r)
      by (now rewrite <- app_assoc).
    replace (done ++ s :: r) with ((done ++ [s]) ++ r) in Hnd
      by (now rewrite <- app_assoc).
    destruct (step_cases P false st s Hk)
      as [[Hkm E]|[[_ [_ E]]|[[_ [_ [E _]]]|[[_ [_ [_ E]]]|[Hkm [Hm [_ [_ E]]]]]]]].
    + apply IH; auto.
      * rewrite E. simpl. rewrite Hd, Hdone, <- Hkm.
        now rewrite rename_all_snoc_same.
      * rewrite E. exact Hn.
    + rewrite E in Hs. simpl in Hs. apply Forall_app in Hs.
      destruct Hs as [_ Hs]. inversion Hs as [|? ? [Hbad _] _]; subst.
      now contradiction Hbad.
    + discriminate.
    + rewrite E in Hs. simpl in Hs. apply Forall_app in Hs.
      destruct Hs as [_ Hs]. inversion Hs as [|? ? [_ Hbad] _]; subst.
      now contradiction Hbad.
    + apply IH; auto.
      * rewrite E. simpl. rewrite Hd, Hdone.
        apply rename_all_snoc; auto. now rewrite <- Hd.
      * rewrite E. simpl. now apply rename_in_place_nodup.
Qed.

End FirstRunFacts.

Section SecondRunFacts.

Import Extract Fs Renamer Plan Renaming.
Local Open Scope list_scope.

Variable P : platform.

(** The date of a file and its new name depend on its name only through
    the lower-cased extension. *)
Lemma resolve_date_ext (a b : string) (f : fdata) :
  Py.lower (Py.suffix a) = Py.lower (Py.suffix b) ->
  resolve_date P a f = resolve_date P b f.
Proof.
  intros H. unfold resolve_date, get_date_taken. now rewrite H.
Qed.

Lemma new_name_of_ext (date_str : string) (i : nat) (p q : path) :
  Py.lower (Py.suffix (name p)) = Py.lower (Py.suffix (name q)) ->
  new_name_of date_str i p = new_name_of date_str i q.
Proof.
  intros H. unfold new_name_of. now rewrite H.
Qed.

Lemma ren_of_target (l : list entry) (s : entry) :
  NoDup (map (fun s => name (entry_path s)) l) -> In s l ->
  apply_ren (ren_of l) (name (entry_path s)) = entry_target s.
Proof.
  induction l as [|a r IH]; simpl; [easy|].
  intros Hnd Hin. inversion Hnd as [|? ? Ha Hr]; subst.
  unfold apply_ren. simpl.
  destruct Hin as [->|Hin].
  - now rewrite String.eqb_refl.
  - destruct (String.eqb_spec (name (entry_path a)) (name (entry_path s)))
      as [Heq|_].
    + exfalso. apply Ha. rewrite Heq.
      now apply (in_map (fun s => name (entry_path s))).
    + now apply IH.
Qed.

Lemma find_media_files_mapped (rho : string -> string) (d : dir) :
  (forall n, Py.lower (Py.suffix (rho n)) = Py.lower (Py.suffix n)) ->
  find_media_files (map (fun e => (rho (fst e), snd e)) d) false =
  map (fun pf => (map rho (fst pf), snd pf)) (find_media_files d false).
Proof.
  intros Hrho. rewrite !find_media_files_flat.
  induction d as [|[n x] r IH]; simpl; [reflexivity|].
  rewrite map_app, IH. f_equal.
  unfold media_file. cbn [fst snd].
  change (name [rho n]) with (rho n). change (name [n]) with n.
  rewrite Hrho. destruct x; [|reflexivity].
  now destruct (mem (Py.lower (Py.suffix n)) media_extensions).
Qed.

Section OneDirectory.

Variable d : dir.
Let ren : renaming := ren_of (plan P d).

(** The targets of the plan keep the lower-cased extension. *)
Lemma ren_keeps_extension (n : string) :
  Py.lower (Py.suffix (apply_ren ren n)) = Py.lower (Py.suffix n).
Proof.
  unfold apply_ren. destruct (assoc n ren) as [m|] eqn:Hm; [|reflexivity].
  apply assoc_found in Hm. unfold ren, ren_of in Hm.
  apply in_map_iff in Hm. destruct Hm as [s [[= Hn Ht] Hs]].
  destruct (plan_In P d s Hs) as [k [f [Hk [_ Hext]]]].
  rewrite Hk in Hn. simpl in Hn. subst n m.
  unfold entry_target. rewrite Hk.
  rewrite (new_name_suffix _ _ [k] Hext). apply lower_idem.
Qed.

Lemma find_media_files_renamed :
  find_media_files (rename_all ren d) false =
  map (move_file ren) (find_media_files d false).
Proof.
  apply (find_media_files_mapped (apply_ren ren)), ren_keeps_extension.
Qed.

Lemma dated_files_renamed (media : list (path * fdata)) :
  (forall p f, In (p, f) media -> exists k, p = [k]) ->
  dated_files P (map (move_file ren) media) =
  (xs <- dated_files P media ;; Ok (map (move_item ren) xs)).
Proof.
  induction media as [|[p f] r IH]; intros H; [reflexivity|].
  destruct (H p f (or_introl eq_refl)) as [k ->].
  cbn [map dated_files move_file fst snd].
  change (name [apply_ren ren k]) with (apply_ren ren k).
  change (name [k]) with k.
  rewrite (resolve_date_ext _ k f (ren_keeps_extension k)).
  destruct (resolve_date P k f) as [t|e]; [|reflexivity].
  cbn [bind]. rewrite IH by (intros p' f' Hin; apply (H p' f'); now right).
  now destruct (dated_files P r).
Qed.

Lemma dated_renamed :
  dated P (rename_all ren d) =
  (xs <- dated P d ;; Ok (map (move_item ren) xs)).
Proof.
  unfold dated. rewrite find_media_files_renamed.
  apply dated_files_renamed. intros p f Hin.
  destruct (find_media_files_In _ _ _ Hin) as [k [-> _]]. now exists k.
Qed.

Lemma resolved_renamed :
  resolved P (rename_all ren d) = map (move_item ren) (resolved P d).
Proof.
  unfold resolved. rewrite dated_renamed. now destruct (dated P d).
Qed.

End OneDirectory.

Lemma dict_append_moved (ren : renaming) (k : string) (v : path * datetime)
    (m : list (string * list (path * datetime))) :
  dict_append k (move_item ren v) (map (move_group ren) m) =
  map (move_group ren) (dict_append k v m).
Proof.
  induction m as [|[k' l] r IH]; simpl; [reflexivity|].
  destruct (String.eqb k' k); simpl.
  - unfold move_group at 2. cbn [fst snd]. now rewrite map_app.
  - now rewrite IH.
Qed.

Lemma fold_groups_moved (ren : renaming) (xs : list (path * datetime))
    (acc : list (string * list (path * datetime))) :
  fold_left (fun m x => dict_append (Datetime.strftime_day (snd x)) x m)
    (map (move_item ren) xs) (map (move_group ren) acc) =
  map (move_group ren)
    (fold_left (fun m x => dict_append (Datetime.strftime_day (snd x)) x m)
       xs acc).
Proof.
  revert acc. induction xs as [|x xs IH]; intros acc; simpl; [reflexivity|].
  rewrite <- IH. f_equal. apply dict_append_moved.
Qed.

Lemma numbered_moved (ren : renaming) (g : string * list (path * datetime)) :
  numbered (move_group ren g) = map (move_entry ren) (numbered g).
Proof.
  unfold numbered, move_group, earlier. cbn [fst snd].
  rewrite (sort_map (fun a b : path * datetime => Datetime.ltb (snd a) (snd b))
             (fun a b : path * datetime => Datetime.ltb (snd a) (snd b))
             (move_item ren)) by reflexivity.
  rewrite enumerate_map, !map_map. reflexivity.
Qed.

Lemma flat_numbered_moved (ren : renaming)
    (gs : list (string * list (path * datetime))) :
  flat_map numbered (map (move_group ren) gs) =
  map (move_entry ren) (flat_map numbered gs).
Proof.
  induction gs as [|g r IH]; simpl; [reflexivity|].
  now rewrite map_app, IH, numbered_moved.
Qed.

Lemma sort_by_time_moved (ren : renaming) (l : list (path * datetime)) :
  sort_by_time (map (move_item ren) l) =
  (r <- sort_by_time l ;; Ok (map (move_item ren) r)).
Proof.
  unfold sort_by_time. now apply sort_r_map.
Qed.

Lemma sortable_moved (ren : renaming) (g : string * list (path * datetime)) :
  sortable (move_group ren g) = sortable g.
Proof.
  unfold sortable, move_group. cbn [snd]. rewrite sort_by_time_moved.
  now destruct (sort_by_time (snd g)).
Qed.

Lemma processed_moved (ren : renaming)
    (gs : list (string * list (path * datetime))) :
  processed (map (move_group ren) gs) = map (move_group ren) (processed gs).
Proof.
  induction gs as [|g r IH]; [reflexivity|].
  cbn [map processed]. rewrite sortable_moved.
  destruct (sortable g); [|reflexivity]. cbn [map]. now rewrite IH.
Qed.

Lemma sort_failure_moved (ren : renaming)
    (gs : list (string * list (path * datetime))) :
  sort_failure (map (move_group ren) gs) = sort_failure gs.
Proof.
  induction gs as [|g r IH]; [reflexivity|].
  cbn [map sort_failure]. unfold move_group at 1. cbn [snd].
  rewrite sort_by_time_moved.
  now destruct (sort_by_time (snd g)).
Qed.

Lemma day_groups_renamed (d : dir) :
  day_groups P (rename_all (ren_of (plan P d)) d) =
  map (move_group (ren_of (plan P d))) (day_groups P d).
Proof.
  set (ren := ren_of (plan P d)).
  unfold day_groups, grouped.
  unfold ren. rewrite resolved_renamed. fold ren.
  pose proof (fold_groups_moved ren (resolved P d) []) as Hf.
  change (map (move_group ren) []) with
    (@nil (string * list (path * datetime))) in Hf.
  rewrite Hf.
  unfold sorted_items.
  apply (sort_map (fun a b : string * list (path * datetime) =>
                     String.ltb (fst a) (fst b))
           (fun a b : string * list (path * datetime) =>
              String.ltb (fst a) (fst b))
           (move_group ren)).
  reflexivity.
Qed.

Lemma failure_renamed (d : dir) :
  failure P (rename_all (ren_of (plan P d)) d) = failure P d.
Proof.
  unfold failure. rewrite dated_renamed, day_groups_renamed.
  destruct (dated P d) as [xs|e]; [|reflexivity].
  cbn [bind]. apply sort_failure_moved.
Qed.

Lemma plan_renamed (d : dir) :
  plan P (rename_all (ren_of (plan P d)) d) =
  map (move_entry (ren_of (plan P d))) (plan P d).
Proof.
  set (ren := ren_of (plan P d)).
  assert (Hg : groups P (rename_all ren d) = map (move_group ren) (groups P d)).
  { unfold groups, ren. rewrite day_groups_renamed. apply processed_moved. }
  unfold plan at 1. rewrite Hg. apply flat_numbered_moved.
Qed.

(** Steps on files that bear their target name only print. *)
Lemma fold_all_named (dry : bool) (l : list entry) (st : state) :
  Forall (fun s => name (entry_path s) = entry_target s) l ->
  fold_left (step P dry) l st =
  mk_state (disk st) (total_renamed st)
    (printed st ++
     map (fun s => mk_event (entry_path s) (entry_target s) AlreadyNamed) l).
Proof.
  revert st. induction l as [|s r IH]; intros st Hall; simpl.
  - rewrite app_nil_r. now destruct st.
  - inversion Hall as [|? ? Hs Hr]; subst. rewrite (IH _ Hr).
    assert (E : step P dry st s =
                say st (entry_path s) (entry_target s) AlreadyNamed).
    { destruct s as [ds [i [p t]]].
      unfold step, rename_step, entry_target, entry_path, entry_day,
        entry_seq in *. cbn [fst snd] in *.
      now rewrite Hs, String.eqb_refl. }
    rewrite E. simpl. now rewrite <- app_assoc.
Qed.

End SecondRunFacts.

Section Idempotence.

Import Extract Fs Renamer Plan Renaming Reference Scenario.
Local Open Scope list_scope.

Lemma plan_names_nodup (P : platform) (d : dir) :
  NoDup (map fst d) ->
  NoDup (map (fun s => name (entry_path s)) (plan P d)).
Proof.
  intros Hnd. apply (NoDup_map_inv (fun n : string => [n])).
  rewrite map_map.
  rewrite (map_ext_in _ entry_path); [now apply plan_nodup|].
  intros s Hs. destruct (plan_In P d s Hs) as [k [f [Hk _]]]. now rewrite Hk.
Qed.

(** After a run that went through, every step of a second plan finds its
    file under the target name. *)
Lemma second_plan_is_named (P : platform) (d : dir) :
  NoDup (map fst d) ->
  Forall (fun s => name (entry_path s) = entry_target s)
    (map (move_entry (ren_of (plan P d))) (plan P d)).
Proof.
  intros Hnd. apply Forall_map, Forall_forall. intros s Hs.
  destruct (plan_In P d s Hs) as [k [f [Hk _]]].
  destruct s as [ds [i [p t]]]. unfold entry_path in Hk. cbn [fst snd] in Hk.
  subst p.
  unfold move_entry, move_item, entry_target, entry_path, entry_day, entry_seq.
  cbn [fst snd map].
  change (name [apply_ren (ren_of (plan P d)) k])
    with (apply_ren (ren_of (plan P d)) k).
  rewrite (new_name_of_ext ds i [apply_ren (ren_of (plan P d)) k] [k])
    by apply ren_keeps_extension.
  apply (ren_of_target (plan P d) (ds, (i, ([k], t))));
    [now apply plan_names_nodup | exact Hs].
Qed.

(** C3 (amended): if the first run went through, that is, it skipped no
    file because its target existed and no rename failed, then a second
    run on the resulting directory (same files, listed in the same order)
    renames nothing: it finds every file under its computed target name,
    reports each as already correctly named, counts none as renamed and
    leaves the directory unchanged; it returns the count of files the
    first run returned, or raises what the first run raised. *)
Theorem second_run_renames_nothing (P : platform) (d : dir)
    (rec1 rec2 : bool) :
  NoDup (map fst d) ->
  Forall went_through
    (report (rename_media_in_directory P (Some d) false rec1)) ->
  renamed (rename_media_in_directory P
             (after (rename_media_in_directory P (Some d) false rec1))
             false rec2) = 0 /\
  after (rename_media_in_directory P
           (after (rename_media_in_directory P (Some d) false rec1))
           false rec2)
  = after (rename_media_in_directory P (Some d) false rec1) /\
  Forall (fun e => ev_outcome e = AlreadyNamed)
    (report (rename_media_in_directory P
               (after (rename_media_in_directory P (Some d) false rec1))
               false rec2)) /\
  total_files (rename_media_in_directory P
                 (after (rename_media_in_directory P (Some d) false rec1))
                 false rec2)
  = total_files (rename_media_in_directory P (Some d) false rec1) /\
  raised (rename_media_in_directory P
            (after (rename_media_in_directory P (Some d) false rec1))
            false rec2)
  = raised (rename_media_in_directory P (Some d) false rec1).
Proof.
  intros Hnd Hok. rewrite run_as_plan in *. cbv zeta in *.
  cbn [report after total_files raised] in *.
  assert (Hd1 : disk (fold_left (step P false) (plan P d) (mk_state d 0 []))
                = rename_all (ren_of (plan P d)) d).
  { apply (@fold_went_through P d (plan P d) [] (mk_state d 0 [])).
    - simpl. now apply plan_names_nodup.
    - apply Forall_forall. intros s Hs.
      destruct (plan_In P d s Hs) as [k [f [Hk [Hin _]]]].
      exists k. split; [exact Hk|]. now apply (in_map fst) in Hin.
    - simpl. now rewrite rename_all_nil.
    - exact Hnd.
    - exact Hok. }
  rewrite run_as_plan. cbv zeta.
  cbn [renamed after report total_files raised].
  rewrite Hd1, plan_renamed, failure_renamed.
  rewrite (@fold_all_named P false _ _ (@second_plan_is_named P d Hnd)).
  cbn [disk total_renamed printed].
  split; [reflexivity|]. split; [reflexivity|]. split; [|split].
  - simpl. apply Forall_map, Forall_forall. now intros.
  - destruct (failure P d); [reflexivity|].
    rewrite (find_media_files_renamed P d). apply length_map.
  - reflexivity.
Qed.

Lemma went_through_check (l : list event) :
  forallb went_throughb l = true -> Forall went_through l.
Proof.
  rewrite forallb_forall, Forall_forall. intros H e He.
  specialize (H e He). unfold went_throughb, went_through in *.
  destruct (ev_outcome e); split; discriminate.
Qed.

Lemma second_run_renames_nothing_witness :
  renamed (rename_media_in_directory posix
             (after (rename_media_in_directory posix (Some mixed_dir)
                       false false))
             false false) = 0.
Proof.
  apply (@second_run_renames_nothing posix mixed_dir false false).
  - apply distinct_NoDup. reflexivity.
  - apply went_through_check. reflexivity.
Defined.

(** The first run skips [IMG.jpg], whose target is still borne by the
    later photo, and gives that photo number 2; the second run then
    renames [IMG.jpg]. *)
Lemma second_run_renames_after_a_skip :
  map ev_outcome
    (report (rename_media_in_directory posix (Some late_first_dir)
               false false)) = [SkippedTargetExists; Renamed] /\
  map line
    (report (rename_media_in_directory posix
               (after (rename_media_in_directory posix (Some late_first_dir)
                         false false))
               false false)) =
  [(["IMG.jpg"], "2023-01-15 - Phone Photos (1).jpg");
   (["2023-01-15 - Phone Photos (2).jpg"],
    "2023-01-15 - Phone Photos (2).jpg")]%string /\
  map ev_outcome
    (report (rename_media_in_directory posix
               (after (rename_media_in_directory posix (Some late_first_dir)
                         false false))
               false false)) = [Renamed; AlreadyNamed] /\
  renamed (rename_media_in_directory posix
             (after (rename_media_in_directory posix (Some late_first_dir)
                       false false))
             false false) = 1 /\
  renamed (rename_media_in_directory posix
             (after (rename_media_in_directory posix (Some late_first_dir)
                       false false))
             false false) <> 0.
Proof. repeat split; try reflexivity. vm_compute. discriminate. Qed.

End Idempotence.

(** ** Python primitives on examples *)

Section PyExamples.

Example suffix_upper : Py.suffix "IMG_0353.JPG" = ".JPG"%string.
Proof. reflexivity. Qed.

Example suffix_hidden : Py.suffix ".jpg" = ""%string.
Proof. reflexivity. Qed.

Example suffix_trailing_dot : Py.suffix "a.jpg." = ""%string.
Proof. reflexivity. Qed.

Example lower_upper : Py.lower ".JPG" = ".jpg"%string.
Proof. reflexivity. Qed.

Example remove_offset :
  Py.remove_all "+00:00" "2023-01-15T14:30:45+00:00"
  = "2023-01-15T14:30:45"%string.
Proof. reflexivity. Qed.

Example str_of_nat_12 : Py.str_of_nat 12 = "12"%string.
Proof. reflexivity. Qed.

Example fromtimestamp_leap_day :
  Reference.ref_fromtimestamp 1709210096 =
  Exc.Ok (Datetime.mk_naive 2024 2 29 12 34 56 0).
Proof. reflexivity. Qed.

Example fromtimestamp_year_10000 :
  Reference.ref_fromtimestamp 253402300800 = Exc.Raise Exc.ValueError.
Proof. reflexivity. Qed.

Example fromisoformat_with_offset :
  Reference.ref_fromisoformat "2023-01-15T14:30:45+02:00" =
  Some (Datetime.mk (Datetime.mk_naive 2023 1 15 14 30 45 0)
          (Some 7200000000%Z)).
Proof. reflexivity. Qed.

Example toordinal_2023_01_15 :
  Datetime.toordinal (Datetime.mk_naive 2023 1 15 0 0 0 0) = 738535%Z.
Proof. reflexivity. Qed.

End PyExamples.

(* ===================================================================== *)
(** * Further properties of the extractors and the resolver *)
(* ===================================================================== *)

Section DispatchFacts.

Import Extract Fs Renamer Reference Scenario Cases.

(** Walks through the comparisons of an extension with literal ones. *)
Ltac by_extension ext :=
  repeat match goal with
         | |- context [String.eqb ext ?s] =>
             destruct (String.eqb_spec ext s) as [->|?]; simpl;
             try reflexivity; try discriminate
         | H : context [String.eqb ext ?s] |- _ =>
             destruct (String.eqb_spec ext s) as [->|?]; simpl in H;
             try discriminate
         end.

(** X1: the dispatcher and the discovery agree on the extensions: an
    extension is discovered exactly when one of the four extractor
    families handles it, and a name with any other extension has no
    metadata date, whatever the file holds. *)
Theorem get_date_taken_covers_discovery (P : platform) (name : string)
    (f : fdata) :
  mem (Py.lower (Py.suffix name)) media_extensions =
  (mem (Py.lower (Py.suffix name)) image_suffixes
   || String.eqb (Py.lower (Py.suffix name)) ".dng"
   || mem (Py.lower (Py.suffix name)) heic_suffixes
   || mem (Py.lower (Py.suffix name)) video_suffixes)%bool /\
  (mem (Py.lower (Py.suffix name)) media_extensions = false ->
   get_date_taken P name f = None).
Proof.
  assert (Hsame : forall ext,
             mem ext media_extensions =
             (mem ext image_suffixes || String.eqb ext ".dng"
              || mem ext heic_suffixes || mem ext video_suffixes)%bool).
  { intros ext.
    unfold mem, media_extensions, image_suffixes, heic_suffixes,
      video_suffixes.
    cbn [existsb]. by_extension ext. }
  split; [apply Hsame|].
  rewrite Hsame. unfold get_date_taken. intros H.
  apply orb_false_iff in H. destruct H as [H Hv].
  apply orb_false_iff in H. destruct H as [H Hh].
  apply orb_false_iff in H. destruct H as [Hi Hd].
  now rewrite Hi, Hd, Hh, Hv.
Qed.

Lemma get_date_taken_covers_discovery_witness :
  get_date_taken posix "notes.txt" (photo "x" "2023:01:15 08:00:00") = None.
Proof.
  apply (proj2 (get_date_taken_covers_discovery posix "notes.txt"
                  (photo "x" "2023:01:15 08:00:00"))).
  reflexivity.
Defined.

(** X2: without [pillow_heif] a HEIC or HEIF file is dated from its file
    times, whatever EXIF data it holds; with it, the file is read like any
    other image. *)
Theorem heic_depends_on_decoder (P : platform) (name : string) (f : fdata) :
  mem (Py.lower (Py.suffix name)) heic_suffixes = true ->
  (has_pillow_heif P = false ->
   resolve_date P name f = get_best_fallback_date P f) /\
  (has_pillow_heif P = true ->
   get_date_taken P name f = get_image_date_taken P (as_image f)).
Proof.
  unfold resolve_date, get_date_taken, get_heic_date_taken,
    get_image_date_taken.
  generalize (Py.lower (Py.suffix name)). intros ext H.
  assert (Hext : ext = ".heic"%string \/ ext = ".heif"%string).
  { unfold mem, heic_suffixes in H. cbn [existsb] in H.
    destruct (String.eqb_spec ext ".heic"); [now left|].
    destruct (String.eqb_spec ext ".heif"); [now right | discriminate]. }
  split; intros Hd; rewrite Hd; destruct Hext as [->| ->]; reflexivity.
Qed.

Lemma heic_depends_on_decoder_witness :
  resolve_date posix_without_decoders "IMG_7.HEIC" heic_shot =
  Ok (Datetime.mk_datetime 2023 6 1 10 30 0 0).
Proof.
  rewrite (proj1 (heic_depends_on_decoder posix_without_decoders
                    "IMG_7.HEIC" heic_shot eq_refl) eq_refl).
  reflexivity.
Defined.

(** X3: when the three file times convert, the fallback date is one of
    them and is never after the creation time nor after the modification
    time; when one of them does not convert, the fallback raises. *)
Theorem fallback_not_after_creation_or_modification (P : platform)
    (f : fdata) :
  (forall creation modification access,
      py_fromtimestamp P (st_ctime f) = Ok creation ->
      py_fromtimestamp P (st_mtime f) = Ok modification ->
      py_fromtimestamp P (st_atime f) = Ok access ->
      exists fallback,
        get_best_fallback_date P f = Ok fallback /\
        (fallback = creation \/ fallback = modification \/
         fallback = access) /\
        Datetime.lt creation fallback = Ok false /\
        Datetime.lt modification fallback = Ok false) /\
  ((forall creation modification access,
       ~ (py_fromtimestamp P (st_ctime f) = Ok creation /\
          py_fromtimestamp P (st_mtime f) = Ok modification /\
          py_fromtimestamp P (st_atime f) = Ok access)) ->
   exists e, get_best_fallback_date P f = Raise e).
Proof.
  split.
  - intros c m a Hc Hm Ha.
    assert (Hlt : forall x y, (x = c \/ x = m \/ x = a) ->
                              (y = c \/ y = m \/ y = a) ->
                              Datetime.lt x y = Ok (Datetime.ltb x y)).
    { intros x y Hx Hy. apply lt_comparable. unfold Datetime.comparable.
      assert (Hn : forall z, z = c \/ z = m \/ z = a ->
                             Datetime.utcoffset z = None).
      { intros z [->|[->| ->]];
          eapply py_fromtimestamp_naive; eassumption. }
      now rewrite (Hn x Hx), (Hn y Hy). }
    unfold get_best_fallback_date. rewrite Hc, Hm, Ha. cbn [bind].
    unfold Datetime.gtb.
    destruct (Datetime.ltb m c) eqn:Hgt.
    + exists m. split; [reflexivity|]. split; [auto|].
      rewrite !Hlt by auto. split; f_equal;
        [now apply ltb_asym | apply ltb_irrefl].
    + exists (Datetime.min3 c m a). split; [reflexivity|].
      pose proof (min3_cases c m a) as Hcase.
      destruct (min3_lower_bound c m a) as [H1 [H2 _]].
      split; [exact Hcase|].
      rewrite !Hlt by auto. now rewrite H1, H2.
  - intros Hno. unfold get_best_fallback_date.
    destruct (py_fromtimestamp P (st_ctime f)) as [c|e]; [|now exists e].
    destruct (py_fromtimestamp P (st_mtime f)) as [m|e]; [|now exists e].
    destruct (py_fromtimestamp P (st_atime f)) as [a|e]; [|now exists e].
    exfalso. now apply (Hno c m a).
Qed.

Lemma fallback_not_after_creation_or_modification_witness :
  exists fallback,
    get_best_fallback_date posix copied_png = Ok fallback /\
    Datetime.lt (Datetime.mk_datetime 2023 1 15 10 30 0 0) fallback
    = Ok false.
Proof.
  destruct (proj1 (fallback_not_after_creation_or_modification posix
                     copied_png)
              (Datetime.mk_datetime 2023 6 1 10 30 0 0)
              (Datetime.mk_datetime 2023 1 15 10 30 0 0)
              (Datetime.mk_datetime 2023 6 1 10 30 0 0)
              eq_refl eq_refl eq_refl)
    as [fallback [E [_ [_ Hm]]]].
  exists fallback. split; [exact E | exact Hm].
Defined.

End DispatchFacts.

Section LoopFacts.

Import Extract.

(** A loop whose iterations either return or go on, never raising. *)
Lemma for_each_spec {X Y} (body : X -> result (option Y))
    (yields : X -> Y -> Prop) (skipped : X -> Prop) (l : list X) :
  (forall x, (exists y, body x = Ok (Some y) /\ yields x y) \/
             (body x = Ok None /\ skipped x)) ->
  (exists y pre x post,
      for_each body l = Ok (Some y) /\ l = (pre ++ x :: post)%list /\
      Forall skipped pre /\ yields x y) \/
  (for_each body l = Ok None /\ Forall skipped l).
Proof.
  intros Hbody. induction l as [|k r IH]; simpl.
  - right. split; [reflexivity | constructor].
  - destruct (Hbody k) as [[y [Hk Hy]]|[Hk Hs]]; rewrite Hk.
    + left. exists y, [], k, r.
      split; [reflexivity|]. split; [reflexivity|]. now split.
    + destruct IH as [[y [pre [x [post [Hr [-> [Hpre Hy]]]]]]]|[Hr Hall]].
      * left. exists y, (k :: pre), x, post.
        split; [exact Hr|]. split; [reflexivity|].
        split; [now constructor | exact Hy].
      * right. split; [exact Hr | now constructor].
Qed.

Lemma for_each_ext {X Y} (body body' : X -> result (option Y)) (l : list X) :
  (forall x, In x l -> body x = body' x) ->
  for_each body l = for_each body' l.
Proof.
  induction l as [|k r IH]; intros H; simpl; [reflexivity|].
  rewrite H by now left. rewrite IH; [reflexivity|].
  intros x Hx. apply H. now right.
Qed.

Lemma for_each_filter {X Y} (body : X -> result (option Y))
    (keep : X -> bool) (l : list X) :
  (forall x, keep x = false -> body x = Ok None) ->
  for_each body (filter keep l) = for_each body l.
Proof.
  intros H. induction l as [|k r IH]; simpl; [reflexivity|].
  destruct (keep k) eqn:Hk; simpl.
  - now rewrite IH.
  - now rewrite (H k Hk).
Qed.

End LoopFacts.

Section DngFacts.

Import Extract ExtractSpec Reference Scenario Cases.

Variable P : platform.

Lemma dng_tag_spec (tags : list (string * string)) (tag_name : string) :
  (exists dt, dng_tag P tags tag_name = Ok (Some dt) /\
              dng_yields P tags tag_name dt) \/
  (dng_tag P tags tag_name = Ok None /\ dng_skipped P tags tag_name).
Proof.
  unfold dng_tag, dng_skipped, dng_yields.
  destruct (assoc tag_name tags) as [s|] eqn:Ha; simpl.
  - destruct (strptime P s "%Y:%m:%d %H:%M:%S") as [dt|] eqn:Hs; simpl.
    + left. exists dt. split; [reflexivity|]. now exists s.
    + right. split; [reflexivity|]. intros dt [s' [[= <-] Hs']]. congruence.
  - right. split; [reflexivity|]. intros dt [s' [Hs' _]]. discriminate.
Qed.

(** X4: with [exifread] at hand, the DNG extractor returns the date of the
    first of [EXIF DateTimeOriginal], [EXIF DateTimeDigitized],
    [Image DateTime], in that order, that is present with a text matching
    the pattern; a tag of higher priority that is absent or malformed does
    not stop the search; without such a tag, for an unreadable file and
    without [exifread] the result is [None]. *)
Theorem dng_date_by_priority (v : dng) :
  if has_exifread P then
    match v with
    | DngUnreadable => get_dng_date_taken P v = None
    | DngTags tags =>
        match get_dng_date_taken P v with
        | Some dt =>
            exists pre tag_name post,
              dng_date_tags = (pre ++ tag_name :: post)%list /\
              Forall (dng_skipped P tags) pre /\
              dng_yields P tags tag_name dt
        | None => Forall (dng_skipped P tags) dng_date_tags
        end
    end
  else get_dng_date_taken P v = None.
Proof.
  unfold get_dng_date_taken. destruct (has_exifread P); [|reflexivity].
  destruct v as [|tags]; [reflexivity|].
  destruct (for_each_spec (dng_tag P tags) (dng_yields P tags)
              (dng_skipped P tags) dng_date_tags (dng_tag_spec tags))
    as [[dt [pre [x [post [Hr [Hl [Hpre Hy]]]]]]]|[Hr Hall]];
    rewrite Hr; simpl.
  - now exists pre, x, post.
  - exact Hall.
Qed.

End DngFacts.

Section DngExamples.

Import Extract ExtractSpec Reference Scenario Cases.

(** The malformed original date is passed over for [Image DateTime]. *)
Example dng_malformed_original_date :
  get_dng_date_taken posix (DngTags raw_tags) =
  Some (Datetime.mk_datetime 2021 2 3 4 5 6 0).
Proof. reflexivity. Qed.

End DngExamples.

Section VideoResponseFacts.

Import Extract ExtractSpec Reference Scenario Cases.

(** X5: a probe that timed out, could not be started, exited with a
    non-zero code, printed no valid JSON, or printed JSON that is not an
    object yields [None]. *)
Theorem video_malformed_response_is_none (P : platform) (p : probe) :
  well_formed_response p = false -> get_video_date_taken P p = None.
Proof.
  destruct p as [| |rc [m|]]; try reflexivity.
  - unfold well_formed_response, get_video_date_taken, video_body.
    destruct (Z.eqb rc 0); simpl; [|reflexivity].
    destruct m as [| | |s|l|kvs]; simpl; try reflexivity; try discriminate.
    + intros _. unfold scan_format, scan_streams. simpl.
      destruct (Py.is_substring "format" s); simpl; [reflexivity|].
      now destruct (Py.is_substring "streams" s).
    + intros _. unfold scan_format, scan_streams. simpl.
      destruct (existsb (is_str "format") l); simpl; [reflexivity|].
      now destruct (existsb (is_str "streams") l).
  - intros _. unfold get_video_date_taken, video_body.
    now destruct (negb (Z.eqb rc 0)).
Qed.

Lemma video_malformed_response_is_none_witness :
  get_video_date_taken posix
    (ProbeExit 0 (Some (JArr [JStr "format"; JStr "streams"]))) = None.
Proof.
  apply (video_malformed_response_is_none posix). reflexivity.
Defined.

End VideoResponseFacts.

Section IsoFacts.

Import Extract ExtractSpec Reference Scenario Cases.

Lemma prefix_empty (s : string) : prefix "" s = true.
Proof. now destruct s. Qed.

Lemma is_substring_char (c : ascii) (s : string) :
  Py.is_substring (String c "") s = Py.contains c s.
Proof.
  induction s as [|a r IH]; [reflexivity|].
  simpl. rewrite IH, prefix_empty.
  destruct (ascii_dec c a) as [->|Hne].
  - now rewrite Ascii.eqb_refl.
  - destruct (Ascii.eqb_spec a c); [congruence | reflexivity].
Qed.

Lemma contains_app (c : ascii) (a b : string) :
  Py.contains c (a ++ b) = (Py.contains c a || Py.contains c b)%bool.
Proof.
  induction a as [|x a IH]; simpl; [reflexivity|].
  now rewrite IH, orb_assoc.
Qed.

Lemma plain_contains (x : string) :
  string_forall plain_char x = true ->
  Py.contains "." x = false /\ Py.contains "Z" x = false /\
  Py.contains "+" x = false.
Proof.
  induction x as [|a r IH]; simpl; [auto|].
  intros H. apply andb_true_iff in H. destruct H as [Ha Hr].
  destruct (IH Hr) as [H1 [H2 H3]]. rewrite H1, H2, H3.
  unfold plain_char in Ha.
  apply andb_true_iff in Ha. destruct Ha as [Ha Hp].
  apply andb_true_iff in Ha. destruct Ha as [Hd Hz].
  apply negb_true_iff in Hd, Hz, Hp. now rewrite Hd, Hz, Hp.
Qed.

Lemma replace_char_absent (c : ascii) (t x : string) :
  Py.contains c x = false -> Py.replace_char c t x = x.
Proof.
  induction x as [|a r IH]; simpl; [reflexivity|].
  intros H. apply orb_false_iff in H. destruct H as [Ha Hr].
  now rewrite Ha, IH.
Qed.

Lemma replace_char_app (c : ascii) (t a b : string) :
  Py.replace_char c t (a ++ b) =
  (Py.replace_char c t a ++ Py.replace_char c t b)%string.
Proof.
  induction a as [|x a IH]; simpl; [reflexivity|].
  rewrite IH. destruct (Ascii.eqb x c); [|reflexivity].
  now rewrite string_app_assoc.
Qed.

Lemma split_head_app (c : ascii) (x r : string) :
  Py.contains c x = false -> Py.split_head c (x ++ String c r) = x.
Proof.
  induction x as [|a x IH]; simpl.
  - now rewrite Ascii.eqb_refl.
  - intros H. apply orb_false_iff in H. destruct H as [Ha Hx].
    now rewrite Ha, IH.
Qed.

(** Removing the offset from a text without a plus sign, with or without
    the offset at its end. *)
Lemma remove_offset_fuel (fuel : nat) (x : string) :
  Py.contains "+" x = false -> String.length x <= fuel ->
  Py.remove_all_fuel fuel "+00:00" x = x /\
  Py.remove_all_fuel (S fuel) "+00:00" (x ++ "+00:00") = x.
Proof.
  revert fuel. induction x as [|a r IH]; intros fuel Hc Hlen.
  - split; [now destruct fuel|]. simpl. now destruct fuel.
  - simpl in Hc, Hlen. apply orb_false_iff in Hc. destruct Hc as [Ha Hr].
    destruct fuel as [|k]; [lia|].
    destruct (IH k Hr ltac:(lia)) as [H1 H2].
    assert (Hp : forall s, prefix "+00:00" (String a s) = false).
    { intros s.
      change (prefix "+00:00" (String a s)) with
        (if ascii_dec "+" a then prefix "00:00" s else false).
      destruct (ascii_dec "+" a) as [E|_]; [|reflexivity].
      subst a. discriminate Ha. }
    split.
    + change (Py.remove_all_fuel (S k) "+00:00" (String a r)) with
        (if prefix "+00:00" (String a r)
         then Py.remove_all_fuel k "+00:00"
                (Py.drop (String.length "+00:00") (String a r))
         else String a (Py.remove_all_fuel k "+00:00" r)).
      now rewrite Hp, H1.
    + change (Py.remove_all_fuel (S (S k)) "+00:00"
                (String a r ++ "+00:00"))
        with (if prefix "+00:00" (String a (r ++ "+00:00"))
              then Py.remove_all_fuel (S k) "+00:00"
                     (Py.drop (String.length "+00:00")
                        (String a (r ++ "+00:00")))
              else String a (Py.remove_all_fuel (S k) "+00:00"
                               (r ++ "+00:00"))).
      now rewrite Hp, H2.
Qed.

Lemma iso_text_plain (x rest : string) :
  string_forall plain_char x = true ->
  iso_text x = x /\ iso_text (x ++ "Z") = x /\
  iso_text (x ++ "." ++ rest) = x.
Proof.
  intros Hx. destruct (plain_contains x Hx) as [Hdot [HZ Hplus]].
  unfold iso_text. rewrite !replace_char_app, !(replace_char_absent _ _ _ HZ).
  rewrite !is_substring_char, !contains_app, Hdot.
  cbn [orb Py.replace_char Py.contains Ascii.eqb Bool.eqb].
  repeat split.
  - unfold Py.remove_all. now apply remove_offset_fuel.
  - change ("+00:00" ++ "")%string with "+00:00"%string.
    unfold Py.remove_all. rewrite string_length_app.
    replace (String.length x + String.length "+00:00")
      with (S (String.length x + 5)) by (simpl; lia).
    apply remove_offset_fuel; [exact Hplus | lia].
  - cbn. now apply split_head_app.
Qed.

End IsoFacts.

Section IsoProbeFacts.

Import Extract ExtractSpec Reference Scenario Cases.

Variable P : platform.

Lemma parse_iso_text (v : string) :
  parse_iso P (JStr v) = py_fromisoformat P (iso_text v).
Proof.
  unfold parse_iso, iso_text. cbn [py_replace_Z bind].
  now destruct (Py.is_substring "." (Py.replace_char "Z" "+00:00" v)).
Qed.

(** An ISO text in the container-level [creation_time]. *)
Lemma format_probe_iso (v : string) :
  Py.is_substring "T" v = true ->
  get_video_date_taken P (format_probe "creation_time" v) =
  fromisoformat P (iso_text v).
Proof.
  intros HT. unfold get_video_date_taken, format_probe, video_body.
  cbn [Z.eqb negb]. unfold scan_format.
  cbn -[parse_format_value scan_streams].
  unfold parse_format_value. cbn [py_in bind]. rewrite HT, parse_iso_text.
  unfold py_fromisoformat.
  destruct (fromisoformat P (iso_text v)); reflexivity.
Qed.

(** An ISO text in the [creation_time] of the only stream. *)
Lemma stream_probe_iso (v : string) :
  Py.is_substring "T" v = true ->
  get_video_date_taken P (stream_probe "creation_time" v) =
  fromisoformat P (iso_text v).
Proof.
  intros HT. unfold get_video_date_taken, stream_probe, video_body.
  cbn [Z.eqb negb]. unfold scan_format, scan_streams.
  cbn -[parse_stream_value].
  unfold parse_stream_value. cbn [py_in bind]. rewrite HT, parse_iso_text.
  unfold py_fromisoformat.
  destruct (fromisoformat P (iso_text v)); reflexivity.
Qed.

Lemma has_T_app (x y : string) :
  Py.is_substring "T" x = true -> Py.is_substring "T" (x ++ y) = true.
Proof.
  rewrite !is_substring_char, contains_app. now intros ->.
Qed.

(** X6: for an ISO text [x] without dot, [Z] or plus sign, a trailing [Z]
    and everything from the first dot on (fractional seconds and what
    follows them) are dropped before parsing: the tag values [x], [xZ] and
    [x.rest] all give what [fromisoformat] gives for [x], in the
    container-level tags and in the stream tags alike. *)
Theorem video_iso_drops_zone_and_fraction (x rest : string) :
  string_forall plain_char x = true ->
  Py.is_substring "T" x = true ->
  (get_video_date_taken P (format_probe "creation_time" x)
   = fromisoformat P x /\
   get_video_date_taken P (format_probe "creation_time" (x ++ "Z"))
   = fromisoformat P x /\
   get_video_date_taken P (format_probe "creation_time" (x ++ "." ++ rest))
   = fromisoformat P x) /\
  (get_video_date_taken P (stream_probe "creation_time" x)
   = fromisoformat P x /\
   get_video_date_taken P (stream_probe "creation_time" (x ++ "Z"))
   = fromisoformat P x /\
   get_video_date_taken P (stream_probe "creation_time" (x ++ "." ++ rest))
   = fromisoformat P x).
Proof.
  intros Hx HT. destruct (iso_text_plain x rest Hx) as [H1 [H2 H3]].
  rewrite !format_probe_iso, !stream_probe_iso by (auto using has_T_app).
  rewrite H1, H2, H3. repeat split.
Qed.

End IsoProbeFacts.

Section IsoProbeWitness.

Import Extract ExtractSpec Reference Scenario Cases.

Lemma video_iso_drops_zone_and_fraction_witness :
  get_video_date_taken posix
    (format_probe "creation_time" ("2023-01-15T14:30:45" ++ "." ++ "000000Z"))
  = Some (Datetime.mk_datetime 2023 1 15 14 30 45 0).
Proof.
  rewrite (proj2 (proj2 (proj1
             (@video_iso_drops_zone_and_fraction posix "2023-01-15T14:30:45"
                "000000Z" eq_refl eq_refl)))).
  reflexivity.
Defined.

End IsoProbeWitness.

Section ExifTagFacts.

Import Extract ExtractSpec Reference Scenario Cases.

Variable P : platform.

Lemma ifd_get_date_tags_only (d : ifd) (tag_id : Z) :
  is_date_tag P tag_id = true ->
  ifd_get (date_tags_only P d) tag_id = ifd_get d tag_id.
Proof.
  intros Hk. unfold date_tags_only.
  induction d as [|[k v] r IH]; simpl; [reflexivity|].
  destruct (is_date_tag P k) eqn:Hd; simpl.
  - now rewrite IH.
  - destruct (Z.eqb_spec k tag_id) as [->|_]; [congruence | exact IH].
Qed.

Lemma scan_ifd_date_tags_only (d : ifd) :
  scan_ifd P (date_tags_only P d) = scan_ifd P d.
Proof.
  unfold scan_ifd.
  assert (Hkeys : map fst (date_tags_only P d) =
                  filter (is_date_tag P) (map fst d)).
  { unfold date_tags_only. induction d as [|[k v] r IH]; simpl; [reflexivity|].
    destruct (is_date_tag P k); simpl; now rewrite IH. }
  rewrite Hkeys.
  rewrite (for_each_ext (scan_tag P (date_tags_only P d)) (scan_tag P d)).
  - apply for_each_filter. intros k Hk. unfold scan_tag. now rewrite Hk.
  - intros k Hk. apply filter_In in Hk. destruct Hk as [_ Hk].
    unfold scan_tag. now rewrite ifd_get_date_tags_only.
Qed.

(** X7: tags other than [DateTime], [DateTimeOriginal] and
    [DateTimeDigitized] have no influence on the date read from an image:
    removing them from the primary directory and from the EXIF
    sub-directory leaves the result unchanged. *)
Theorem image_date_ignores_other_tags (primary : ifd) (sub : sub_ifd) :
  get_image_date_taken P
    (Exif (date_tags_only P primary) (sub_date_tags_only P sub)) =
  get_image_date_taken P (Exif primary sub).
Proof.
  unfold get_image_date_taken, exif_body.
  rewrite scan_ifd_date_tags_only.
  destruct sub as [| |d2]; try reflexivity.
  unfold sub_date_tags_only, scan_sub_ifd.
  now rewrite scan_ifd_date_tags_only.
Qed.

End ExifTagFacts.

(* ===================================================================== *)
(** * Further properties of the discovery *)
(* ===================================================================== *)

Section TreeFacts.

Import Extract Fs Renamer Plan Tree Reference Scenario Cases.

(** Induction on a tree, with the hypothesis for every entry of a
    directory. *)
Lemma node_induction (Q : node -> Prop) :
  (forall f, Q (File f)) ->
  (forall es, Forall (fun e => Q (snd e)) es -> Q (Dir es)) ->
  forall x, Q x.
Proof.
  intros Hf Hd. fix IH 1. intros [f|es].
  - apply Hf.
  - apply Hd. induction es as [|[k y] r IHr]; constructor.
    + apply IH.
    + exact IHr.
Qed.

Lemma rglob_unfold (d : dir) : rglob d = (iterdir d ++ nested d)%list.
Proof.
  unfold rglob, nested, iterdir. simpl. f_equal.
  induction d as [|[k y] r IH]; simpl; [reflexivity|]. now rewrite IH.
Qed.

Lemma well_formed_dir (es : list (string * node)) :
  well_formed (Dir es) = true ->
  NoDup (map fst es) /\ Forall (fun e => well_formed (snd e) = true) es.
Proof.
  simpl. intros H. apply andb_true_iff in H. destruct H as [Hd Hall].
  split; [now apply distinct_NoDup|].
  induction es as [|[k y] r IH]; constructor.
  - apply andb_true_iff in Hall. now destruct Hall.
  - simpl in Hd. apply andb_true_iff in Hd. destruct Hd as [_ Hd].
    apply andb_true_iff in Hall. destruct Hall as [_ Hall]. now apply IH.
Qed.

(** In a well-formed tree every listed path leads to the listed node. *)
Lemma rglob_lookup (x : node) :
  well_formed x = true ->
  forall p y, In (p, y) (rglob_node x) ->
  match x with
  | Dir es => lookup_path p es = Some y /\ p <> []
  | File _ => False
  end.
Proof.
  induction x as [f|es IH] using node_induction; intros Hwf p y Hin.
  - contradiction.
  - destruct (well_formed_dir es Hwf) as [Hnd Hall].
    change (rglob_node (Dir es)) with (rglob es) in Hin.
    rewrite rglob_unfold in Hin. apply in_app_or in Hin.
    destruct Hin as [Hin|Hin].
    + unfold iterdir in Hin. apply in_map_iff in Hin.
      destruct Hin as [[k z] [[= <- <-] Hin]]. split; [|discriminate].
      simpl. rewrite (In_lookup _ _ _ Hnd Hin). now destruct z.
    + unfold nested in Hin. apply in_flat_map in Hin.
      destruct Hin as [[k z] [Hkz Hin]]. apply in_map_iff in Hin.
      destruct Hin as [[q w] [[= <- <-] Hin]]. simpl in Hin.
      split; [|discriminate].
      rewrite Forall_forall in IH, Hall.
      specialize (IH (k, z) Hkz (Hall (k, z) Hkz) q w Hin). simpl in IH.
      destruct z as [g|sub]; [contradiction|]. destruct IH as [Hq Hne].
      simpl. rewrite (In_lookup _ _ _ Hnd Hkz). exact Hq.
Qed.

(** X8: in a tree whose directories list distinct names, every file that
    the discovery returns, recursive or not, exists at its path as a
    regular file and has a recognised extension, compared without regard
    to case. *)
Theorem discovered_files_exist (d : dir) (recursive : bool) :
  well_formed (Dir d) = true ->
  Forall (fun pf =>
            lookup_path (fst pf) d = Some (File (snd pf)) /\
            mem (Py.lower (Py.suffix (name (fst pf)))) media_extensions = true)
    (find_media_files d recursive).
Proof.
  intros Hwf. apply Forall_forall. intros [p f] Hin.
  assert (Hsrc : exists x, In (p, x) (rglob d) /\ In (p, f) (media_file (p, x))).
  { unfold find_media_files in Hin. destruct recursive.
    - apply in_flat_map in Hin. destruct Hin as [[q x] [Hq Hm]].
      assert (q = p).
      { unfold media_file in Hm. simpl in Hm. destruct x; [|contradiction].
        destruct (mem _ media_extensions); [|contradiction].
        now destruct Hm as [[= -> _]|[]]. }
      subst q. now exists x.
    - apply in_flat_map in Hin. destruct Hin as [[q x] [Hq Hm]].
      assert (q = p).
      { unfold media_file in Hm. simpl in Hm. destruct x; [|contradiction].
        destruct (mem _ media_extensions); [|contradiction].
        now destruct Hm as [[= -> _]|[]]. }
      subst q. exists x. split; [|exact Hm].
      rewrite rglob_unfold. apply in_or_app. now left. }
  destruct Hsrc as [x [Hx Hm]].
  destruct (rglob_lookup (Dir d) Hwf p x Hx) as [Hl _].
  unfold media_file in Hm. cbn [fst snd] in *.
  destruct x as [g|]; [|contradiction].
  destruct (mem _ media_extensions) eqn:Hext; [|contradiction].
  destruct Hm as [[= ->]|[]]. now split.
Qed.

Lemma mixed_dir_well_formed : well_formed (Dir mixed_dir) = true.
Proof. reflexivity. Qed.

Lemma discovered_files_exist_witness :
  Forall (fun pf =>
            lookup_path (fst pf) mixed_dir = Some (File (snd pf)) /\
            mem (Py.lower (Py.suffix (name (fst pf)))) media_extensions = true)
    (find_media_files mixed_dir true).
Proof.
  apply (@discovered_files_exist mixed_dir true). reflexivity.
Defined.

(** X9: without recursion the discovery returns exactly the direct
    children that are regular files with a recognised extension. *)
Theorem direct_media_files_are_found (d : dir) (p : path) (f : fdata) :
  In (p, f) (find_media_files d false) <->
  exists k, p = [k] /\ In (k, File f) d /\
            mem (Py.lower (Py.suffix k)) media_extensions = true.
Proof.
  split; [apply find_media_files_In|].
  intros [k [-> [Hin Hext]]]. rewrite find_media_files_flat.
  apply in_flat_map. exists (k, File f). split; [exact Hin|].
  unfold media_file. cbn [fst snd]. change (name [k]) with k.
  rewrite Hext. now left.
Qed.

(** X10: a recursive discovery returns the files of the non-recursive one
    first, in the same order, followed by files that lie below
    sub-directories. *)
Theorem recursive_discovery_extends_direct (d : dir) :
  exists below,
    find_media_files d true = (find_media_files d false ++ below)%list /\
    Forall (fun pf => 2 <= List.length (fst pf)) below.
Proof.
  exists (flat_map media_file (nested d)). split.
  - unfold find_media_files. now rewrite rglob_unfold, flat_map_app.
  - apply Forall_forall. intros [p f] Hin. apply in_flat_map in Hin.
    destruct Hin as [[q x] [Hq Hm]].
    assert (q = p).
    { unfold media_file in Hm. simpl in Hm. destruct x; [|contradiction].
      destruct (mem _ media_extensions); [|contradiction].
      now destruct Hm as [[= -> _]|[]]. }
    subst q. clear Hm. unfold nested in Hq. apply in_flat_map in Hq.
    destruct Hq as [[k z] [Hkz Hq]]. apply in_map_iff in Hq.
    destruct Hq as [[q w] [[= <- <-] Hq]]. simpl in *.
    assert (Hne : q <> []).
    { clear - Hq. destruct z as [g|es]; [contradiction|].
      change (rglob_node (Dir es)) with (rglob es) in Hq.
      rewrite rglob_unfold in Hq. apply in_app_or in Hq.
      destruct Hq as [Hq|Hq].
      - unfold iterdir in Hq. apply in_map_iff in Hq.
        now destruct Hq as [e [[= <- _] _]].
      - unfold nested in Hq. apply in_flat_map in Hq.
        destruct Hq as [e [_ Hq]]. apply in_map_iff in Hq.
        now destruct Hq as [pe [[= <- _] _]]. }
    destruct q; [contradiction | simpl; lia].
Qed.

End TreeFacts.

(* ===================================================================== *)
(** * Further properties of a run *)
(* ===================================================================== *)

Section CountFacts.

Import Extract Fs Renamer Plan Tree Renaming Reference Scenario Cases.
Local Open Scope list_scope.

Variable P : platform.

Lemma count_renamed_snoc (l : list event) (e : event) :
  count_renamed (l ++ [e]) =
  count_renamed l + match ev_outcome e with Renamed => 1 | _ => 0 end.
Proof.
  unfold count_renamed. rewrite filter_app, length_app. simpl.
  now destruct (ev_outcome e).
Qed.

Lemma step_count (dry : bool) (st : state) (s : entry) :
  total_renamed (step P dry st s) + count_renamed (printed st) =
  total_renamed st + count_renamed (printed (step P dry st s)).
Proof.
  destruct s as [ds [i [p t]]]. unfold step, rename_step, say.
  cbn [fst snd].
  destruct (String.eqb (name p) (new_name_of ds i p));
    [cbn [total_renamed printed]; rewrite count_renamed_snoc; simpl; lia|].
  destruct (path_exists _ (disk st));
    [cbn [total_renamed printed]; rewrite count_renamed_snoc; simpl; lia|].
  destruct dry;
    [cbn [total_renamed printed]; rewrite count_renamed_snoc; simpl; lia|].
  destruct (rename_path P p _ (disk st));
    cbn [total_renamed printed]; rewrite count_renamed_snoc; simpl; lia.
Qed.

Lemma fold_count (dry : bool) (l : list entry) (st : state) :
  total_renamed (fold_left (step P dry) l st) + count_renamed (printed st) =
  total_renamed st + count_renamed (printed (fold_left (step P dry) l st)).
Proof.
  revert st. induction l as [|s r IH]; intros st; simpl; [lia|].
  specialize (IH (step P dry st s)). pose proof (step_count dry st s). lia.
Qed.

Lemma resolved_length (d : dir) :
  List.length (resolved P d) <= List.length (find_media_files d false).
Proof.
  destruct (resolved_paths P d) as [->|H]; [simpl; lia|].
  apply (f_equal (@List.length path)) in H. rewrite !length_map in H. lia.
Qed.

Lemma plan_length_le (d : dir) :
  List.length (plan P d) <= List.length (find_media_files d false).
Proof.
  destruct (plan_part P d) as [rest Hp].
  apply Permutation_length in Hp. rewrite length_app, length_map in Hp.
  pose proof (resolved_length d). lia.
Qed.

Lemma plan_length (d : dir) :
  failure P d = None ->
  List.length (plan P d) = List.length (find_media_files d false).
Proof.
  intros Hf.
  rewrite <- (length_map (fun s : entry => snd (snd s)) (plan P d)).
  rewrite (Permutation_length (plan_perm P d Hf)).
  rewrite <- (length_map fst (resolved P d)).
  rewrite (dated_files_paths P _ (returns_dated P d Hf)).
  apply length_map.
Qed.

(** X11: the counts a call returns agree with what it did: the total is
    the number of discovered media files, one line is printed for each of
    them, the renamed count is the number of lines that report a rename,
    and it never exceeds the total.  A call that raises returns no
    counts: it has printed a line for some of the discovered files only,
    and has renamed as many files as lines report. *)
Theorem returned_counts_match_report (d : dir) (dry rec : bool) :
  match raised (rename_media_in_directory P (Some d) dry rec) with
  | None =>
      total_files (rename_media_in_directory P (Some d) dry rec)
      = List.length (find_media_files d false) /\
      List.length (report (rename_media_in_directory P (Some d) dry rec))
      = total_files (rename_media_in_directory P (Some d) dry rec) /\
      renamed (rename_media_in_directory P (Some d) dry rec)
      <= total_files (rename_media_in_directory P (Some d) dry rec)
  | Some _ =>
      total_files (rename_media_in_directory P (Some d) dry rec) = 0 /\
      List.length (report (rename_media_in_directory P (Some d) dry rec))
      <= List.length (find_media_files d false)
  end /\
  renamed (rename_media_in_directory P (Some d) dry rec)
  = count_renamed (report (rename_media_in_directory P (Some d) dry rec)).
Proof.
  rewrite run_as_plan. cbv zeta. cbn [total_files report renamed raised].
  assert (Hlen : List.length (printed (fold_left (step P dry) (plan P d)
                                         (mk_state d 0 [])))
                 = List.length (plan P d)).
  { rewrite <- (length_map line), fold_printed. simpl.
    now rewrite length_map. }
  pose proof (fold_count dry (plan P d) (mk_state d 0 [])) as Hc.
  cbn [total_renamed printed] in Hc. unfold count_renamed at 1 in Hc.
  simpl in Hc.
  assert (Hle : forall l, count_renamed l <= List.length l).
  { intros l. unfold count_renamed. apply filter_length_le. }
  specialize (Hle (printed (fold_left (step P dry) (plan P d)
                              (mk_state d 0 [])))).
  split; [|lia].
  destruct (failure P d) eqn:Hf.
  - split; [reflexivity|]. pose proof (plan_length_le d). lia.
  - pose proof (plan_length d Hf). repeat split; lia.
Qed.

End CountFacts.

Section UntouchedFacts.

Import Extract Fs Renamer Plan Tree Renaming Reference Scenario Cases.
Local Open Scope list_scope.

Variable P : platform.

Lemma rename_in_place_filter (keep : string * node -> bool) (k m : string)
    (d : dir) :
  (forall e, In e d -> fst e = k ->
             keep e = false /\ keep (m, snd e) = false) ->
  filter keep (rename_in_place k m d) = filter keep d.
Proof.
  induction d as [|[n x] r IH]; intros H; simpl; [reflexivity|].
  rewrite IH by (intros e He; apply H; now right).
  destruct (String.eqb_spec n k) as [->|_]; [|reflexivity].
  destruct (H (k, x) (or_introl eq_refl) eq_refl) as [H1 H2].
  simpl in H2. now rewrite H1, H2.
Qed.

(** Entries that a filter keeps are not disturbed by steps on files that
    the filter drops under their old and under their new name. *)
Lemma fold_filter (keep : string * node -> bool) (dry : bool)
    (l : list entry) (st : state) :
  NoDup (map fst (disk st)) ->
  NoDup (map entry_path l) ->
  Forall (fun s => exists k f,
              entry_path s = [k] /\ In (k, File f) (disk st) /\
              keep (k, File f) = false /\
              keep (entry_target s, File f) = false) l ->
  filter keep (disk (fold_left (step P dry) l st)) = filter keep (disk st).
Proof.
  revert st. induction l as [|s r IH]; intros st Hnd Hp Hall; [reflexivity|].
  simpl. inversion Hall as [|? ? [k [f [Hk [Hin [Hk1 Hk2]]]]] Hr]; subst.
  simpl in Hp. inversion Hp as [|? ? Hnotin Hp']; subst.
  destruct (step_disk P dry st s Hk) as [Hd|[Hm Hd]].
  - rewrite IH; rewrite ?Hd; auto.
  - rewrite IH; rewrite ?Hd.
    + apply rename_in_place_filter. intros [n x] He Hn. simpl in Hn. subst n.
      apply (In_lookup _ _ _ Hnd) in He. apply (In_lookup _ _ _ Hnd) in Hin.
      rewrite He in Hin. injection Hin as ->. now split.
    + now apply rename_in_place_nodup.
    + exact Hp'.
    + rewrite Forall_forall in *. intros s' Hs'.
      destruct (Hr s' Hs') as [k' [f' [Hk' [Hin' Hkeep]]]].
      exists k', f'. split; [exact Hk'|]. split; [|exact Hkeep].
      apply rename_in_place_other; [|exact Hin'].
      intros ->. apply Hnotin. rewrite Hk, <- Hk'. now apply in_map.
Qed.

(** X12: whatever the discovery passes over, sub-directories and files
    with other extensions, is in the directory after a call exactly as
    before, under the same names and in the same order; what is renamed
    remains a media file, so nothing is added to these entries either. *)
Theorem other_entries_are_untouched (d : dir) (dry rec : bool) :
  NoDup (map fst d) ->
  exists d',
    after (rename_media_in_directory P (Some d) dry rec) = Some d' /\
    filter not_media d' = filter not_media d.
Proof.
  intros Hnd. rewrite run_as_plan. cbv zeta. cbn [after].
  eexists. split; [reflexivity|].
  apply (@fold_filter not_media dry (plan P d) (mk_state d 0 [])).
  - exact Hnd.
  - now apply plan_nodup.
  - apply Forall_forall. intros s Hs.
    destruct (plan_In P d s Hs) as [k [f [Hk [Hin Hext]]]].
    exists k, f. split; [exact Hk|]. split; [exact Hin|].
    unfold not_media, media_file. cbn [fst snd].
    change (name [k]) with k. change (name [entry_target s])
      with (entry_target s).
    rewrite Hext. split; [reflexivity|].
    unfold entry_target. rewrite Hk.
    rewrite (new_name_suffix _ _ [k] Hext), lower_idem.
    change (name [k]) with k. now rewrite Hext.
Qed.

(** After a first run in which nothing was skipped and no rename failed,
    the directory is the original one with every planned file under its
    target name. *)
Lemma went_through_result (d : dir) :
  NoDup (map fst d) ->
  Forall went_through
    (printed (fold_left (step P false) (plan P d) (mk_state d 0 []))) ->
  disk (fold_left (step P false) (plan P d) (mk_state d 0 []))
  = rename_all (ren_of (plan P d)) d.
Proof.
  intros Hnd Hok.
  apply (@fold_went_through P d (plan P d) [] (mk_state d 0 [])).
  - simpl. now apply plan_names_nodup.
  - apply Forall_forall. intros s Hs.
    destruct (plan_In P d s Hs) as [k [f [Hk [Hin _]]]].
    exists k. split; [exact Hk|]. now apply (in_map fst) in Hin.
  - simpl. now rewrite rename_all_nil.
  - exact Hnd.
  - exact Hok.
Qed.

Lemma Forall2_member {X Y} (R : X -> Y -> Prop) (l : list X) (l' : list Y)
    (a : X) :
  Forall2 R l l' -> In a l -> exists b, In b l' /\ R a b.
Proof.
  induction 1 as [|x y l l' Hxy _ IH]; intros Hin; [contradiction|].
  destruct Hin as [->|Hin].
  - exists y. split; [now left | exact Hxy].
  - destruct (IH Hin) as [b [Hb Hab]]. exists b. split; [now right | exact Hab].
Qed.

(** A step bears the day of its timestamp. *)
Lemma plan_entry_day (d : dir) (s : entry) :
  In s (plan P d) ->
  entry_day s = Datetime.strftime_day (snd (snd (snd s))).
Proof.
  unfold plan. intros Hin. apply in_flat_map in Hin.
  destruct Hin as [g [Hg Hin]]. unfold numbered in Hin.
  apply in_map_iff in Hin. destruct Hin as [[i x] [<- Hin]].
  unfold entry_day. cbn [fst snd].
  apply (in_map snd) in Hin. rewrite enumerate_snd in Hin. cbn [snd] in Hin.
  apply sort_In in Hin.
  destruct (groups_member P d g Hg) as [Hmem _].
  rewrite Hmem in Hin. apply filter_In in Hin. destruct Hin as [_ Hx].
  unfold on_day in Hx. apply String.eqb_eq in Hx. now rewrite Hx.
Qed.

(** Every discovered file has a step of a call that completes. *)
Lemma plan_covers (d : dir) (pf : path * fdata) :
  failure P d = None -> In pf (find_media_files d false) ->
  exists s t,
    In s (plan P d) /\ snd (snd s) = (fst pf, t) /\
    resolve_date P (name (fst pf)) (snd pf) = Ok t.
Proof.
  intros Hf Hin.
  pose proof (dated_files_Ok P _ (returns_dated P d Hf)) as Hall.
  destruct (@Forall2_member _ _ _ _ _ pf Hall Hin) as [x [Hx [Hp Ht]]].
  apply (Permutation_in _ (Permutation_sym (plan_perm P d Hf))) in Hx.
  apply in_map_iff in Hx. destruct Hx as [s [Hs Hin']].
  exists s, (snd x). split; [exact Hin'|]. split; [|exact Ht].
  rewrite Hs, <- Hp. now destruct x.
Qed.

(** X13: when a run completes, skips no file on a collision and no
    rename fails, every discovered file is afterwards in the directory
    under the name computed for it, the one of its day and its number,
    and holds what it held. *)
Theorem every_file_bears_its_target (d : dir) (rec : bool) :
  NoDup (map fst d) ->
  raised (rename_media_in_directory P (Some d) false rec) = None ->
  Forall went_through
    (report (rename_media_in_directory P (Some d) false rec)) ->
  exists d',
    after (rename_media_in_directory P (Some d) false rec) = Some d' /\
    Forall (fun pf => exists s t f',
                In s (plan P d) /\ entry_path s = fst pf /\
                resolve_date P (name (fst pf)) (snd pf) = Ok t /\
                entry_day s = Datetime.strftime_day t /\
                lookup (entry_target s) d' = Some (File f') /\
                payload f' = payload (snd pf))
      (find_media_files d false).
Proof.
  intros Hnd Hnone Hok. rewrite run_raised in Hnone.
  rewrite run_as_plan in *. cbv zeta in *.
  cbn [after report] in *.
  eexists. split; [reflexivity|].
  assert (Hnd' : NoDup (map fst (disk (fold_left (step P false) (plan P d)
                                        (mk_state d 0 []))))).
  { now apply (@fold_contents P false (plan P d) (mk_state d 0 [])
                 (plan_single P d)). }
  rewrite (@went_through_result d Hnd Hok) in *.
  apply Forall_forall. intros [p f] Hpf.
  destruct (plan_covers d (p, f) Hnone Hpf) as [s [t [Hs [Hst Ht]]]].
  cbn [fst snd] in *.
  destruct (find_media_files_In _ _ _ Hpf) as [k [-> [Hin _]]].
  assert (Hpath : entry_path s = [k]) by (unfold entry_path; now rewrite Hst).
  exists s, t, f. split; [exact Hs|]. split; [exact Hpath|].
  split; [exact Ht|].
  split; [rewrite (plan_entry_day d s Hs), Hst; reflexivity|].
  split; [|reflexivity].
  apply (In_lookup _ _ _ Hnd').
  rewrite <- (@ren_of_target (plan P d) s (@plan_names_nodup P d Hnd) Hs).
  rewrite Hpath. change (name [k]) with k.
  unfold rename_all. apply in_map_iff. now exists (k, File f).
Qed.

End UntouchedFacts.

Section UntouchedWitness.

Import Extract Fs Renamer Plan Tree Renaming Reference Scenario Cases.

Lemma other_entries_are_untouched_witness :
  exists d',
    after (rename_media_in_directory posix (Some mixed_dir) false false)
    = Some d' /\
    filter not_media d' = filter not_media mixed_dir.
Proof.
  apply (@other_entries_are_untouched posix mixed_dir false false).
  apply distinct_NoDup. reflexivity.
Defined.

Lemma every_file_bears_its_target_witness :
  exists d',
    after (rename_media_in_directory posix (Some mixed_dir) false false)
    = Some d' /\
    Forall (fun pf => exists s t f',
                In s (plan posix mixed_dir) /\ entry_path s = fst pf /\
                resolve_date posix (name (fst pf)) (snd pf) = Ok t /\
                entry_day s = Datetime.strftime_day t /\
                lookup (entry_target s) d' = Some (File f') /\
                payload f' = payload (snd pf))
      (find_media_files mixed_dir false).
Proof.
  apply (@every_file_bears_its_target posix mixed_dir false).
  - apply distinct_NoDup. reflexivity.
  - reflexivity.
  - apply went_through_check. reflexivity.
Defined.

End UntouchedWitness.

Section StringOrderFacts.

Lemma ascii_compare_lt_trans (a b c : ascii) :
  Ascii.compare a b = Lt -> Ascii.compare b c = Lt -> Ascii.compare a c = Lt.
Proof.
  unfold Ascii.compare. rewrite !N.compare_lt_iff. apply N.lt_trans.
Qed.

Lemma ascii_compare_refl (a : ascii) : Ascii.compare a a = Eq.
Proof. unfold Ascii.compare. apply N.compare_refl. Qed.

Lemma string_compare_lt_trans (a b c : string) :
  String.compare a b = Lt -> String.compare b c = Lt ->
  String.compare a c = Lt.
Proof.
  revert b c. induction a as [|x a IH]; intros [|y b] [|z c]; simpl; try easy.
  destruct (Ascii.compare x y) eqn:Hxy; try easy.
  - apply Ascii.compare_eq_iff in Hxy. subst y.
    destruct (Ascii.compare x z) eqn:Hxz; try easy. apply IH.
  - intros _. destruct (Ascii.compare y z) eqn:Hyz; try easy.
    + apply Ascii.compare_eq_iff in Hyz. subst z. now rewrite Hxy.
    + now rewrite (ascii_compare_lt_trans _ _ _ Hxy Hyz).
Qed.

Lemma string_ltb_asym (a b : string) :
  String.ltb a b = true -> String.ltb b a = false.
Proof.
  unfold String.ltb. rewrite (String.compare_antisym a b).
  now destruct (String.compare b a).
Qed.

Lemma string_ltb_total (a b : string) :
  String.ltb a b = false -> String.ltb b a = false -> a = b.
Proof.
  unfold String.ltb. intros H1 H2. apply String.compare_eq_iff.
  rewrite (String.compare_antisym b a) in H2.
  now destruct (String.compare a b).
Qed.

Lemma string_ltb_trans (a b c : string) :
  String.ltb a b = true -> String.ltb b c = true -> String.ltb a c = true.
Proof.
  unfold String.ltb. intros H1 H2.
  destruct (String.compare a b) eqn:Hab; try discriminate.
  destruct (String.compare b c) eqn:Hbc; try discriminate.
  now rewrite (string_compare_lt_trans _ _ _ Hab Hbc).
Qed.

Lemma string_leb_trans (a b c : string) :
  String.ltb b a = false -> String.ltb c b = false -> String.ltb c a = false.
Proof.
  intros H1 H2. destruct (String.ltb c a) eqn:Hca; [|reflexivity].
  destruct (String.ltb a b) eqn:Hab.
  - rewrite (string_ltb_trans _ _ _ Hca Hab) in H2. discriminate.
  - assert (a = b) by now apply string_ltb_total. subst. congruence.
Qed.

End StringOrderFacts.

Section DayOrderFacts.

Import Extract Fs Renamer Plan Tree Renaming Names Reference Scenario Cases.
Local Open Scope list_scope.

Variable P : platform.

Lemma day_groups_keys_nodup (d : dir) : NoDup (map fst (day_groups P d)).
Proof.
  unfold day_groups, sorted_items.
  apply (Permutation_NoDup
           (Permutation_map fst (Permutation_sym (sort_perm _ _)))).
  apply (fold_add_nodup (fun x : path * datetime =>
                           Datetime.strftime_day (snd x))).
  constructor.
Qed.

Lemma StronglySorted_front {X} (R : X -> X -> Prop) (a b : list X) :
  StronglySorted R (a ++ b) -> StronglySorted R a.
Proof.
  induction a as [|x a IH]; simpl; intros H; [constructor|].
  inversion H as [|? ? Hs Hx]; subst. constructor; [now apply IH|].
  now apply Forall_app in Hx.
Qed.

Lemma sorted_distinct_is_strict {X} (key : X -> string) (l : list X) :
  StronglySorted (fun a b => String.ltb (key b) (key a) = false) l ->
  NoDup (map key l) ->
  StronglySorted (fun a b => String.ltb a b = true) (map key l).
Proof.
  induction 1 as [|a r Hr IH Ha]; simpl; intros Hnd; constructor.
  - apply IH. now inversion Hnd.
  - inversion Hnd as [|? ? Hnotin _]; subst.
    apply Forall_map, Forall_forall. intros b Hb.
    rewrite Forall_forall in Ha. specialize (Ha b Hb).
    destruct (String.ltb (key a) (key b)) eqn:Hab; [reflexivity|].
    exfalso. apply Hnotin. rewrite (string_ltb_total _ _ Hab Ha).
    now apply in_map.
Qed.

Lemma day_groups_keys_sorted (d : dir) :
  StronglySorted (fun a b => String.ltb a b = true)
    (map fst (day_groups P d)).
Proof.
  apply sorted_distinct_is_strict; [|apply day_groups_keys_nodup].
  unfold day_groups, sorted_items.
  apply (sort_sorted (fun a b : string * list (path * datetime) =>
                        String.ltb (fst a) (fst b))).
  - intros a b. apply string_ltb_asym.
  - intros a b c. apply string_leb_trans.
Qed.

Lemma groups_keys_nodup (d : dir) : NoDup (map fst (groups P d)).
Proof.
  destruct (processed_front (day_groups P d)) as [rest Hr].
  pose proof (day_groups_keys_nodup d) as Hn.
  rewrite Hr, map_app in Hn. now apply NoDup_app_remove_r in Hn.
Qed.

(** X14: the date groups are processed in strictly ascending order of
    their day keys; no day is processed twice, and no group is empty. *)
Theorem days_are_processed_in_ascending_order (d : dir) :
  StronglySorted (fun a b => String.ltb a b = true) (map fst (groups P d)) /\
  Forall (fun g => snd g <> []) (groups P d).
Proof.
  split.
  - destruct (processed_front (day_groups P d)) as [rest Hr].
    pose proof (day_groups_keys_sorted d) as Hs.
    rewrite Hr, map_app in Hs. now apply StronglySorted_front in Hs.
  - apply Forall_forall. intros g Hg. now apply (groups_member P d g).
Qed.

End DayOrderFacts.

Section SequenceTheorem.

Import Extract Fs Renamer Plan Tree Renaming Names Reference Scenario Cases.
Local Open Scope list_scope.





Example mixed_day_is_interleaved :
  map line (report (rename_media_in_directory posix (Some mixed_dir) false false))
  = [(["img1.jpg"], "2023-01-15 - Phone Photos (1).jpg");
     (["vid1.mov"], "2023-01-15 - Phone Videos (2).mov");
     (["img2.jpg"], "2023-01-15 - Phone Photos (3).jpg")]%string.
Proof. reflexivity. Qed.

(** Offset-aware timestamps are ordered by instant: 12:00 at [+09:00] is
    before 10:00 at [+02:00]. *)
Example zones_are_ordered_by_instant :
  map line (report (rename_media_in_directory posix (Some two_zones_dir)
                      false false))
  = [(["VID_2.mov"], "2023-01-15 - Phone Videos (1).mov");
     (["VID_1.mov"], "2023-01-15 - Phone Videos (2).mov")]%string /\
  raised (rename_media_in_directory posix (Some two_zones_dir) false false)
  = None.
Proof. split; reflexivity. Qed.


End SequenceTheorem.

Section TargetFacts.

Import Extract Fs Renamer Plan Tree Renaming ExtractSpec Names.
Import Reference Scenario Cases.
Local Open Scope list_scope.

Lemma string_forall_app (ok : ascii -> bool) (a b : string) :
  string_forall ok (a ++ b) = (string_forall ok a && string_forall ok b)%bool.
Proof.
  induction a as [|x a IH]; simpl; [reflexivity|].
  now rewrite IH, andb_assoc.
Qed.

Lemma string_forall_impl (ok ok' : ascii -> bool) (s : string) :
  (forall c, ok c = true -> ok' c = true) ->
  string_forall ok s = true -> string_forall ok' s = true.
Proof.
  intros H. induction s as [|x s IH]; simpl; [reflexivity|].
  intros Hs. apply andb_true_iff in Hs. destruct Hs as [Hx Hs].
  now rewrite (H x Hx), IH.
Qed.

Lemma digits_of_uint (d : Decimal.uint) :
  string_forall is_digit (NilEmpty.string_of_uint d) = true.
Proof. induction d; simpl; auto. Qed.

Lemma digits_of_nat (n : nat) :
  string_forall is_digit (Py.str_of_nat n) = true.
Proof.
  unfold Py.str_of_nat, NilZero.string_of_uint.
  destruct (Nat.to_uint n) eqn:E; try (rewrite <- E; apply digits_of_uint).
  reflexivity.
Qed.

Lemma nat_of_str_of_nat (n : nat) : nat_of_str (Py.str_of_nat n) = Some n.
Proof.
  unfold nat_of_str, Py.str_of_nat.
  destruct (Decimal.uint_eq_dec (Nat.to_uint n) Decimal.Nil) as [E|E].
  - rewrite E. simpl. f_equal.
    rewrite <- (DecimalNat.Unsigned.of_to n), E. reflexivity.
  - rewrite (NilZero.usu _ E). simpl. f_equal.
    apply DecimalNat.Unsigned.of_to.
Qed.

Lemma str_of_nat_inj (a b : nat) : Py.str_of_nat a = Py.str_of_nat b -> a = b.
Proof.
  intros H. pose proof (nat_of_str_of_nat a) as Ha.
  rewrite H, nat_of_str_of_nat in Ha. now injection Ha.
Qed.

(** Two texts cut at their first occurrence of a character. *)
Lemma split_at_char (c : ascii) (a b x y : string) :
  string_forall (other_than c) a = true ->
  string_forall (other_than c) b = true ->
  (a ++ String c x)%string = (b ++ String c y)%string -> a = b /\ x = y.
Proof.
  revert b. induction a as [|p a IH]; intros [|q b]; simpl; intros Ha Hb H.
  - injection H as ->. now split.
  - injection H as <- _. apply andb_true_iff in Hb. destruct Hb as [Hq _].
    unfold other_than in Hq. now rewrite Ascii.eqb_refl in Hq.
  - injection H as -> _. apply andb_true_iff in Ha. destruct Ha as [Hp _].
    unfold other_than in Hp. now rewrite Ascii.eqb_refl in Hp.
  - injection H as -> H. apply andb_true_iff in Ha, Hb.
    destruct Ha as [_ Ha], Hb as [_ Hb].
    destruct (IH b Ha Hb H) as [-> ->]. now split.
Qed.

Lemma digit_is_not (c : ascii) (a : ascii) :
  is_digit c = false -> is_digit a = true -> other_than c a = true.
Proof.
  intros Hc Ha. unfold other_than. destruct (Ascii.eqb_spec a c); [|reflexivity].
  subst. congruence.
Qed.

Lemma day_key_chars (t : datetime) :
  string_forall (other_than " ") (Datetime.strftime_day t) = true.
Proof.
  apply (string_forall_impl day_char).
  - intros c Hc. unfold day_char in Hc. apply orb_true_iff in Hc.
    destruct Hc as [Hc|Hc].
    + now apply digit_is_not.
    + apply Ascii.eqb_eq in Hc. now subst.
  - assert (Hd : forall n, string_forall day_char (Py.str_of_nat n) = true).
    { intros n. apply (string_forall_impl is_digit); [|apply digits_of_nat].
      intros c Hc. unfold day_char. now rewrite Hc. }
    assert (H2 : forall n, string_forall day_char (Datetime.pad2 n) = true).
    { intros n. unfold Datetime.pad2. destruct (n <? 10)%nat; [|apply Hd].
      rewrite string_forall_app, Hd. reflexivity. }
    assert (H4 : forall n, string_forall day_char (Datetime.pad4 n) = true).
    { intros n. unfold Datetime.pad4.
      destruct (n <? 10)%nat; [rewrite string_forall_app, Hd; reflexivity|].
      destruct (n <? 100)%nat; [rewrite string_forall_app, Hd; reflexivity|].
      destruct (n <? 1000)%nat; [rewrite string_forall_app, Hd; reflexivity|].
      apply Hd. }
    unfold Datetime.strftime_day.
    rewrite !string_forall_app, H4, !H2. reflexivity.
Qed.

(** The target name tells the day key and the number it was made of. *)
Lemma target_tells_slot (ds1 ds2 : string) (i1 i2 : nat) (p1 p2 : path) :
  string_forall (other_than " ") ds1 = true ->
  string_forall (other_than " ") ds2 = true ->
  new_name_of ds1 i1 p1 = new_name_of ds2 i2 p2 -> ds1 = ds2 /\ i1 = i2.
Proof.
  intros H1 H2 H. rewrite !new_name_label in H.
  change (" - Phone " ++ label p1 ++ " (" ++ Py.str_of_nat i1 ++ ")" ++
          Py.lower (Py.suffix (name p1)))%string
    with (String " " ("- Phone " ++ label p1 ++ " (" ++ Py.str_of_nat i1 ++
                      String ")" (Py.lower (Py.suffix (name p1)))))%string in H.
  change (" - Phone " ++ label p2 ++ " (" ++ Py.str_of_nat i2 ++ ")" ++
          Py.lower (Py.suffix (name p2)))%string
    with (String " " ("- Phone " ++ label p2 ++ " (" ++ Py.str_of_nat i2 ++
                      String ")" (Py.lower (Py.suffix (name p2)))))%string in H.
  destruct (split_at_char _ _ _ _ _ H1 H2 H) as [-> Hrest].
  split; [reflexivity|].
  assert (Hnum : (Py.str_of_nat i1 ++
                  String ")" (Py.lower (Py.suffix (name p1))))%string =
                 (Py.str_of_nat i2 ++
                  String ")" (Py.lower (Py.suffix (name p2))))%string).
  { unfold label in Hrest.
    destruct (mem (Py.lower (Py.suffix (name p1))) video_suffixes);
      destruct (mem (Py.lower (Py.suffix (name p2))) video_suffixes);
      simpl in Hrest; congruence. }
  apply str_of_nat_inj.
  apply (split_at_char ")" _ _ _ _) in Hnum; [now destruct Hnum| |];
    apply (string_forall_impl is_digit); try apply digits_of_nat;
    intros c Hc; now apply digit_is_not.
Qed.

End TargetFacts.

Section DistinctTargets.

Import Extract Fs Renamer Plan Tree Renaming ExtractSpec Names.
Import Reference Scenario Cases.
Local Open Scope list_scope.

Variable P : platform.

Lemma NoDup_map_injective_on {X Y} (f : X -> Y) (l : list X) :
  NoDup l -> (forall a b, In a l -> In b l -> f a = f b -> a = b) ->
  NoDup (map f l).
Proof.
  induction 1 as [|x r Hx Hr IH]; intros Hinj; simpl; constructor.
  - intros Hin. apply in_map_iff in Hin. destruct Hin as [y [Hy Hyin]].
    apply Hx. rewrite <- (Hinj y x); auto; [now right | now left].
  - apply IH. intros a b Ha Hb. apply Hinj; now right.
Qed.

Lemma NoDup_map_through {X Y Z} (f : X -> Y) (g : X -> Z) (l : list X) :
  NoDup (map f l) ->
  (forall a b, In a l -> In b l -> g a = g b -> f a = f b) ->
  NoDup (map g l).
Proof.
  induction l as [|x r IH]; simpl; intros Hnd Hfg; constructor.
  - inversion Hnd as [|? ? Hx _]; subst. intros Hin.
    apply in_map_iff in Hin. destruct Hin as [y [Hy Hyin]].
    apply Hx. rewrite <- (Hfg y x); auto. now apply in_map.
  - inversion Hnd; subst. apply IH; auto.
Qed.

Lemma numbered_slots (g : string * list (path * datetime)) :
  map slot (numbered g) =
  map (pair (fst g)) (seq 1 (List.length (snd g))).
Proof.
  unfold numbered. rewrite map_map. unfold slot, entry_day, entry_seq.
  cbn [fst snd].
  rewrite <- (map_map fst (pair (fst g))), enumerate_fst.
  unfold sort_by_time. now rewrite sort_length.
Qed.

Lemma slots_nodup (gs : list (string * list (path * datetime))) :
  NoDup (map fst gs) -> NoDup (map slot (flat_map numbered gs)).
Proof.
  induction gs as [|g r IH]; simpl; intros Hnd; [constructor|].
  inversion Hnd as [|? ? Hg Hr]; subst.
  rewrite map_app. apply NoDup_app.
  - rewrite numbered_slots. apply NoDup_map_injective_on; [apply seq_NoDup|].
    intros a b _ _ [= ->]. reflexivity.
  - now apply IH.
  - intros x Hx Hin. apply Hg.
    rewrite numbered_slots in Hx. apply in_map_iff in Hx.
    destruct Hx as [i [<- _]].
    apply in_map_iff in Hin. destruct Hin as [s [Hs Hin]].
    apply in_flat_map in Hin. destruct Hin as [g' [Hg' Hin]].
    unfold numbered in Hin. apply in_map_iff in Hin.
    destruct Hin as [e [<- _]]. unfold slot, entry_day in Hs.
    cbn [fst snd] in Hs. injection Hs as Hs _. rewrite <- Hs.
    now apply in_map.
Qed.

Lemma plan_day_keys (d : dir) (s : entry) :
  In s (plan P d) ->
  string_forall (other_than " ") (entry_day s) = true.
Proof.
  unfold plan. intros Hin. apply in_flat_map in Hin.
  destruct Hin as [g [Hg Hin]]. unfold numbered in Hin.
  apply in_map_iff in Hin. destruct Hin as [e [<- _]].
  unfold entry_day. cbn [fst].
  destruct (groups_member P d g Hg) as [Hmem Hne].
  destruct (snd g) as [|x l] eqn:Hsnd; [contradiction|].
  assert (Hx : In x (filter (on_day (fst g)) (resolved P d)))
    by (rewrite <- Hmem; now left).
  apply filter_In in Hx. destruct Hx as [_ Hx]. unfold on_day in Hx.
  apply String.eqb_eq in Hx. rewrite <- Hx. apply day_key_chars.
Qed.

Lemma plan_targets_nodup (d : dir) :
  NoDup (map entry_target (plan P d)).
Proof.
  apply (NoDup_map_through slot).
  - unfold plan. apply slots_nodup, groups_keys_nodup.
  - intros a b Ha Hb H. unfold entry_target in H.
    destruct (@target_tells_slot _ _ _ _ _ _ (plan_day_keys d a Ha)
                (plan_day_keys d b Hb) H) as [H1 H2].
    unfold slot. now rewrite H1, H2.
Qed.

(** X15: no two files of a run are planned for the same name: the target
    names computed in one call are pairwise distinct. *)
Theorem planned_targets_are_distinct (d : dir) :
  NoDup (map entry_target (plan P d)).
Proof.
  exact (plan_targets_nodup d).
Qed.

End DistinctTargets.

Section CleanDirectory.

Import Extract Fs Renamer Plan Tree Renaming ExtractSpec Names.
Import Reference Scenario Cases.
Local Open Scope list_scope.

Variable P : platform.

(** A permitted rename of an existing file to a free name is carried out. *)
Lemma step_renames (st : state) (s : entry) (k : string) :
  entry_path s = [k] ->
  k <> entry_target s ->
  lookup (entry_target s) (disk st) = None ->
  lookup k (disk st) <> None ->
  rename_permitted P k (entry_target s) = true ->
  step P false st s =
  mk_state (rename_in_place k (entry_target s) (disk st))
    (total_renamed st + 1)
    (printed st ++ [mk_event [k] (entry_target s) Renamed]).
Proof.
  destruct s as [ds [i [p t]]]. unfold entry_path. cbn [fst snd]. intros ->.
  unfold entry_target, entry_day, entry_seq, entry_path. cbn [fst snd].
  set (m := new_name_of ds i [k]). intros Hkm Hm Hk Hperm.
  unfold step, rename_step. cbn [fst snd]. fold m.
  change (name [k]) with k. change (child (parent [k]) m) with [m].
  change (rename_path P [k] m (disk st)) with (rename_entry P k m (disk st)).
  rewrite path_exists_single, Hm.
  destruct (String.eqb_spec k m) as [?|_]; [contradiction|].
  unfold rename_entry. rewrite Hperm. cbn [negb].
  destruct (lookup k (disk st)) as [x|]; [|contradiction].
  destruct (String.eqb_spec k m) as [?|_]; [contradiction|].
  rewrite Hm, (filter_absent _ _ Hm). now destruct x.
Qed.

Lemma name_in_renamed (ren : renaming) (d : dir) (m : string) :
  In m (map fst (rename_all ren d)) ->
  (exists n, In (n, m) ren) \/ In m (map fst d).
Proof.
  rewrite rename_all_names, in_map_iff. intros [n [Hn Hin]].
  unfold apply_ren in Hn. destruct (assoc n ren) as [x|] eqn:Ha.
  - left. exists n. subst x. now apply assoc_found.
  - right. now subst.
Qed.

(** Steps that nothing obstructs are all carried out. *)
Lemma fold_unobstructed (d0 : dir) (l done : list entry) (st : state) :
  NoDup (map (fun s => name (entry_path s)) (done ++ l)) ->
  NoDup (map entry_target (done ++ l)) ->
  Forall (fun s => exists k, entry_path s = [k] /\ In k (map fst d0)) l ->
  forallb (unobstructed P d0) l = true ->
  disk st = rename_all (ren_of done) d0 ->
  NoDup (map fst (disk st)) ->
  printed (fold_left (step P false) l st) =
  printed st ++ map (foreseen false) l.
Proof.
  revert done st.
  induction l as [|s r IH]; intros done st Hnd Htg Hall Hfree Hd Hn;
    [simpl; now rewrite app_nil_r|].
  cbn [fold_left map]. inversion Hall as [|? ? [k [Hk Hin]] Hr]; subst.
  simpl in Hfree. apply andb_true_iff in Hfree. destruct Hfree as [Hs Hfree].
  unfold unobstructed in Hs. rewrite Hk in Hs. change (name [k]) with k in Hs.
  apply andb_true_iff in Hs. destruct Hs as [Hperm Hs].
  assert (Hdone : ren_of (done ++ [s]) =
                  ren_of done ++ [(k, entry_target s)]).
  { unfold ren_of. rewrite map_app. simpl. now rewrite Hk. }
  assert (Hfresh : assoc k (ren_of done) = None).
  { apply assoc_absent. unfold ren_of. rewrite map_map. simpl.
    rewrite map_app in Hnd. simpl in Hnd.
    apply NoDup_remove_2 in Hnd. rewrite Hk in Hnd. simpl in Hnd.
    intros Hc. apply Hnd. apply in_or_app. now left. }
  assert (Happ : done ++ s :: r = (done ++ [s]) ++ r)
    by (now rewrite <- app_assoc).
  rewrite Happ in Hnd, Htg.
  unfold foreseen at 1. rewrite Hk. change (name [k]) with k.
  destruct (String.eqb_spec k (entry_target s)) as [Hkm|Hkm].
  - destruct (step_cases P false st s Hk)
      as [[_ E]|[[C _]|[[C _]|[[C _]|[C _]]]]]; try contradiction.
    rewrite (IH (done ++ [s])); auto.
    + rewrite E. cbn [say printed]. now rewrite <- app_assoc.
    + rewrite E. simpl. rewrite Hd, Hdone, <- Hkm.
      now rewrite rename_all_snoc_same.
    + rewrite E. exact Hn.
  - simpl in Hs. apply negb_true_iff in Hs.
    assert (Hm : lookup (entry_target s) (disk st) = None).
    { apply lookup_None. rewrite Hd. intros Hc.
      apply name_in_renamed in Hc. destruct Hc as [[n Hc]|Hc].
      - unfold ren_of in Hc. apply in_map_iff in Hc.
        destruct Hc as [s' [[= _ Ht] Hs']].
        rewrite <- Happ, map_app in Htg. simpl in Htg.
        apply NoDup_remove_2 in Htg. apply Htg. apply in_or_app. left.
        rewrite <- Ht. now apply in_map.
      - assert (existsb (String.eqb (entry_target s)) (map fst d0) = true);
          [|congruence].
        apply existsb_exists. exists (entry_target s).
        split; [exact Hc | apply String.eqb_refl]. }
    assert (Hkd : lookup k (disk st) <> None).
    { intros Hc. apply lookup_None in Hc. apply Hc.
      rewrite Hd, rename_all_names. apply in_map_iff. exists k.
      split; [|exact Hin]. unfold apply_ren. now rewrite Hfresh. }
    rewrite (step_renames st s Hk Hkm Hm Hkd Hperm).
    rewrite (IH (done ++ [s])); auto.
    + cbn [printed]. now rewrite <- app_assoc.
    + cbn [disk]. rewrite Hd, Hdone.
      apply rename_all_snoc; auto. now rewrite <- Hd.
    + cbn [disk]. now apply rename_in_place_nodup.
Qed.

(** The lines of a real run in a directory where nothing obstructs it. *)
Lemma unobstructed_report (d : dir) (rec : bool) :
  NoDup (map fst d) ->
  forallb (unobstructed P d) (plan P d) = true ->
  report (rename_media_in_directory P (Some d) false rec) =
  map (foreseen false) (plan P d).
Proof.
  intros Hnd Hfree. rewrite run_as_plan. cbv zeta. cbn [report].
  apply (@fold_unobstructed d (plan P d) [] (mk_state d 0 [])).
  - simpl. now apply plan_names_nodup.
  - simpl. apply plan_targets_nodup.
  - apply Forall_forall. intros s Hs.
    destruct (plan_In P d s Hs) as [k [f [Hk [Hin _]]]].
    exists k. split; [exact Hk|]. now apply (in_map fst) in Hin.
  - exact Hfree.
  - simpl. now rewrite rename_all_nil.
  - exact Hnd.
Qed.

(** Dry steps whose targets are free in the directory announce them. *)
Lemma fold_unobstructed_dry (l : list entry) (st : state) :
  Forall (fun s => exists k, entry_path s = [k]) l ->
  forallb (unobstructed P (disk st)) l = true ->
  printed (fold_left (step P true) l st) =
  printed st ++ map (foreseen true) l.
Proof.
  revert st. induction l as [|s r IH]; intros st Hall Hfree;
    [simpl; now rewrite app_nil_r|].
  cbn [fold_left map]. inversion Hall as [|? ? [k Hk] Hr]; subst.
  simpl in Hfree. apply andb_true_iff in Hfree. destruct Hfree as [Hs Hfree].
  unfold unobstructed in Hs. rewrite Hk in Hs. change (name [k]) with k in Hs.
  apply andb_true_iff in Hs. destruct Hs as [_ Hs].
  destruct (step_dry P st s) as [Hdisk _].
  unfold foreseen at 1. rewrite Hk. change (name [k]) with k.
  rewrite IH; [| exact Hr | now rewrite Hdisk].
  destruct (step_cases P true st s Hk)
    as [[Hkm E]|[[Hkm [Hm E]]|[[Hkm [Hm [_ E]]]|[[_ [_ [C _]]]|[_ [_ [C _]]]]]]];
    try discriminate.
  - rewrite E. cbn [say printed]. rewrite <- app_assoc.
    now rewrite (proj2 (String.eqb_eq _ _) Hkm).
  - exfalso. apply Hm. apply lookup_None.
    rewrite (proj2 (String.eqb_neq _ _) Hkm) in Hs.
    simpl in Hs. apply negb_true_iff in Hs. intros Hc.
    assert (existsb (String.eqb (entry_target s)) (map fst (disk st)) = true);
      [|congruence].
    apply existsb_exists. exists (entry_target s).
    split; [exact Hc | apply String.eqb_refl].
  - rewrite E. cbn [say printed]. rewrite <- app_assoc.
    now rewrite (proj2 (String.eqb_neq _ _) Hkm).
Qed.

Lemma settled_foreseen (s : entry) : settled (foreseen false s).
Proof.
  unfold settled, foreseen. cbn [ev_outcome].
  destruct (String.eqb _ _); auto.
Qed.

Lemma confirm_foreseen (s : entry) :
  confirm (foreseen true s) = foreseen false s.
Proof.
  unfold confirm, foreseen. cbn [ev_outcome ev_path ev_new_name].
  now destruct (String.eqb _ _).
Qed.

(** X16: in a directory where the operating system permits the renames
    and no entry bears the target name of another file, a run skips
    nothing: every file it reports on is renamed or found already in
    place. *)
Theorem unobstructed_run_settles_every_file (d : dir) (rec : bool) :
  NoDup (map fst d) ->
  forallb (unobstructed P d) (plan P d) = true ->
  Forall settled (report (rename_media_in_directory P (Some d) false rec)).
Proof.
  intros Hnd Hfree. rewrite (@unobstructed_report d rec Hnd Hfree).
  apply Forall_forall. intros e He. apply in_map_iff in He.
  destruct He as [s [<- _]]. apply settled_foreseen.
Qed.

(** X25: a dry run announces, for the same files in the same order, the
    new names that a real run on the same directory works with; the two
    reports differ at most in what they say happened, and the dry run
    raises exactly when the real run does. *)
Theorem dry_run_announces_the_names_of_a_real_run (d : dir)
    (rec rec' : bool) :
  map line (report (rename_media_in_directory P (Some d) true rec)) =
  map line (report (rename_media_in_directory P (Some d) false rec')) /\
  raised (rename_media_in_directory P (Some d) true rec) =
  raised (rename_media_in_directory P (Some d) false rec').
Proof.
  rewrite !run_as_plan. cbv zeta. cbn [report raised].
  now rewrite !fold_printed.
Qed.

(** X26: in a directory where the operating system permits the renames
    and no entry bears the target name of another file, a dry run
    predicts the real run exactly: every line marked as a dry run is a
    rename that the real run carries out, every other line is the same,
    and the real run renames as many files as the dry run announces. *)
Theorem dry_run_predicts_unobstructed_run (d : dir) (rec rec' : bool) :
  NoDup (map fst d) ->
  forallb (unobstructed P d) (plan P d) = true ->
  report (rename_media_in_directory P (Some d) false rec') =
  map confirm (report (rename_media_in_directory P (Some d) true rec)) /\
  renamed (rename_media_in_directory P (Some d) false rec') =
  count_renamed
    (map confirm (report (rename_media_in_directory P (Some d) true rec))).
Proof.
  intros Hnd Hfree.
  assert (Hdry : report (rename_media_in_directory P (Some d) true rec) =
                 map (foreseen true) (plan P d)).
  { rewrite run_as_plan. cbv zeta. cbn [report].
    apply (@fold_unobstructed_dry (plan P d) (mk_state d 0 [])).
    - apply Forall_forall. intros s Hs.
      destruct (plan_In P d s Hs) as [k [f [Hk _]]]. now exists k.
    - exact Hfree. }
  assert (Hreal : report (rename_media_in_directory P (Some d) false rec') =
                  map confirm
                    (report (rename_media_in_directory P (Some d) true rec))).
  { rewrite Hdry, (@unobstructed_report d rec' Hnd Hfree), map_map.
    apply map_ext. intros s. now rewrite confirm_foreseen. }
  split; [exact Hreal|]. rewrite <- Hreal.
  rewrite run_as_plan. cbv zeta. cbn [renamed report].
  pose proof (fold_count P false (plan P d) (mk_state d 0 [])) as H.
  cbn [total_renamed printed] in H. unfold count_renamed in H at 1.
  simpl in H. lia.
Qed.

End CleanDirectory.

Section CleanDirectoryWitness.

Import Extract Fs Renamer Plan Tree Renaming ExtractSpec Names.
Import Reference Scenario Cases.

Lemma unobstructed_run_settles_every_file_witness :
  Forall settled
    (report (rename_media_in_directory posix (Some mixed_dir) false false)).
Proof.
  apply (@unobstructed_run_settles_every_file posix mixed_dir false).
  - apply distinct_NoDup. reflexivity.
  - reflexivity.
Defined.

Lemma dry_run_predicts_unobstructed_run_witness :
  report (rename_media_in_directory posix (Some mixed_dir) false false) =
  map confirm
    (report (rename_media_in_directory posix (Some mixed_dir) true false)) /\
  renamed (rename_media_in_directory posix (Some mixed_dir) false false) =
  count_renamed
    (map confirm
       (report (rename_media_in_directory posix (Some mixed_dir) true false))).
Proof.
  apply (@dry_run_predicts_unobstructed_run posix mixed_dir false false).
  - apply distinct_NoDup. reflexivity.
  - reflexivity.
Defined.

End CleanDirectoryWitness.

(* ===================================================================== *)
(** * Further properties of [rename_media] *)
(* ===================================================================== *)

Section TreeUpdateFacts.

Import Extract Fs Renamer Driver.
Local Open Scope list_scope.

Lemma erase_Dir (es : dir) :
  erase (Dir es) = Dir (map (fun y => (EmptyString, erase y)) (map snd es)).
Proof.
  simpl. f_equal. induction es as [|[k y] r IH]; simpl; [reflexivity|].
  now rewrite IH.
Qed.

Lemma erase_same_nodes (a b : dir) :
  map snd a = map snd b -> erase (Dir a) = erase (Dir b).
Proof. intros H. now rewrite !erase_Dir, H. Qed.

Lemma erase_cons (k : string) (x y : node) (a b : dir) :
  erase x = erase y -> erase (Dir a) = erase (Dir b) ->
  erase (Dir ((k, x) :: a)) = erase (Dir ((k, y) :: b)).
Proof.
  rewrite !erase_Dir. simpl. intros -> [= ->]. reflexivity.
Qed.

Lemma directory_at_nil (d : dir) : directory_at [] d = Some d.
Proof. reflexivity. Qed.

Lemma directory_at_cons (n : string) (r : path) (d : dir) :
  directory_at (n :: r) d =
  match lookup n d with
  | Some (Dir x) => directory_at r x
  | _ => None
  end.
Proof.
  unfold directory_at. simpl.
  destruct (lookup n d) as [[f|x]|]; [|reflexivity|reflexivity].
  now destruct r.
Qed.

(** Replacing the directory at [p] when [p] leads to a directory. *)
Lemma put_directory_nil (sub d : dir) : put_directory [] sub d = sub.
Proof. reflexivity. Qed.

Lemma update_child_found (n : string) (g : dir -> option dir) (d x x' : dir) :
  lookup n d = Some (Dir x) -> g x = Some x' ->
  exists a b, d = a ++ (n, Dir x) :: b /\ ~ In n (map fst a) /\
              update_child n g d = Some (a ++ (n, Dir x') :: b).
Proof.
  induction d as [|[k y] r IH]; simpl; [discriminate|].
  destruct (String.eqb_spec k n) as [->|Hne].
  - intros [= ->] Hg. exists [], r. rewrite Hg. simpl. auto.
  - intros Hl Hg. destruct (IH Hl Hg) as [a [b [-> [Hna ->]]]].
    exists ((k, y) :: a), b. simpl. repeat split; auto.
    intros [?|?]; [now apply Hne | now apply Hna].
Qed.

Lemma lookup_middle (n m : string) (a b : dir) (x x' : node) :
  ~ In n (map fst a) ->
  lookup m (a ++ (n, x') :: b) =
  if String.eqb n m then Some x' else lookup m (a ++ (n, x) :: b).
Proof.
  induction a as [|[k y] r IH]; simpl; intros Hna.
  - now destruct (String.eqb n m).
  - destruct (String.eqb_spec k m) as [->|Hkm].
    + destruct (String.eqb_spec n m) as [->|_]; [|reflexivity].
      exfalso. apply Hna. now left.
    + apply IH. intros H. apply Hna. now right.
Qed.

Lemma put_directory_cons (n : string) (q : path) (sub d x : dir) :
  lookup n d = Some (Dir x) ->
  (exists y, directory_at q x = Some y) ->
  exists a b, d = a ++ (n, Dir x) :: b /\ ~ In n (map fst a) /\
              put_directory (n :: q) sub d =
              a ++ (n, Dir (put_directory q sub x)) :: b /\
              update_at q (fun _ => Some sub) x =
              Some (put_directory q sub x).
Proof.
  revert n d x. induction q as [|m q IH]; intros n d x Hl [y Hy].
  - destruct (@update_child_found n (fun _ => Some sub) d x sub Hl eq_refl)
      as [a [b [Hd [Hna Hu]]]].
    exists a, b. unfold put_directory. simpl. rewrite Hu. auto.
  - rewrite directory_at_cons in Hy.
    destruct (lookup m x) as [[f|z]|] eqn:Hm; try discriminate.
    destruct (IH m x z Hm (ex_intro _ y Hy)) as [a' [b' [Hx [Hna' [Hp Hu']]]]].
    assert (Hux : update_at (m :: q) (fun _ => Some sub) x =
                  Some (put_directory (m :: q) sub x)).
    { unfold put_directory at 1. simpl.
      destruct (@update_child_found m (update_at q (fun _ => Some sub)) x z _
                  Hm Hu') as [a2 [b2 [_ [_ Hu2]]]].
      unfold put_directory. simpl. now rewrite Hu2. }
    destruct (@update_child_found n (update_at (m :: q) (fun _ => Some sub))
                d x _ Hl Hux) as [a [b [Hd [Hna Hu]]]].
    exists a, b. repeat split; auto.
    unfold put_directory at 1.
    change (update_at (n :: m :: q) (fun _ => Some sub) d)
      with (update_child n (update_at (m :: q) (fun _ => Some sub)) d).
    now rewrite Hu.
Qed.

(** Putting back what is there changes nothing. *)
Lemma put_directory_same (p : path) (d sub : dir) :
  directory_at p d = Some sub -> put_directory p sub d = d.
Proof.
  revert d. induction p as [|n q IH]; intros d H.
  - now injection H as ->.
  - rewrite directory_at_cons in H.
    destruct (lookup n d) as [[f|x]|] eqn:Hl; try discriminate.
    destruct (@put_directory_cons n q sub d x Hl (ex_intro _ sub H))
      as [a [b [Hd [_ [-> _]]]]].
    now rewrite (IH x H), <- Hd.
Qed.

(** Putting a directory with the same nodes keeps the tree up to names. *)
Lemma put_directory_erase (p : path) (d sub sub' : dir) :
  directory_at p d = Some sub ->
  map snd sub' = map snd sub ->
  erase (Dir (put_directory p sub' d)) = erase (Dir d).
Proof.
  revert d. induction p as [|n q IH]; intros d H Hs.
  - injection H as ->. now apply erase_same_nodes.
  - rewrite directory_at_cons in H.
    destruct (lookup n d) as [[f|x]|] eqn:Hl; try discriminate.
    destruct (@put_directory_cons n q sub' d x Hl (ex_intro _ sub H))
      as [a [b [Hd [_ [-> _]]]]].
    specialize (IH x H Hs). rewrite Hd.
    clear Hd. induction a as [|[k y] a IHa]; simpl app.
    + now apply erase_cons.
    + now apply erase_cons.
Qed.

End TreeUpdateFacts.

Section DriverFacts.

Import Extract Fs Renamer Plan Driver.
Local Open Scope list_scope.

Variable P : platform.

(** A run on a directory leaves a directory with the same nodes. *)
Lemma run_keeps_nodes (d : dir) (dry rec : bool) :
  exists d', after (rename_media_in_directory P (Some d) dry rec) = Some d' /\
             map snd d' = map snd d.
Proof.
  rewrite run_as_plan. cbv zeta. cbn [after]. eexists. split; [reflexivity|].
  apply (@fold_contents P dry (plan P d) (mk_state d 0 [])).
  apply Forall_forall. intros s Hs.
  destruct (plan_In P d s Hs) as [k [f [Hk _]]]. now exists k.
Qed.

Lemma run_dry (d : dir) (rec : bool) :
  after (rename_media_in_directory P (Some d) true rec) = Some d /\
  renamed (rename_media_in_directory P (Some d) true rec) = 0.
Proof.
  rewrite run_as_plan. cbv zeta. cbn [after renamed].
  destruct (fold_dry P (plan P d) (mk_state d 0 [])) as [-> ->]. now split.
Qed.

Lemma process_directory_dry (pr : progress) (p : path) :
  tree (process_directory P true pr p) = tree pr /\
  total_renamed_all (process_directory P true pr p) = total_renamed_all pr.
Proof.
  unfold process_directory. cbn [tree total_renamed_all].
  destruct (directory_at p (tree pr)) as [sub|] eqn:Hp.
  - destruct (run_dry sub false) as [-> ->].
    rewrite (put_directory_same _ _ Hp). split; [reflexivity|].
    destruct (raised _); lia.
  - simpl. split; [reflexivity | lia].
Qed.

Lemma process_directory_erase (dry : bool) (pr : progress) (p : path) :
  erase (Dir (tree (process_directory P dry pr p))) = erase (Dir (tree pr)).
Proof.
  unfold process_directory. cbn [tree].
  destruct (directory_at p (tree pr)) as [sub|] eqn:Hp; [|reflexivity].
  destruct (run_keeps_nodes sub dry false) as [sub' [-> Hs]].
  now apply put_directory_erase with sub.
Qed.

Lemma process_directories_dry (l : list path) (pr : progress) :
  tree (process_directories P true l pr) = tree pr /\
  total_renamed_all (process_directories P true l pr) =
  total_renamed_all pr.
Proof.
  revert pr. induction l as [|p r IH]; intros pr; cbn [process_directories];
    [now split|].
  cbv zeta. destruct (failed (process_directory P true pr p)).
  - apply process_directory_dry.
  - destruct (IH (process_directory P true pr p)) as [-> ->].
    apply process_directory_dry.
Qed.

Lemma process_directories_erase (dry : bool) (l : list path)
    (pr : progress) :
  erase (Dir (tree (process_directories P dry l pr))) =
  erase (Dir (tree pr)).
Proof.
  revert pr. induction l as [|p r IH]; intros pr;
    cbn [process_directories]; [reflexivity|].
  cbv zeta. destruct (failed (process_directory P dry pr p)).
  - apply process_directory_erase.
  - rewrite IH. apply process_directory_erase.
Qed.

(** The loop over the directories without the exception: what it does
    when no call raises. *)
Lemma process_directories_completed (dry : bool) (l : list path)
    (pr : progress) :
  failed (process_directories P dry l pr) = None -> failed pr = None ->
  process_directories P dry l pr = fold_left (process_directory P dry) l pr.
Proof.
  revert pr. induction l as [|p r IH]; intros pr;
    cbn [process_directories fold_left]; [reflexivity|].
  cbv zeta. destruct (failed (process_directory P dry pr p)) eqn:Hf.
  - rewrite Hf. discriminate.
  - intros H _. now apply IH.
Qed.

(** The directories visited are the first of the list: all of them when
    no call raises. *)
Lemma process_directories_reports (dry : bool) (l : list path)
    (pr : progress) :
  exists rest,
    map fst (reports pr) ++ l =
    map fst (reports (process_directories P dry l pr)) ++ rest /\
    (failed (process_directories P dry l pr) = None -> rest = []).
Proof.
  revert pr. induction l as [|p r IH]; intros pr;
    cbn [process_directories].
  - exists []. now split.
  - cbv zeta. destruct (failed (process_directory P dry pr p)) eqn:Hf.
    + exists r. split; [|now rewrite Hf].
      unfold process_directory. cbn [reports].
      rewrite map_app, <- app_assoc. reflexivity.
    + destruct (IH (process_directory P dry pr p)) as [rest [E Hr]].
      exists rest. split; [|exact Hr]. rewrite <- E.
      unfold process_directory. cbn [reports].
      rewrite map_app, <- app_assoc. reflexivity.
Qed.

(** X17: a dry run of the driver, recursive or not, leaves the whole tree
    as it was and counts no file as renamed. *)
Theorem driver_dry_run_keeps_the_tree (root : dir) (recursive : bool) :
  tree_after (rename_media P (Some root) true recursive) = Some root /\
  renamed_all (rename_media P (Some root) true recursive) = 0.
Proof.
  unfold rename_media. destruct recursive.
  - destruct (directories_with_media root) as [|p l]; [now split|].
    cbn [tree_after renamed_all].
    destruct (process_directories_dry (Py.sort path_ltb (p :: l))
                (mk_progress root 0 0 [] None)) as [-> ->].
    now split.
  - cbn [tree_after renamed_all]. apply run_dry.
Qed.

Lemma files_of_Dir (es : dir) :
  files_of (Dir es) = flat_map files_of (map snd es).
Proof.
  cbn [files_of]. induction es as [|[k y] r IH]; simpl; [reflexivity|].
  now rewrite IH.
Qed.

Lemma files_of_erase (x : node) : files_of (erase x) = files_of x.
Proof.
  induction x as [f|es IH] using node_induction; [reflexivity|].
  rewrite erase_Dir, !files_of_Dir, !map_map. cbn [snd].
  induction es as [|[k y] r IHr]; simpl; [reflexivity|].
  inversion IH as [|? ? Hy Hr]; subst. cbn [snd] in Hy.
  now rewrite Hy, IHr.
Qed.

(** X18: whatever the mode, and whether the call completes or raises, it
    leaves a tree that holds the same files: none is lost, none is added,
    and each holds what it held. *)
Theorem driver_changes_names_only (root : dir) (dry recursive : bool) :
  exists t,
    tree_after (rename_media P (Some root) dry recursive) = Some t /\
    Permutation (files_of (Dir t)) (files_of (Dir root)).
Proof.
  assert (H : exists t,
             tree_after (rename_media P (Some root) dry recursive) = Some t /\
             erase (Dir t) = erase (Dir root)).
  { unfold rename_media. destruct recursive.
    - destruct (directories_with_media root) as [|p l].
      + now exists root.
      + eexists. split; [reflexivity|].
        apply (process_directories_erase dry (Py.sort path_ltb (p :: l))
                 (mk_progress root 0 0 [] None)).
    - cbn [tree_after].
      destruct (run_keeps_nodes root dry false) as [d' [-> Hs]].
      exists d'. split; [reflexivity | now apply erase_same_nodes]. }
  destruct H as [t [Ht He]]. exists t. split; [exact Ht|].
  rewrite <- (files_of_erase (Dir t)), He, files_of_erase. reflexivity.
Qed.

End DriverFacts.

Section PathOrderFacts.

Import Fs Driver.
Local Open Scope list_scope.

Lemma string_ltb_irrefl (a : string) : String.ltb a a = false.
Proof.
  destruct (String.ltb a a) eqn:H; [|reflexivity].
  now rewrite (string_ltb_asym _ _ H) in H.
Qed.

Lemma path_ltb_asym (a b : path) :
  path_ltb a b = true -> path_ltb b a = false.
Proof.
  revert b. induction a as [|x a IH]; intros [|y b]; simpl; try easy.
  destruct (String.eqb_spec x y) as [->|Hxy].
  - rewrite String.eqb_refl. apply IH.
  - destruct (String.eqb_spec y x) as [->|_]; [easy|]. apply string_ltb_asym.
Qed.

Lemma path_ltb_total (a b : path) :
  path_ltb a b = false -> path_ltb b a = false -> a = b.
Proof.
  revert b. induction a as [|x a IH]; intros [|y b]; simpl; try easy.
  destruct (String.eqb_spec x y) as [->|Hxy].
  - rewrite String.eqb_refl. intros H1 H2. f_equal. now apply IH.
  - destruct (String.eqb_spec y x) as [->|_]; [easy|].
    intros H1 H2. exfalso. apply Hxy. now apply string_ltb_total.
Qed.

Lemma path_ltb_trans (a b c : path) :
  path_ltb a b = true -> path_ltb b c = true -> path_ltb a c = true.
Proof.
  revert b c. induction a as [|x a IH]; intros [|y b] [|z c]; simpl; try easy.
  destruct (String.eqb_spec x y) as [->|Hxy].
  - destruct (String.eqb_spec y z) as [->|Hyz]; [apply IH | easy].
  - destruct (String.eqb_spec y z) as [->|Hyz].
    + destruct (String.eqb_spec x z) as [->|_]; easy.
    + intros H1 H2. pose proof (string_ltb_trans _ _ _ H1 H2) as H.
      destruct (String.eqb_spec x z) as [->|_]; [|exact H].
      now rewrite string_ltb_irrefl in H.
Qed.

Lemma path_leb_trans (a b c : path) :
  path_ltb b a = false -> path_ltb c b = false -> path_ltb c a = false.
Proof.
  intros H1 H2. destruct (path_ltb c a) eqn:Hca; [|reflexivity].
  destruct (path_ltb a b) eqn:Hab.
  - rewrite (path_ltb_trans _ _ _ Hca Hab) in H2. discriminate.
  - assert (a = b) by now apply path_ltb_total. subst. congruence.
Qed.

Lemma sorted_paths_strict (l : list path) :
  StronglySorted (fun a b => path_ltb b a = false) l ->
  NoDup l ->
  StronglySorted (fun a b => path_ltb a b = true) l.
Proof.
  induction 1 as [|a r Hr IH Ha]; intros Hnd; constructor.
  - apply IH. now inversion Hnd.
  - inversion Hnd as [|? ? Hnotin _]; subst.
    apply Forall_forall. intros b Hb.
    rewrite Forall_forall in Ha. specialize (Ha b Hb).
    destruct (path_ltb a b) eqn:Hab; [reflexivity|].
    exfalso. apply Hnotin. now rewrite (path_ltb_total _ _ Hab Ha).
Qed.

(** A directory stands before everything below it. *)
Lemma path_ltb_prefix (p r : path) : r <> [] -> path_ltb p (p ++ r) = true.
Proof.
  intros Hr. induction p as [|x p IH]; simpl.
  - now destruct r.
  - now rewrite String.eqb_refl.
Qed.

Lemma path_eqb_eq (a b : path) : path_eqb a b = true <-> a = b.
Proof.
  unfold path_eqb. now destruct (list_eq_dec String.string_dec a b).
Qed.

Lemma set_add_In (p q : path) (s : list path) :
  In q (set_add p s) <-> q = p \/ In q s.
Proof.
  unfold set_add.
  destruct (existsb (fun q => path_eqb q p) s) eqn:He.
  - split; [now right|]. intros [->|H]; [|exact H].
    apply existsb_exists in He. destruct He as [x [Hx Hd]].
    now apply path_eqb_eq in Hd; subst x.
  - rewrite in_app_iff. simpl. split; [intros [?|[?|[]]] | intros [?|?]]; auto.
Qed.

Lemma set_add_nodup (p : path) (s : list path) :
  NoDup s -> NoDup (set_add p s).
Proof.
  intros Hs. unfold set_add.
  destruct (existsb (fun q => path_eqb q p) s) eqn:He; [exact Hs|].
  apply NoDup_app; [exact Hs | repeat constructor; easy |].
  intros x Hx [Hpx|[]]. subst x.
  assert (existsb (fun q => path_eqb q p) s = true); [|congruence].
  apply existsb_exists. exists p. split; [exact Hx|].
  now apply path_eqb_eq.
Qed.

Lemma fold_set_add {X} (key : X -> path) (l : list X) (s : list path) :
  NoDup s ->
  NoDup (fold_left (fun s x => set_add (key x) s) l s) /\
  forall q, In q (fold_left (fun s x => set_add (key x) s) l s) <->
            In q s \/ exists x, In x l /\ key x = q.
Proof.
  revert s. induction l as [|x r IH]; intros s Hs; simpl.
  - split; [exact Hs|]. intros q. split; [now left | now intros [?|[? [[] _]]]].
  - destruct (IH (set_add (key x) s) (set_add_nodup _ Hs)) as [Hn Hq].
    split; [exact Hn|]. intros q. rewrite Hq, set_add_In. split.
    + intros [[->|H]|[y [Hy <-]]]; eauto.
    + intros [H|[y [[->|Hy] <-]]]; eauto.
Qed.

End PathOrderFacts.

Section DriverOrder.

Import Extract Fs Renamer Plan Driver.
Local Open Scope list_scope.

Variable P : platform.

Lemma directories_with_media_spec (root : dir) :
  NoDup (directories_with_media root) /\
  forall q, In q (directories_with_media root) <->
            exists pf, In pf (find_media_files root true) /\
                       parent (fst pf) = q.
Proof.
  unfold directories_with_media.
  destruct (@fold_set_add _ (fun pf : path * fdata => parent (fst pf))
              (find_media_files root true) [] (NoDup_nil _)) as [Hn Hq].
  split; [exact Hn|]. intros q. rewrite Hq. simpl. tauto.
Qed.

Lemma recursive_reports (root : dir) (dry : bool) :
  exists rest,
    Py.sort path_ltb (directories_with_media root) =
    map fst (all_reports (rename_media P (Some root) dry true)) ++ rest /\
    (raised_all (rename_media P (Some root) dry true) = None -> rest = []).
Proof.
  unfold rename_media.
  destruct (directories_with_media root) as [|p l].
  - exists []. now split.
  - cbn [all_reports raised_all].
    apply (process_directories_reports P dry (Py.sort path_ltb (p :: l))
             (mk_progress root 0 0 [] None)).
Qed.

(** X19: a recursive call processes only directories that hold a media
    file directly, each of them once, in ascending order of their paths,
    so a directory comes before its sub-directories; a call that
    completes has processed every such directory, and a call that raises
    has processed the first of them in that order. *)
Theorem directories_are_processed_once_in_order (root : dir) (dry : bool) :
  let processed :=
    map fst (all_reports (rename_media P (Some root) dry true)) in
  StronglySorted (fun a b => path_ltb a b = true) processed /\
  (forall q, In q processed ->
             exists pf, In pf (find_media_files root true) /\
                        parent (fst pf) = q) /\
  (raised_all (rename_media P (Some root) dry true) = None ->
   forall q, (exists pf, In pf (find_media_files root true) /\
                         parent (fst pf) = q) -> In q processed) /\
  exists later,
    Permutation (processed ++ later) (directories_with_media root) /\
    Forall (fun q => Forall (fun p => path_ltb p q = true) processed) later.
Proof.
  cbv zeta. destruct (recursive_reports root dry) as [rest [E Hrest]].
  destruct (directories_with_media_spec root) as [Hn Hq].
  assert (Hs : StronglySorted (fun a b => path_ltb a b = true)
                 (Py.sort path_ltb (directories_with_media root))).
  { apply sorted_paths_strict.
    - apply (sort_sorted path_ltb); [apply path_ltb_asym|].
      intros a b c. apply path_leb_trans.
    - apply (Permutation_NoDup (Permutation_sym (sort_perm _ _))), Hn. }
  rewrite E in Hs. split; [|split; [|split]].
  - now apply StronglySorted_front in Hs.
  - intros q Hin. apply Hq.
    apply (sort_In path_ltb). rewrite E. apply in_or_app. now left.
  - intros Hnone q Hex. rewrite (Hrest Hnone), app_nil_r in E.
    rewrite <- E. apply sort_In. now apply Hq.
  - exists rest. split.
    + rewrite <- E. apply sort_perm.
    + clear E Hrest.
      induction (map fst (all_reports (rename_media P (Some root) dry true)))
        as [|a l IH]; simpl in Hs.
      * apply Forall_forall. intros q _. constructor.
      * inversion Hs as [|? ? Hl Ha]; subst.
        specialize (IH Hl). rewrite Forall_forall in *.
        intros q Hin. constructor; [|now apply IH].
        apply Ha. apply in_or_app. now right.
Qed.

End DriverOrder.

Section DriverOrderWitness.

Import Extract Fs Renamer Plan Tree Driver Reference Scenario DriverCases.

Lemma directories_are_processed_once_in_order_witness :
  In ["2023"; "January"]%string
    (map fst (all_reports (rename_media posix (Some nested_tree) false true))).
Proof.
  apply (proj1 (proj2 (proj2 (directories_are_processed_once_in_order
                                posix nested_tree false)))).
  - reflexivity.
  - exists (["2023"; "January"; "IMG_001.jpg"]%string,
            photo "a" "2023:01:15 10:30:00").
    split; [|reflexivity]. simpl. auto.
Defined.

End DriverOrderWitness.

Section DriverIndependence.

Import Extract Fs Renamer Plan Tree Driver.
Local Open Scope list_scope.

Variable P : platform.

(** A run keeps the sub-directories of the directory and distinct names. *)
Lemma run_keeps_directories (d : dir) (dry rec : bool) :
  NoDup (map fst d) ->
  exists d', after (rename_media_in_directory P (Some d) dry rec) = Some d' /\
             NoDup (map fst d') /\
             filter is_dir d' = filter is_dir d.
Proof.
  intros Hnd. rewrite run_as_plan. cbv zeta. cbn [after].
  eexists. split; [reflexivity|]. split.
  - apply (@fold_contents P dry (plan P d) (mk_state d 0 [])); [|exact Hnd].
    apply Forall_forall. intros s Hs.
    destruct (plan_In P d s Hs) as [k [f [Hk _]]]. now exists k.
  - apply (@fold_dirs P dry (plan P d) (mk_state d 0 [])).
    + exact Hnd.
    + now apply plan_nodup.
    + apply Forall_forall. intros s Hs.
      destruct (plan_In P d s Hs) as [k [f [Hk [Hin _]]]]. now exists k, f.
Qed.

Lemma lookup_directory (a b : dir) (n : string) (x : dir) :
  NoDup (map fst b) ->
  filter is_dir a = filter is_dir b ->
  lookup n a = Some (Dir x) -> lookup n b = Some (Dir x).
Proof.
  intros Hb Hf Hl. apply In_lookup; [exact Hb|].
  apply lookup_In in Hl.
  assert (H : In (n, Dir x) (filter is_dir a))
    by (apply filter_In; now split).
  rewrite Hf in H. now apply filter_In in H.
Qed.

Lemma directory_below (a b : dir) (n : string) (r : path) :
  NoDup (map fst a) -> NoDup (map fst b) ->
  filter is_dir a = filter is_dir b ->
  directory_at (n :: r) a = directory_at (n :: r) b.
Proof.
  intros Ha Hb Hf. rewrite !directory_at_cons.
  destruct (lookup n a) as [[f|x]|] eqn:Hla.
  - destruct (lookup n b) as [[g|y]|] eqn:Hlb; try reflexivity.
    now rewrite (@lookup_directory b a n _ Ha (eq_sym Hf) Hlb) in Hla.
  - now rewrite (@lookup_directory a b n _ Hb Hf Hla).
  - destruct (lookup n b) as [[g|y]|] eqn:Hlb; try reflexivity.
    now rewrite (@lookup_directory b a n _ Ha (eq_sym Hf) Hlb) in Hla.
Qed.

(** Replacing the directory at [q] by one with the same sub-directories
    is not seen from a path that [q] does not start with. *)
Lemma directory_at_put_other (q p : path) (d sub sub' : dir) :
  directory_at q d = Some sub ->
  NoDup (map fst sub) -> NoDup (map fst sub') ->
  filter is_dir sub' = filter is_dir sub ->
  (forall r, q <> p ++ r) ->
  directory_at p (put_directory q sub' d) = directory_at p d.
Proof.
  revert p d. induction q as [|b q IH]; intros p d Hq Hs Hs' Hf Hp.
  - injection Hq as ->. rewrite put_directory_nil.
    destruct p as [|n r]; [now destruct (Hp [])|].
    now apply directory_below.
  - rewrite directory_at_cons in Hq.
    destruct (lookup b d) as [[f|x]|] eqn:Hl; try discriminate.
    destruct (@put_directory_cons b q sub' d x Hl (ex_intro _ sub Hq))
      as [a [c [Hd [Hna [-> _]]]]].
    destruct p as [|m p]; [now destruct (Hp (b :: q))|].
    rewrite !directory_at_cons.
    rewrite (@lookup_middle b m a c (Dir x) (Dir (put_directory q sub' x)) Hna).
    rewrite <- Hd.
    destruct (String.eqb_spec b m) as [<-|Hbm]; [|reflexivity].
    rewrite Hl. apply IH; auto.
    intros r Hr. apply (Hp r). simpl. now rewrite Hr.
Qed.

Lemma later_is_no_prefix (q p : path) :
  path_ltb q p = true -> forall r, q <> p ++ r.
Proof.
  intros Hlt r Hr. destruct r as [|x r].
  - rewrite app_nil_r in Hr. subst q.
    now rewrite (path_ltb_asym _ _ Hlt) in Hlt.
  - assert (H : path_ltb p q = true)
      by (rewrite Hr; now apply path_ltb_prefix).
    now rewrite (path_ltb_asym _ _ H) in Hlt.
Qed.

Lemma process_keeps_later (dry : bool) (pr : progress) (q p : path) :
  (forall sub, directory_at q (tree pr) = Some sub -> NoDup (map fst sub)) ->
  path_ltb q p = true ->
  directory_at p (tree (process_directory P dry pr q)) =
  directory_at p (tree pr).
Proof.
  intros Hnd Hlt. unfold process_directory. cbn [tree].
  destruct (directory_at q (tree pr)) as [sub|] eqn:Hq; [|reflexivity].
  destruct (@run_keeps_directories sub dry false (Hnd sub eq_refl))
    as [sub' [-> [Hn' Hf]]].
  apply directory_at_put_other with sub; auto.
  now apply later_is_no_prefix.
Qed.

Lemma directory_at_well_formed (p : path) (d sub : dir) :
  well_formed (Dir d) = true -> directory_at p d = Some sub ->
  well_formed (Dir sub) = true.
Proof.
  revert d. induction p as [|n r IH]; intros d Hwf H.
  - now injection H as <-.
  - rewrite directory_at_cons in H.
    destruct (lookup n d) as [[f|x]|] eqn:Hl; try discriminate.
    apply (IH x); [|exact H].
    destruct (well_formed_dir d Hwf) as [_ Hall].
    rewrite Forall_forall in Hall.
    apply (Hall (n, Dir x)). now apply lookup_In.
Qed.

Section Fold.

Variable root : dir.
Variable dry : bool.

Let alone (p : path) : run :=
  rename_media_in_directory P (directory_at p root) dry false.

Lemma process_directories_independent (l : list path) (pr : progress) :
  well_formed (Dir root) = true ->
  StronglySorted (fun a b => path_ltb a b = true) l ->
  (forall p, In p l -> directory_at p (tree pr) = directory_at p root) ->
  let pr' := process_directories P dry l pr in
  exists visited rest,
    l = visited ++ rest /\
    reports pr' = reports pr ++ map (fun p => (p, report (alone p))) visited /\
    (failed pr' = None ->
     rest = [] /\
     total_files_all pr' =
       total_files_all pr + list_sum (map (fun p => total_files (alone p)) l) /\
     total_renamed_all pr' =
       total_renamed_all pr + list_sum (map (fun p => renamed (alone p)) l) /\
     Forall (fun p => raised (alone p) = None) l).
Proof.
  intros Hwf Hs. revert pr.
  induction Hs as [|q l Hl IH Hq]; intros pr Hinv; cbv zeta.
  - exists [], []. simpl. rewrite app_nil_r. repeat split; try lia.
    constructor.
  - cbn [process_directories]. cbv zeta.
    assert (Hq0 : directory_at q (tree pr) = directory_at q root)
      by (apply Hinv; now left).
    assert (Hone : reports (process_directory P dry pr q) =
                   reports pr ++ [(q, report (alone q))] /\
                   failed (process_directory P dry pr q) = raised (alone q)).
    { unfold process_directory. cbn [reports failed]. rewrite Hq0.
      now split. }
    destruct Hone as [Hrep Hfail].
    destruct (failed (process_directory P dry pr q)) as [e|] eqn:Hf.
    + exists [q], l. split; [reflexivity|]. split; [exact Hrep|].
      rewrite Hf. discriminate.
    + destruct (IH (process_directory P dry pr q))
        as [visited [rest [Hv [Hr Hc]]]].
      { intros p Hp. rewrite process_keeps_later.
        - apply Hinv. now right.
        - intros sub Hsub. rewrite Hq0 in Hsub.
          apply well_formed_dir.
          now apply (directory_at_well_formed q root).
        - rewrite Forall_forall in Hq. now apply Hq. }
      exists (q :: visited), rest.
      split; [simpl; now rewrite <- Hv|].
      split; [rewrite Hr, Hrep, <- app_assoc; reflexivity|].
      intros Hnone. destruct (Hc Hnone) as [-> [Hfa [Hre Hall]]].
      split; [reflexivity|]. rewrite Hfa, Hre.
      unfold process_directory. cbn [total_files_all total_renamed_all].
      rewrite Hq0. fold (alone q). rewrite <- Hfail.
      simpl. repeat split; try lia. now constructor.
Qed.

End Fold.

Lemma recursive_run_as_separate_runs (root : dir) (dry : bool) :
  well_formed (Dir root) = true ->
  let r := rename_media P (Some root) dry true in
  let alone := fun p =>
    rename_media_in_directory P (directory_at p root) dry false in
  let dirs := Py.sort path_ltb (directories_with_media root) in
  all_reports r =
  map (fun p => (p, report (alone p))) (map fst (all_reports r)) /\
  (raised_all r = None ->
   all_reports r = map (fun p => (p, report (alone p))) dirs /\
   files_all r = list_sum (map (fun p => total_files (alone p)) dirs) /\
   renamed_all r = list_sum (map (fun p => renamed (alone p)) dirs) /\
   Forall (fun p => raised (alone p) = None) dirs).
Proof.
  intros Hwf. cbv zeta. unfold rename_media.
  destruct (directories_with_media root) as [|p l] eqn:Hd;
    [now repeat split|].
  cbn [all_reports files_all renamed_all raised_all]. rewrite <- Hd.
  destruct (@process_directories_independent root dry
              (Py.sort path_ltb (directories_with_media root))
              (mk_progress root 0 0 [] None) Hwf)
    as [visited [rest [Hv [Hr Hc]]]].
  - apply sorted_paths_strict.
    + apply (sort_sorted path_ltb); [apply path_ltb_asym|].
      intros a b c. apply path_leb_trans.
    + apply (Permutation_NoDup (Permutation_sym (sort_perm _ _))).
      apply directories_with_media_spec.
  - reflexivity.
  - cbn [reports total_files_all total_renamed_all app] in Hr, Hc.
    split.
    + rewrite Hr, !map_map. reflexivity.
    + intros Hnone. destruct (Hc Hnone) as [-> [Hfa [Hre Hall]]].
      rewrite app_nil_r in Hv. subst visited.
      rewrite Hr, Hfa, Hre. repeat split. exact Hall.
Qed.

(** X20: in a tree whose directories list distinct names, a recursive call
    treats every directory as a separate non-recursive call on that
    directory of the original tree would: it prints the same lines for
    it, and when it completes, the totals are the sums of what those
    calls return.  The renames made in one directory do not affect
    another. *)
Theorem directories_are_processed_independently (root : dir) (dry : bool) :
  well_formed (Dir root) = true ->
  let r := rename_media P (Some root) dry true in
  let alone := fun p =>
    rename_media_in_directory P (directory_at p root) dry false in
  let dirs := Py.sort path_ltb (directories_with_media root) in
  all_reports r =
  map (fun p => (p, report (alone p))) (map fst (all_reports r)) /\
  (raised_all r = None ->
   all_reports r = map (fun p => (p, report (alone p))) dirs /\
   files_all r = list_sum (map (fun p => total_files (alone p)) dirs) /\
   renamed_all r = list_sum (map (fun p => renamed (alone p)) dirs)).
Proof.
  intros Hwf. cbv zeta.
  destruct (recursive_run_as_separate_runs root dry Hwf) as [Hv Hc].
  split; [exact Hv|]. intros Hnone.
  destruct (Hc Hnone) as [Hr [Hf [Hn _]]]. now repeat split.
Qed.

End DriverIndependence.

Section DriverIndependenceWitness.

Import Extract Fs Renamer Plan Tree Driver Reference DriverCases.

Lemma directories_are_processed_independently_witness :
  let r := rename_media posix (Some nested_tree) false true in
  let alone := fun p =>
    rename_media_in_directory posix (directory_at p nested_tree) false false in
  let dirs := Py.sort path_ltb (directories_with_media nested_tree) in
  all_reports r = map (fun p => (p, report (alone p))) dirs /\
  files_all r = list_sum (map (fun p => total_files (alone p)) dirs) /\
  renamed_all r = list_sum (map (fun p => renamed (alone p)) dirs).
Proof.
  apply (@directories_are_processed_independently posix nested_tree false).
  - reflexivity.
  - reflexivity.
Defined.

End DriverIndependenceWitness.

Section DriverCount.

Import Extract Fs Renamer Plan Tree Driver.
Local Open Scope list_scope.

Lemma filter_all {X} (f : X -> bool) (l : list X) :
  (forall x, In x l -> f x = true) -> filter f l = l.
Proof.
  induction l as [|x r IH]; simpl; intros H; [reflexivity|].
  rewrite (H x (or_introl eq_refl)). f_equal. apply IH. auto.
Qed.

Lemma filter_none {X} (f : X -> bool) (l : list X) :
  (forall x, In x l -> f x = false) -> filter f l = [].
Proof.
  induction l as [|x r IH]; simpl; intros H; [reflexivity|].
  rewrite (H x (or_introl eq_refl)). apply IH. auto.
Qed.

Lemma flat_map_step {X Y} (f : X -> list Y) (x : X) (l : list X) :
  flat_map f (x :: l) = f x ++ flat_map f l.
Proof. reflexivity. Qed.

Lemma rglob_paths (x : node) (p : path) (y : node) :
  In (p, y) (rglob_node x) -> exists k q, p = k :: q.
Proof.
  destruct x as [f|es]; [contradiction|].
  change (rglob_node (Dir es)) with (rglob es). rewrite rglob_unfold.
  intros Hin. apply in_app_or in Hin. destruct Hin as [Hin|Hin].
  - unfold iterdir in Hin. apply in_map_iff in Hin.
    destruct Hin as [e [[= <- _] _]]. now exists (fst e), [].
  - unfold nested in Hin. apply in_flat_map in Hin.
    destruct Hin as [e [_ Hin]]. apply in_map_iff in Hin.
    destruct Hin as [pe [[= <- _] _]]. now exists (fst e), (fst pe).
Qed.

Lemma media_file_path (e : path * node) (pf : path * fdata) :
  In pf (media_file e) -> fst pf = fst e.
Proof.
  unfold media_file. destruct (snd e); [|contradiction].
  destruct (mem _ media_extensions); [|contradiction].
  now intros [<-|[]].
Qed.

Lemma media_file_cons (k n : string) (q : path) (y : node) :
  media_file (k :: n :: q, y) =
  map (fun pf => (k :: fst pf, snd pf)) (media_file (n :: q, y)).
Proof.
  unfold media_file. cbn [fst snd]. destruct y as [f|]; [|reflexivity].
  change (name (k :: n :: q)) with (name (n :: q)).
  now destruct (mem _ media_extensions).
Qed.

(** The media files below a node, as the recursive discovery lists them. *)
Lemma media_prefixed (k : string) (l : list (path * node)) :
  (forall p y, In (p, y) l -> exists n q, p = n :: q) ->
  flat_map media_file (map (fun pe => (k :: fst pe, snd pe)) l) =
  map (fun pf => (k :: fst pf, snd pf)) (flat_map media_file l).
Proof.
  induction l as [|[p y] r IH]; intros H; [reflexivity|].
  cbn [map flat_map fst snd]. rewrite map_app, IH.
  - destruct (H p y (or_introl eq_refl)) as [n [q ->]].
    now rewrite media_file_cons.
  - intros p' y' Hin. apply (H p' y'). now right.
Qed.

Lemma media_nested (d : dir) :
  flat_map media_file (nested d) =
  flat_map (fun e => map (fun pf => (fst e :: fst pf, snd pf))
                       (flat_map media_file (rglob_node (snd e)))) d.
Proof.
  unfold nested. induction d as [|[k y] r IH]; [reflexivity|].
  rewrite !flat_map_step, flat_map_app. cbn [fst snd].
  f_equal; [|exact IH].
  apply media_prefixed. intros p z. apply rglob_paths.
Qed.

Lemma media_paths (x : node) (pf : path * fdata) :
  In pf (flat_map media_file (rglob_node x)) -> exists k q, fst pf = k :: q.
Proof.
  intros Hin. apply in_flat_map in Hin. destruct Hin as [[p y] [Hp Hm]].
  apply media_file_path in Hm. rewrite Hm. now apply rglob_paths in Hp.
Qed.

Lemma parent_cons (k n : string) (q : path) :
  parent (k :: n :: q) = k :: parent (n :: q).
Proof. reflexivity. Qed.

(** Of the files below the entry [k], those whose parent is [n :: p]. *)
Lemma filter_prefixed (k n : string) (p : path) (l : list (path * fdata)) :
  (forall pf, In pf l -> exists m q, fst pf = m :: q) ->
  filter (fun pf => path_eqb (parent (fst pf)) (n :: p))
    (map (fun pf => (k :: fst pf, snd pf)) l) =
  if String.eqb k n
  then map (fun pf => (k :: fst pf, snd pf))
         (filter (fun pf => path_eqb (parent (fst pf)) p) l)
  else [].
Proof.
  induction l as [|[q f] r IH]; intros H.
  - now destruct (String.eqb k n).
  - cbn [map filter fst snd].
    assert (Hr : forall pf, In pf r -> exists m q, fst pf = m :: q)
      by (intros pf Hpf; apply H; now right).
    specialize (IH Hr).
    destruct (H (q, f) (or_introl eq_refl)) as [m [q' Hq]].
    simpl in Hq. subst q. rewrite parent_cons, IH.
    destruct (String.eqb_spec k n) as [->|Hkn].
    + destruct (path_eqb (parent (m :: q')) p) eqn:He.
      * apply path_eqb_eq in He. rewrite He.
        now rewrite (proj2 (path_eqb_eq (n :: p) (n :: p)) eq_refl).
      * destruct (path_eqb (n :: parent (m :: q')) (n :: p)) eqn:He';
          [|reflexivity].
        apply path_eqb_eq in He'.
        assert (E : parent (m :: q') = p) by (now injection He').
        apply path_eqb_eq in E. congruence.
    + destruct (path_eqb (k :: parent (m :: q')) (n :: p)) eqn:He';
        [|reflexivity].
      apply path_eqb_eq in He'. now injection He' as He' _.
Qed.

Lemma filter_entries (n : string) (p : path) (es : dir) :
  NoDup (map fst es) ->
  filter (fun pf => path_eqb (parent (fst pf)) (n :: p))
    (flat_map (fun e => map (fun pf => (fst e :: fst pf, snd pf))
                          (flat_map media_file (rglob_node (snd e)))) es) =
  match lookup n es with
  | Some y =>
      map (fun pf => (n :: fst pf, snd pf))
        (filter (fun pf => path_eqb (parent (fst pf)) p)
           (flat_map media_file (rglob_node y)))
  | None => []
  end.
Proof.
  induction es as [|[k y] r IH]; intros Hnd; [reflexivity|].
  inversion Hnd as [|? ? Hk Hr]; subst.
  rewrite flat_map_step. cbn [fst snd lookup].
  rewrite filter_app, filter_prefixed by apply media_paths.
  pose proof (IH Hr) as IH'.
  destruct (String.eqb_spec k n) as [->|Hkn].
  - apply lookup_None in Hk. rewrite Hk in IH'.
    exact (eq_trans (f_equal (app _) IH') (app_nil_r _)).
  - exact IH'.
Qed.

(** The files that the recursive discovery finds in the directory at [p]
    are the media files that directory holds directly. *)
Lemma media_in_directory (p : path) (d : dir) :
  well_formed (Dir d) = true ->
  filter (fun pf => path_eqb (parent (fst pf)) p) (find_media_files d true) =
  match directory_at p d with
  | Some sub => map (fun pf => (p ++ fst pf, snd pf))
                  (find_media_files sub false)
  | None => []
  end.
Proof.
  revert d. induction p as [|n p IH]; intros d Hwf.
  - rewrite directory_at_nil.
    unfold find_media_files at 1. rewrite rglob_unfold, flat_map_app.
    change (flat_map media_file (iterdir d)) with (find_media_files d false).
    rewrite filter_app, filter_all, filter_none.
    + rewrite app_nil_r. symmetry. erewrite map_ext; [apply map_id|].
      now intros [q f].
    + intros pf Hin. rewrite media_nested in Hin. apply in_flat_map in Hin.
      destruct Hin as [e [_ Hin]]. apply in_map_iff in Hin.
      destruct Hin as [[q0 f0] [<- Hin]]. apply media_paths in Hin.
      destruct Hin as [k [q Hq]]. simpl in Hq. subst q0. reflexivity.
    + intros [q f] Hin. apply find_media_files_In in Hin.
      destruct Hin as [k [-> _]]. reflexivity.
  - unfold find_media_files at 1. rewrite rglob_unfold, flat_map_app.
    change (flat_map media_file (iterdir d)) with (find_media_files d false).
    rewrite filter_app, filter_none.
    + destruct (well_formed_dir d Hwf) as [Hnd Hall].
      cbn [app]. rewrite media_nested, (@filter_entries n p d Hnd).
      rewrite directory_at_cons.
      destruct (lookup n d) as [[f|x]|] eqn:Hl; [reflexivity| |reflexivity].
      change (flat_map media_file (rglob_node (Dir x)))
        with (find_media_files x true).
      rewrite IH.
      * destruct (directory_at p x); [|reflexivity].
        rewrite map_map. reflexivity.
      * rewrite Forall_forall in Hall. apply (Hall (n, Dir x)).
        now apply lookup_In.
    + intros [q f] Hin. apply find_media_files_In in Hin.
      destruct Hin as [k [-> _]]. reflexivity.
Qed.

(** Counting a list by a key that takes its values in a duplicate-free
    list. *)
Lemma list_sum_zero {X} (l : list X) : list_sum (map (fun _ => 0) l) = 0.
Proof. induction l; simpl; auto. Qed.

Lemma count_one (q : path) (D : list path) :
  NoDup D -> In q D ->
  list_sum (map (fun p => if path_eqb q p then 1 else 0) D) = 1.
Proof.
  induction D as [|p D IH]; intros Hnd Hin; [contradiction|].
  inversion Hnd as [|? ? Hp HD]; subst. simpl.
  destruct (path_eqb q p) eqn:He.
  - apply path_eqb_eq in He. subst p.
    rewrite (map_ext_in _ (fun _ => 0)); [now rewrite list_sum_zero|].
    intros p Hp'. destruct (path_eqb q p) eqn:He; [|reflexivity].
    apply path_eqb_eq in He. now subst p.
  - destruct Hin as [->|Hin]; [|now apply IH].
    now rewrite (proj2 (path_eqb_eq q q) eq_refl) in He.
Qed.

Lemma list_sum_add {X} (f g : X -> nat) (l : list X) :
  list_sum (map (fun x => f x + g x) l) =
  list_sum (map f l) + list_sum (map g l).
Proof. induction l as [|x r IH]; simpl; [reflexivity|]. rewrite IH. lia. Qed.

Lemma length_by_key {X} (key : X -> path) (L : list X) (D : list path) :
  NoDup D -> (forall x, In x L -> In (key x) D) ->
  list_sum (map (fun p => List.length
                            (filter (fun x => path_eqb (key x) p) L)) D) =
  List.length L.
Proof.
  intros Hnd. induction L as [|x L IH]; intros H.
  - simpl. apply list_sum_zero.
  - change (List.length (x :: L)) with (1 + List.length L).
    rewrite <- IH by (intros y Hy; apply H; now right).
    rewrite <- (@count_one (key x) D Hnd (H x (or_introl eq_refl))).
    rewrite <- list_sum_add. f_equal. apply map_ext. intros p.
    cbn [filter]. now destruct (path_eqb (key x) p).
Qed.

Variable P : platform.

Lemma run_total_files (d : dir) (dry rec : bool) :
  raised (rename_media_in_directory P (Some d) dry rec) = None ->
  total_files (rename_media_in_directory P (Some d) dry rec) =
  List.length (find_media_files d false).
Proof.
  rewrite run_as_plan. cbv zeta. cbn [raised total_files]. now intros ->.
Qed.

(** X21: in a tree whose directories list distinct names, the number of
    files that a recursive call that completes reports as processed is
    the number of media files that the recursive discovery finds: no file
    is counted twice and none is left out, whether the run is a dry run
    or not. *)
Theorem recursive_total_counts_every_media_file (root : dir) (dry : bool) :
  well_formed (Dir root) = true ->
  raised_all (rename_media P (Some root) dry true) = None ->
  files_all (rename_media P (Some root) dry true) =
  List.length (find_media_files root true).
Proof.
  intros Hwf Hnone.
  destruct (recursive_run_as_separate_runs P root dry Hwf) as [_ Hc].
  destruct (Hc Hnone) as [_ [-> [_ Hall]]].
  destruct (directories_with_media_spec root) as [Hnd Hin].
  rewrite <- (@length_by_key _ (fun pf : path * fdata => parent (fst pf))
                (find_media_files root true)
                (Py.sort path_ltb (directories_with_media root))).
  - f_equal. apply map_ext_in. intros p Hp.
    rewrite Forall_forall in Hall. specialize (Hall p Hp).
    rewrite (@media_in_directory p root Hwf).
    destruct (directory_at p root) as [sub|].
    + now rewrite run_total_files, length_map.
    + reflexivity.
  - apply (Permutation_NoDup (Permutation_sym (sort_perm _ _))), Hnd.
  - intros pf Hpf. apply sort_In, Hin. now exists pf.
Qed.

End DriverCount.

Section DriverCountWitness.

Import Extract Fs Renamer Plan Tree Driver Reference DriverCases.

Lemma recursive_total_counts_every_media_file_witness :
  files_all (rename_media posix (Some nested_tree) false true) =
  List.length (find_media_files nested_tree true).
Proof.
  apply (@recursive_total_counts_every_media_file posix nested_tree false).
  - reflexivity.
  - reflexivity.
Defined.

End DriverCountWitness.

Section DiscoveryComplete.

Import Extract Fs Renamer Plan Tree Driver Reference Scenario DriverCases.
Local Open Scope list_scope.

Lemma media_file_here (p : path) (f : fdata) :
  mem (Py.lower (Py.suffix (name p))) media_extensions = true ->
  media_file (p, File f) = [(p, f)].
Proof. unfold media_file. cbn [fst snd]. now intros ->. Qed.

(** X24: the recursive discovery misses nothing: a regular file with a
    recognised extension, at whatever depth below the directory, is among
    the files it returns, with the path that leads to it. *)
Theorem recursive_discovery_misses_nothing (d : dir) (p : path) (f : fdata) :
  lookup_path p d = Some (File f) ->
  mem (Py.lower (Py.suffix (name p))) media_extensions = true ->
  In (p, f) (find_media_files d true).
Proof.
  revert d. induction p as [|n r IH]; intros d Hl Hext; [discriminate|].
  unfold find_media_files. rewrite rglob_unfold, flat_map_app.
  apply in_or_app. simpl in Hl.
  destruct (lookup n d) as [[g|sub]|] eqn:Hn; [| |discriminate].
  - left. destruct r; [|discriminate]. injection Hl as ->.
    apply in_flat_map. exists ([n], File f). split.
    + unfold iterdir. apply in_map_iff. exists (n, File f).
      split; [reflexivity | now apply lookup_In].
    + rewrite (media_file_here _ _ Hext). now left.
  - right. destruct r as [|m r]; [discriminate|].
    rewrite media_nested. apply in_flat_map. exists (n, Dir sub).
    split; [now apply lookup_In|]. cbn [fst snd].
    apply in_map_iff. exists (m :: r, f). split; [reflexivity|].
    apply (IH sub Hl). exact Hext.
Qed.

Lemma recursive_discovery_misses_nothing_witness :
  In (["2023"; "January"; "IMG_001.jpg"], photo "a" "2023:01:15 10:30:00")
    (find_media_files nested_tree true).
Proof.
  apply (@recursive_discovery_misses_nothing nested_tree).
  - reflexivity.
  - reflexivity.
Defined.

End DiscoveryComplete.
